(** * ProtoDisk-Sim: run classification, output trackers, command runner
      and phase orchestrator

    A shallow embedding of [naming.py], of the tracker classes of
    [terminal_ui.py] and [single_run.py], and of [run_radmc_command] and
    [run_single_simulation], with the properties the design document states
    about them.

    Python values are an inductive type, exceptions are data, and every
    function that can raise returns a [result].  Code that talks to the
    outside (the solver subprocess, the radmc3dPy library, the clock, the
    search path) reads its answers from a [host] record and records what it
    did in a trace. *)

From Stdlib Require Import ZArith String Ascii List Lia Bool Permutation.
From Corelib Require Import Floats.PrimFloat Floats.FloatOps Floats.SpecFloat.
From stdpp Require Import gmap strings list fin_maps fin_sets pretty.

Set Warnings "-register-all".

Local Open Scope string_scope.
Local Open Scope Z_scope.

(** ** Python values and exceptions *)

Module Py.

(** The exceptions the modelled code raises or lets through. *)
Inductive exn : Type :=
| TypeError
| ValueError
| OverflowError
| IndexError
| KeyError (key : string)
| OSError (msg : string)
| FileNotFoundError (msg : string)
| RuntimeError (msg : string)
| OtherError (what : string).

Inductive result (A : Type) : Type :=
| Ok (a : A)
| Raise (e : exn).

Arguments Ok {A} a.
Arguments Raise {A} e.

Definition bind {A B : Type} (r : result A) (k : A -> result B) : result B :=
  match r with
  | Ok a => k a
  | Raise e => Raise e
  end.

Notation "x <- r ;; k" := (bind r (fun x => k))
  (at level 100, r at next level, right associativity).

(** The values a configuration can bind a parameter to.  [float] is the
    kernel's binary64, the same format as a Python float. *)
Inductive pyval : Type :=
| PNone
| PBool (b : bool)
| PInt (z : Z)
| PFloat (f : float)
| PStr (s : string)
| PList (l : list pyval)
| PTuple (l : list pyval).

(** A dict in insertion order, keys unique; [dict_get] is
    [d.get(key, default)]. *)
Definition dict : Type := list (string * pyval).

Fixpoint dict_get (d : dict) (key : string) (default : pyval) : pyval :=
  match d with
  | [] => default
  | (k, v) :: d' => if String.eqb k key then v else dict_get d' key default
  end.

Definition dict_keys (d : dict) : list string := map fst d.

(** [d[key]]: KeyError when the key is absent. *)
Fixpoint dict_lookup (d : dict) (key : string) : result pyval :=
  match d with
  | [] => Raise (KeyError key)
  | (k, v) :: d' => if String.eqb k key then Ok v else dict_lookup d' key
  end.

(** [v > 0]: numbers compare (a bool is an int), anything else against an
    int is a TypeError. *)
Definition py_gt0 (v : pyval) : result bool :=
  match v with
  | PBool b => Ok b
  | PInt z => Ok (0 <? z)
  | PFloat f => Ok (PrimFloat.ltb 0%float f)
  | _ => Raise TypeError
  end.

(** [v != 0]: never raises; values of other types are unequal to 0. *)
Definition py_ne0 (v : pyval) : bool :=
  match v with
  | PBool b => b
  | PInt z => negb (z =? 0)
  | PFloat f => negb (PrimFloat.eqb f 0%float)
  | _ => true
  end.

(** Truth value, as [if v:] takes it. *)
Definition py_truthy (v : pyval) : bool :=
  match v with
  | PNone => false
  | PBool b => b
  | PInt z => negb (z =? 0)
  | PFloat f => negb (PrimFloat.eqb f 0%float)
  | PStr s => negb (String.eqb s "")
  | PList l | PTuple l => match l with [] => false | _ => true end
  end.

Fixpoint chars (s : string) : list pyval :=
  match s with
  | EmptyString => []
  | String c s' => PStr (String c EmptyString) :: chars s'
  end.

(** [iter(v)]: lists, tuples and strings are iterable. *)
Definition py_iter (v : pyval) : result (list pyval) :=
  match v with
  | PList l | PTuple l => Ok l
  | PStr s => Ok (chars s)
  | _ => Raise TypeError
  end.

(** [isinstance(v, (list, tuple))]. *)
Definition is_list_or_tuple (v : pyval) : bool :=
  match v with
  | PList _ | PTuple _ => true
  | _ => false
  end.

(** [any(x > 0 for x in l)]: stops at the first true element, and raises at
    the first element that does not compare if none before it was true. *)
Fixpoint any_gt0 (l : list pyval) : result bool :=
  match l with
  | [] => Ok false
  | v :: l' => b <- py_gt0 v ;; if b then Ok true else any_gt0 l'
  end.

Definition py_any_gt0 (v : pyval) : result bool :=
  l <- py_iter v ;; any_gt0 l.

(** [any(x != 0 for x in v)]. *)
Definition py_any_ne0 (v : pyval) : result bool :=
  l <- py_iter v ;; Ok (existsb py_ne0 l).

(** [a or b] on conditions that may raise: [b] is not evaluated when [a]
    holds. *)
Definition or_else (a : result bool) (b : result bool) : result bool :=
  x <- a ;; if x then Ok true else b.

(** *** Statements: state passing with exceptions

    A statement runs on a state [S] and ends normally with a value or with
    an exception; either way the state it leaves is kept, as a Python
    object keeps the mutations made before a raise. *)
Definition M (S A : Type) : Type := S -> result A * S.

Definition retM {S A : Type} (a : A) : M S A := fun s => (Ok a, s).

Definition raiseM {S A : Type} (e : exn) : M S A := fun s => (Raise e, s).

Definition bindM {S A B : Type} (m : M S A) (k : A -> M S B) : M S B :=
  fun s =>
    match m s with
    | (Ok a, s') => k a s'
    | (Raise e, s') => (Raise e, s')
    end.

Definition liftM {S A : Type} (r : result A) : M S A := fun s => (r, s).

Definition getsM {S A : Type} (f : S -> A) : M S A := fun s => (Ok (f s), s).

Definition modifyM {S : Type} (f : S -> S) : M S unit := fun s => (Ok tt, f s).

(** [try: body finally: final]: [final] runs on both exits; an exception of
    [final] replaces the outcome of [body]. *)
Definition try_finally {S A : Type} (body : M S A) (final : M S unit) : M S A :=
  fun s =>
    let (r, s') := body s in
    match final s' with
    | (Ok _, s'') => (r, s'')
    | (Raise e, s'') => (Raise e, s'')
    end.

(** [try: body except Exception as e: handler e]. *)
Definition try_except {S A : Type} (body : M S A) (handler : exn -> M S A) : M S A :=
  fun s =>
    match body s with
    | (Ok a, s') => (Ok a, s')
    | (Raise e, s') => handler e s'
    end.

Notation "x <~ m ;; k" := (bindM m (fun x => k))
  (at level 100, m at next level, right associativity).
Notation "m ;;; k" := (bindM m (fun _ => k))
  (at level 100, right associativity).

(** What reaches the terminal: a [print] call on the process's standard
    output, or a renderable handed to the rich console. *)
Inductive output : Type :=
| Stdout (text : string)
| Console (text : string)
| ConsoleTable (rows : list (string * string)).

(** *** Conversions between numbers and text

    What the interpreter does when it prints or parses a float is not
    modelled digit by digit: the code is stated over any runtime that
    provides these conversions. *)
Class PyRuntime : Type := {
  (** [str(f)] and [f'{f}'] of a float. *)
  repr_float : float -> string;
  (** [f'{f:.<digits>f}']. *)
  fixed_float : nat -> float -> string;
  (** [float(s)] of a string; [None] when [s] is no number. *)
  float_of_str : string -> option float;
  (** [str(l)] of a list or tuple. *)
  repr_seq : pyval -> string;
  (** [str(e)] of an exception the interpreter raised itself. *)
  builtin_message : exn -> string;
  (** [sys.get_int_max_str_digits()]: the longest digit string [int]
      converts, 0 when there is no limit. *)
  int_max_str_digits : nat;
  (** The interpreter accepts no limit below 640. *)
  int_max_str_digits_valid :
    ((int_max_str_digits =? 0) || (640 <=? int_max_str_digits))%nat = true
}.

(** [int(f)]: truncation toward zero; NaN is a ValueError and an infinity an
    OverflowError. *)
Definition int_of_float (f : float) : result Z :=
  match Prim2SF f with
  | S754_zero _ => Ok 0
  | S754_infinity _ => Raise OverflowError
  | S754_nan => Raise ValueError
  | S754_finite s m e =>
      let magnitude := if 0 <=? e then Z.pos m * 2 ^ e else Z.pos m / 2 ^ (- e) in
      Ok (if s then - magnitude else magnitude)
  end.

(** [float(z)] of an int: rounded to nearest even; OverflowError when the
    int is too large for a float. *)
Definition float_of_int (z : Z) : result float :=
  match binary_normalize 53 1024 z 0 false with
  | S754_infinity _ => Raise OverflowError
  | sf => Ok (SF2Prim sf)
  end.

Section Conversions.

Context `{RT : PyRuntime}.

(** [float(v)]. *)
Definition py_float (v : pyval) : result float :=
  match v with
  | PBool b => Ok (if b then 1%float else 0%float)
  | PInt z => float_of_int z
  | PFloat f => Ok f
  | PStr s => match float_of_str s with Some f => Ok f | None => Raise ValueError end
  | _ => Raise TypeError
  end.

(** [str(v)], which is also [f'{v}']. *)
Definition py_str (v : pyval) : string :=
  match v with
  | PNone => "None"
  | PBool true => "True"
  | PBool false => "False"
  | PInt z => pretty z
  | PFloat f => repr_float f
  | PStr s => s
  | PList _ | PTuple _ => repr_seq v
  end.

(** [str(e)]: the message the exception was built with; a KeyError shows the
    repr of its key. *)
Definition exn_str (e : exn) : string :=
  match e with
  | RuntimeError msg | FileNotFoundError msg | OSError msg => msg
  | KeyError key => "'" +:+ key +:+ "'"
  | _ => builtin_message e
  end.

End Conversions.

End Py.

Export Py.

(** A runtime for the closed examples, which state nothing about the text
    of a float: each conversion answers with a fixed text.  The theorems
    hold for every runtime. *)
Definition example_runtime : PyRuntime := {|
  repr_float := fun _ => "<float>";
  fixed_float := fun _ _ => "<float>";
  float_of_str := fun _ => None;
  repr_seq := fun _ => "<seq>";
  builtin_message := fun _ => "<message>";
  int_max_str_digits := 4300;
  int_max_str_digits_valid := eq_refl
|}.

(** ** naming.py *)

Module Naming.

Section Classifier.

Context `{RT : PyRuntime}.

Definition append_if (b : bool) (l : list string) (t : string) : list string :=
  if b then (l ++ [t])%list else l.

(** [determine_category(params)], statement by statement. *)
Definition determine_category (params : dict) : result string :=
  let active_features : list string := [] in
  (* Check for spiral structures *)
  spiral <- or_else (py_gt0 (dict_get params "h_spiral_amp" (PInt 0)))
                    (py_gt0 (dict_get params "sig_spiral_amp" (PInt 0))) ;;
  active_features <-
    (if spiral : bool then
       let n_arms := dict_get params "n_arms" (PInt 0) in
       arms <- py_gt0 n_arms ;;
       if arms : bool
       then Ok (active_features ++ ["spiral_" +:+ py_str n_arms +:+ "arms"])%list
       else Ok (active_features ++ ["spiral"])%list
     else Ok active_features) ;;
  (* Check for vortex structures *)
  let vortex_h := dict_get params "h_vortex_amp" (PList [PFloat 0; PFloat 0]) in
  let vortex_sig := dict_get params "sig_vortex_amp" (PList [PFloat 0; PFloat 0]) in
  has_vortex <-
    (if is_list_or_tuple vortex_h
     then or_else (py_any_gt0 vortex_h) (py_any_gt0 vortex_sig)
     else or_else (py_gt0 vortex_h) (py_gt0 vortex_sig)) ;;
  let active_features := append_if has_vortex active_features "vortex" in
  (* Check for Fourier modulation *)
  let fourier_h_a := dict_get params "h_fourier_aj" (PList (repeat (PFloat 0) 5)) in
  let fourier_h_b := dict_get params "h_fourier_bj" (PList (repeat (PFloat 0) 5)) in
  let fourier_sig_a := dict_get params "sig_fourier_aj" (PList (repeat (PFloat 0) 5)) in
  let fourier_sig_b := dict_get params "sig_fourier_bj" (PList (repeat (PFloat 0) 5)) in
  has_fourier <-
    or_else (py_any_ne0 fourier_h_a)
      (or_else (py_any_ne0 fourier_h_b)
         (or_else (py_any_ne0 fourier_sig_a) (py_any_ne0 fourier_sig_b))) ;;
  let active_features := append_if has_fourier active_features "fourier" in
  (* Check for warp *)
  let active_features :=
    append_if (py_truthy (dict_get params "enable_warp" (PBool false)))
      active_features "warp" in
  (* Check for inner edge shadow *)
  let active_features :=
    append_if (py_truthy (dict_get params "use_inner_edge_shadow" (PBool false)))
      active_features "inner_edge" in
  (* Check for radial damping *)
  let active_features :=
    append_if (py_truthy (dict_get params "use_radial_damping" (PBool false)))
      active_features "damping" in
  (* Determine category *)
  match active_features with
  | [] => Ok "baseline"
  | [only] => Ok only
  | _ => Ok ("combined_" +:+ String.concat "_" active_features)
  end.

(** *** The classifier as the design document words it

    A fixed, ordered list of feature predicates, each tied to a token, and a
    composition rule over the tokens of the active features. *)

Inductive feature : Type :=
| Spiral | Vortex | Fourier | Warp | InnerEdge | Damping.

Definition features : list feature :=
  [Spiral; Vortex; Fourier; Warp; InnerEdge; Damping].

Definition feature_active (params : dict) (f : feature) : result bool :=
  match f with
  | Spiral =>
      or_else (py_gt0 (dict_get params "h_spiral_amp" (PInt 0)))
              (py_gt0 (dict_get params "sig_spiral_amp" (PInt 0)))
  | Vortex =>
      let h := dict_get params "h_vortex_amp" (PList [PFloat 0; PFloat 0]) in
      let s := dict_get params "sig_vortex_amp" (PList [PFloat 0; PFloat 0]) in
      if is_list_or_tuple h
      then or_else (py_any_gt0 h) (py_any_gt0 s)
      else or_else (py_gt0 h) (py_gt0 s)
  | Fourier =>
      let zeros := PList (repeat (PFloat 0) 5) in
      or_else (py_any_ne0 (dict_get params "h_fourier_aj" zeros))
        (or_else (py_any_ne0 (dict_get params "h_fourier_bj" zeros))
           (or_else (py_any_ne0 (dict_get params "sig_fourier_aj" zeros))
                    (py_any_ne0 (dict_get params "sig_fourier_bj" zeros))))
  | Warp => Ok (py_truthy (dict_get params "enable_warp" (PBool false)))
  | InnerEdge => Ok (py_truthy (dict_get params "use_inner_edge_shadow" (PBool false)))
  | Damping => Ok (py_truthy (dict_get params "use_radial_damping" (PBool false)))
  end.

(** The token of a feature; the spiral token carries the arm count when one
    greater than 0 is present. *)
Definition feature_token (params : dict) (f : feature) : result string :=
  match f with
  | Spiral =>
      let n_arms := dict_get params "n_arms" (PInt 0) in
      arms <- py_gt0 n_arms ;;
      Ok (if arms : bool then "spiral_" +:+ py_str n_arms +:+ "arms" else "spiral")
  | Vortex => Ok "vortex"
  | Fourier => Ok "fourier"
  | Warp => Ok "warp"
  | InnerEdge => Ok "inner_edge"
  | Damping => Ok "damping"
  end.

(** The tokens of the active features of [fs], in the order of [fs]. *)
Fixpoint active_tokens (params : dict) (fs : list feature) : result (list string) :=
  match fs with
  | [] => Ok []
  | f :: fs' =>
      a <- feature_active params f ;;
      here <- (if a : bool then t <- feature_token params f ;; Ok [t] else Ok []) ;;
      rest <- active_tokens params fs' ;;
      Ok (here ++ rest)%list
  end.

(** The composition rule. *)
Definition compose (tokens : list string) : string :=
  match tokens with
  | [] => "baseline"
  | [t] => t
  | _ => "combined_" +:+ String.concat "_" tokens
  end.

Definition classify_spec (params : dict) : result string :=
  tokens <- active_tokens params features ;; Ok (compose tokens).

(** *** Parameter shapes the classifier is written for *)

Definition is_num (v : pyval) : bool :=
  match v with
  | PBool _ | PInt _ | PFloat _ => true
  | _ => false
  end.

Definition is_num_seq (v : pyval) : bool :=
  match v with
  | PList l | PTuple l => forallb is_num l
  | _ => false
  end.

Definition is_iterable (v : pyval) : bool :=
  match v with
  | PList _ | PTuple _ | PStr _ => true
  | _ => false
  end.

(** Spiral amplitudes and the arm count are numbers; the two vortex
    amplitudes are both sequences of numbers or both numbers; the four
    Fourier coefficient parameters are sequences.  Absent parameters take
    the defaults of the code. *)
Definition well_shaped (params : dict) : bool :=
  is_num (dict_get params "h_spiral_amp" (PInt 0))
  && is_num (dict_get params "sig_spiral_amp" (PInt 0))
  && is_num (dict_get params "n_arms" (PInt 0))
  && (let h := dict_get params "h_vortex_amp" (PList [PFloat 0; PFloat 0]) in
      let s := dict_get params "sig_vortex_amp" (PList [PFloat 0; PFloat 0]) in
      (is_num_seq h && is_num_seq s) || (is_num h && is_num s))
  && is_iterable (dict_get params "h_fourier_aj" (PList (repeat (PFloat 0) 5)))
  && is_iterable (dict_get params "h_fourier_bj" (PList (repeat (PFloat 0) 5)))
  && is_iterable (dict_get params "sig_fourier_aj" (PList (repeat (PFloat 0) 5)))
  && is_iterable (dict_get params "sig_fourier_bj" (PList (repeat (PFloat 0) 5))).

(** The keys [determine_category] reads. *)
Definition consulted_keys : list string :=
  ["h_spiral_amp"; "sig_spiral_amp"; "n_arms"; "h_vortex_amp"; "sig_vortex_amp";
   "h_fourier_aj"; "h_fourier_bj"; "sig_fourier_aj"; "sig_fourier_bj";
   "enable_warp"; "use_inner_edge_shadow"; "use_radial_damping"].

(** *** Lookup lemmas *)

Lemma dict_get_absent (d : dict) (key : string) (default : pyval) :
  key ∉ dict_keys d -> dict_get d key default = default.
Proof.
  induction d as [|[k v] d IH]; simpl; intros Hnot; [reflexivity|].
  apply not_elem_of_cons in Hnot. destruct Hnot as [Hne Hnot].
  destruct (String.eqb_spec k key) as [->|_]; [congruence|now apply IH].
Qed.

Lemma dict_get_present (d : dict) (key : string) (default : pyval) :
  key ∈ dict_keys d -> exists v, (key, v) ∈ d /\ dict_get d key default = v.
Proof.
  induction d as [|[k v] d IH]; simpl; intros Hin; [now apply elem_of_nil in Hin|].
  destruct (String.eqb_spec k key) as [->|Hne].
  - exists v. split; [apply elem_of_cons; now left|reflexivity].
  - apply elem_of_cons in Hin. destruct Hin as [Heq|Hin]; [congruence|].
    destruct (IH Hin) as (w & Hw & Hget). exists w.
    split; [apply elem_of_cons; now right|exact Hget].
Qed.

Lemma dict_get_unique (d : dict) (key : string) (v default : pyval) :
  NoDup (dict_keys d) -> (key, v) ∈ d -> dict_get d key default = v.
Proof.
  induction d as [|[k w] d IH]; simpl; intros Hnd Hin; [now apply elem_of_nil in Hin|].
  apply NoDup_cons in Hnd. destruct Hnd as [Hk Hnd].
  apply elem_of_cons in Hin. destruct Hin as [Heq|Hin].
  - inversion Heq; subst. now rewrite String.eqb_refl.
  - destruct (String.eqb_spec k key) as [->|Hne].
    + exfalso. apply Hk. apply list_elem_of_In.
      change key with (fst (key, v)). apply in_map. now apply list_elem_of_In.
    + now apply IH.
Qed.

(** A dict with unique keys answers every lookup the same whatever order
    its items were inserted in. *)
Lemma dict_get_perm (d d' : dict) (key : string) (default : pyval) :
  NoDup (dict_keys d) -> Permutation d d' ->
  dict_get d' key default = dict_get d key default.
Proof.
  intros Hnd Hperm.
  assert (Hkeys : Permutation (dict_keys d) (dict_keys d'))
    by now apply Permutation_map.
  assert (Hnd' : NoDup (dict_keys d')) by now rewrite <- Hkeys.
  destruct (decide (key ∈ dict_keys d)) as [Hin|Hnot].
  - destruct (dict_get_present d key default Hin) as (v & Hv & ->).
    apply dict_get_unique; [exact Hnd'|]. now rewrite <- Hperm.
  - rewrite (dict_get_absent d) by exact Hnot.
    apply dict_get_absent. now rewrite <- Hkeys.
Qed.

Lemma determine_category_ext (d d' : dict) :
  (forall key default, dict_get d' key default = dict_get d key default) ->
  determine_category d' = determine_category d.
Proof.
  intros H. unfold determine_category. now rewrite !H.
Qed.

(** *** Code against the design document's wording *)

Lemma determine_category_refines (params : dict) :
  determine_category params = classify_spec params.
Proof.
  unfold determine_category, classify_spec, features, append_if.
  cbn [active_tokens feature_active feature_token].
  generalize (or_else (py_gt0 (dict_get params "h_spiral_amp" (PInt 0)))
                (py_gt0 (dict_get params "sig_spiral_amp" (PInt 0)))).
  generalize (py_str (dict_get params "n_arms" (PInt 0))).
  generalize (py_gt0 (dict_get params "n_arms" (PInt 0))).
  generalize (if is_list_or_tuple (dict_get params "h_vortex_amp" (PList [PFloat 0; PFloat 0]))
     then or_else (py_any_gt0 (dict_get params "h_vortex_amp" (PList [PFloat 0; PFloat 0])))
                  (py_any_gt0 (dict_get params "sig_vortex_amp" (PList [PFloat 0; PFloat 0])))
     else or_else (py_gt0 (dict_get params "h_vortex_amp" (PList [PFloat 0; PFloat 0])))
                  (py_gt0 (dict_get params "sig_vortex_amp" (PList [PFloat 0; PFloat 0])))).
  generalize (or_else (py_any_ne0 (dict_get params "h_fourier_aj" (PList (repeat (PFloat 0) 5))))
      (or_else (py_any_ne0 (dict_get params "h_fourier_bj" (PList (repeat (PFloat 0) 5))))
         (or_else (py_any_ne0 (dict_get params "sig_fourier_aj" (PList (repeat (PFloat 0) 5))))
                  (py_any_ne0 (dict_get params "sig_fourier_bj" (PList (repeat (PFloat 0) 5))))))).
  generalize (py_truthy (dict_get params "enable_warp" (PBool false))).
  generalize (py_truthy (dict_get params "use_inner_edge_shadow" (PBool false))).
  generalize (py_truthy (dict_get params "use_radial_damping" (PBool false))).
  intros damping inner warp fourier vortex arms text spiral.
  destruct spiral as [[|]|]; [destruct arms as [[|]|]| |]; try reflexivity;
    (destruct vortex as [[|]|]; [| |reflexivity]);
    (destruct fourier as [[|]|]; [| |reflexivity]);
    destruct warp, inner, damping; reflexivity.
Qed.

(** *** Shapes on which no comparison raises *)

Lemma py_gt0_num (v : pyval) : is_num v = true -> exists b, py_gt0 v = Ok b.
Proof. destruct v; simpl; intros H; try discriminate; eauto. Qed.

Lemma any_gt0_nums (l : list pyval) :
  forallb is_num l = true -> exists b, any_gt0 l = Ok b.
Proof.
  induction l as [|v l IH]; simpl; intros H; [eauto|].
  apply andb_true_iff in H. destruct H as [Hv Hl].
  destruct (py_gt0_num v Hv) as [b ->]. simpl.
  destruct b; [eauto|now apply IH].
Qed.

Lemma py_any_gt0_num_seq (v : pyval) :
  is_num_seq v = true -> exists b, py_any_gt0 v = Ok b.
Proof.
  destruct v; simpl; intros H; try discriminate; now apply any_gt0_nums.
Qed.

Lemma py_any_ne0_iterable (v : pyval) :
  is_iterable v = true -> exists b, py_any_ne0 v = Ok b.
Proof.
  destruct v; simpl; intros H; try discriminate; unfold py_any_ne0; simpl; eauto.
Qed.

Lemma or_else_ok (a b : result bool) :
  (exists x, a = Ok x) -> (exists y, b = Ok y) -> exists z, or_else a b = Ok z.
Proof.
  intros [x ->] [y ->]. unfold or_else. simpl. destruct x; eauto.
Qed.

Lemma num_seq_is_list_or_tuple (v : pyval) :
  is_num_seq v = true -> is_list_or_tuple v = true.
Proof. destruct v; simpl; intros H; try discriminate; reflexivity. Qed.

Lemma num_is_not_list_or_tuple (v : pyval) :
  is_num v = true -> is_list_or_tuple v = false.
Proof. destruct v; simpl; intros H; try discriminate; reflexivity. Qed.

Lemma feature_active_well_shaped (params : dict) (f : feature) :
  well_shaped params = true -> exists b, feature_active params f = Ok b.
Proof.
  unfold well_shaped. rewrite !andb_true_iff.
  intros [[[[[[[Hh Hs] Hn] Hv] Ha] Hb] Hc] Hd].
  destruct f; simpl; eauto.
  - apply or_else_ok; now apply py_gt0_num.
  - apply orb_true_iff in Hv. destruct Hv as [Hv|Hv];
      apply andb_true_iff in Hv; destruct Hv as [H1 H2].
    + rewrite (num_seq_is_list_or_tuple _ H1).
      apply or_else_ok; now apply py_any_gt0_num_seq.
    + rewrite (num_is_not_list_or_tuple _ H1).
      apply or_else_ok; now apply py_gt0_num.
  - repeat apply or_else_ok; now apply py_any_ne0_iterable.
Qed.

Lemma feature_token_well_shaped (params : dict) (f : feature) :
  well_shaped params = true -> exists t, feature_token params f = Ok t.
Proof.
  unfold well_shaped. rewrite !andb_true_iff.
  intros [[[[[[[Hh Hs] Hn] Hv] Ha] Hb] Hc] Hd].
  destruct f; simpl; eauto.
  destruct (py_gt0_num _ Hn) as [b ->]. simpl. eauto.
Qed.

Lemma active_tokens_well_shaped (params : dict) (fs : list feature) :
  well_shaped params = true -> exists ts, active_tokens params fs = Ok ts.
Proof.
  intros Hw. induction fs as [|f fs [ts IH]]; simpl; [eauto|].
  destruct (feature_active_well_shaped params f Hw) as [b ->]. simpl.
  destruct (feature_token_well_shaped params f Hw) as [t ->].
  rewrite IH. destruct b; simpl; eauto.
Qed.

Lemma absent_keys_baseline (params : dict) :
  (forall key, key ∈ consulted_keys -> key ∉ dict_keys params) ->
  determine_category params = Ok "baseline".
Proof.
  intros Habs. unfold determine_category.
  rewrite !dict_get_absent by (apply Habs; unfold consulted_keys; set_solver).
  reflexivity.
Qed.

(** C3 (amended): [determine_category] is the composition rule applied to
    the tokens of the active features, taken in the fixed order spiral,
    vortex, fourier, warp, inner_edge, damping, where the spiral token is
    [spiral_<n_arms>arms] when [n_arms > 0] and [spiral] otherwise; the
    order in which the keys were inserted in the mapping does not matter;
    and with spiral and warp the only active features the category is
    [combined_<spiral token>_warp], which is [combined_spiral_warp] when
    [n_arms > 0] is false. *)
Theorem determine_category_composition (params : dict) :
  determine_category params = classify_spec params
  /\ (forall params',
        NoDup (dict_keys params) -> Permutation params params' ->
        determine_category params' = determine_category params)
  /\ (forall t,
        feature_active params Spiral = Ok true ->
        feature_token params Spiral = Ok t ->
        feature_active params Vortex = Ok false ->
        feature_active params Fourier = Ok false ->
        feature_active params Warp = Ok true ->
        feature_active params InnerEdge = Ok false ->
        feature_active params Damping = Ok false ->
        determine_category params = Ok ("combined_" +:+ t +:+ "_warp"))
  /\ (py_gt0 (dict_get params "n_arms" (PInt 0)) = Ok false ->
      feature_token params Spiral = Ok "spiral").
Proof.
  split; [apply determine_category_refines|].
  split; [|split].
  - intros params' Hnd Hperm. apply determine_category_ext.
    intros key default. now apply dict_get_perm.
  - intros t Hs Ht Hv Hf Hw Hi Hd.
    rewrite determine_category_refines. unfold classify_spec, features.
    cbn [active_tokens]. rewrite Hs, Ht, Hv, Hf, Hw, Hi, Hd. reflexivity.
  - intros Harms. unfold feature_token. now rewrite Harms.
Qed.

(** C4 (amended): on a mapping whose present parameters have the shapes the
    classifier is written for, [determine_category] returns a category and
    does not raise; and when none of the keys it reads is present it
    returns [baseline]. *)
Theorem determine_category_total_well_shaped (params : dict) :
  well_shaped params = true ->
  (exists c, determine_category params = Ok c)
  /\ ((forall key, key ∈ consulted_keys -> key ∉ dict_keys params) ->
      determine_category params = Ok "baseline").
Proof.
  intros Hw. split; [|apply absent_keys_baseline].
  rewrite determine_category_refines. unfold classify_spec.
  destruct (active_tokens_well_shaped params features Hw) as [ts ->].
  simpl. eauto.
Qed.

End Classifier.

(** *** Closed examples *)

Section Examples.

#[local] Existing Instance example_runtime.

(** Example 2 of the batch grid with the warp switched on. *)
Definition spiral_2arms_warp : dict :=
  [("h_spiral_amp", PFloat 0.5); ("sig_spiral_amp", PFloat 0.25);
   ("n_arms", PInt 2); ("enable_warp", PBool true)].

(** C3, as stated, fails: with spiral and warp the only active features and
    an arm count of 2 the category is [combined_spiral_2arms_warp], not
    [combined_spiral_warp]. *)
Lemma spiral_warp_with_arm_count_counterexample :
  feature_active spiral_2arms_warp Spiral = Ok true
  /\ feature_active spiral_2arms_warp Warp = Ok true
  /\ feature_active spiral_2arms_warp Vortex = Ok false
  /\ feature_active spiral_2arms_warp Fourier = Ok false
  /\ feature_active spiral_2arms_warp InnerEdge = Ok false
  /\ feature_active spiral_2arms_warp Damping = Ok false
  /\ determine_category spiral_2arms_warp
     = Ok "combined_spiral_2arms_warp"
  /\ determine_category spiral_2arms_warp
     <> Ok "combined_spiral_warp".
Proof.
  repeat split; try reflexivity. vm_compute. discriminate.
Qed.

(** Example 4 of the batch grid. *)
Definition vortex_example : dict :=
  [("name_suffix", PStr "vortex"); ("mdisk", PStr "0.01*ms");
   ("hrdisk", PFloat 0.125);
   ("sig_vortex_amp", PList [PFloat 0.5; PFloat 0.5]);
   ("h_vortex_amp", PList [PFloat 0.25; PFloat 0.25])].

Lemma determine_category_total_witness :
  well_shaped vortex_example = true
  /\ (exists c, determine_category vortex_example = Ok c).
Proof.
  split; [reflexivity|].
  apply (determine_category_total_well_shaped vortex_example).
  reflexivity.
Defined.

(** C4, as stated, fails: a scalar surface-density vortex amplitude next to
    an absent (hence list-valued) height amplitude, a scalar Fourier
    coefficient and a vector spiral amplitude each raise TypeError. *)
Lemma determine_category_raises_counterexample :
  determine_category [("sig_vortex_amp", PFloat 0.5)] = Raise TypeError
  /\ determine_category [("h_fourier_aj", PFloat 0.5)] = Raise TypeError
  /\ determine_category [("h_spiral_amp", PList [PFloat 0.5])]
     = Raise TypeError.
Proof. repeat split. Qed.

End Examples.

End Naming.

(** ** Text: stripping, bracket escaping and the photon pattern

    Strings are byte strings; whitespace and digits are the ASCII ones (the
    solver writes ASCII). *)

Module Text.

Local Open Scope char_scope.

(** [str.isspace] and the pattern class [\s] on ASCII: tab to carriage
    return, the four separators 0x1c-0x1f, and the space. *)
Definition is_space (c : ascii) : bool :=
  let n := nat_of_ascii c in
  ((9 <=? n) && (n <=? 13) || (28 <=? n) && (n <=? 32))%nat.

(** The pattern class [\d] on ASCII. *)
Definition is_digit (c : ascii) : bool :=
  let n := nat_of_ascii c in ((48 <=? n) && (n <=? 57))%nat.

Fixpoint skip_spaces (s : list ascii) : list ascii :=
  match s with
  | c :: s' => if is_space c then skip_spaces s' else s
  | [] => []
  end.

(** [s.strip()]. *)
Definition strip (s : string) : string :=
  string_of_list_ascii
    (rev (skip_spaces (rev (skip_spaces (list_ascii_of_string s))))).

(** [c in s] for a one-character [c]. *)
Fixpoint contains (c : ascii) (s : string) : bool :=
  match s with
  | EmptyString => false
  | String d s' => Ascii.eqb c d || contains c s'
  end.

(** [s.replace("[", "\\[")]. *)
Fixpoint escape_brackets (s : string) : string :=
  match s with
  | EmptyString => EmptyString
  | String c s' =>
      if Ascii.eqb c "["
      then String "\" (String "[" (escape_brackets s'))
      else String c (escape_brackets s')
  end.


(** *** [re.compile(r"Photon\s+nr[:.]?\s+(\d+)", re.IGNORECASE)] *)

Definition lower (c : ascii) : ascii :=
  let n := nat_of_ascii c in
  if ((65 <=? n) && (n <=? 90))%nat then ascii_of_nat (n + 32) else c.

(** A literal of the pattern, letters compared without case; the rest of
    the subject after it. *)
Fixpoint literal (lit : string) (s : list ascii) : option (list ascii) :=
  match lit with
  | EmptyString => Some s
  | String l lit' =>
      match s with
      | c :: s' => if Ascii.eqb (lower c) (lower l) then literal lit' s' else None
      | [] => None
      end
  end.

(** [\s+]: greedy; the pattern's next item never matches a space, so giving
    spaces back cannot help. *)
Definition spaces1 (s : list ascii) : option (list ascii) :=
  match s with
  | c :: s' => if is_space c then Some (skip_spaces s') else None
  | [] => None
  end.

(** [[:.]?]: taken when present; the item after it cannot match a colon or
    a period. *)
Definition optional_separator (s : list ascii) : list ascii :=
  match s with
  | c :: s' => if Ascii.eqb c ":" || Ascii.eqb c "." then s' else s
  | [] => []
  end.

(** [\d+] at the end of the pattern: the longest run of digits. *)
Fixpoint digits (s : list ascii) : list ascii :=
  match s with
  | c :: s' => if is_digit c then c :: digits s' else []
  | [] => []
  end.

(** The pattern anchored at the start of [s]: group 1 when it matches. *)
Definition match_here (s : list ascii) : option (list ascii) :=
  match literal "Photon" s with
  | None => None
  | Some s1 =>
      match spaces1 s1 with
      | None => None
      | Some s2 =>
          match literal "nr" s2 with
          | None => None
          | Some s3 =>
              match spaces1 (optional_separator s3) with
              | None => None
              | Some s4 =>
                  match digits s4 with
                  | [] => None
                  | group => Some group
                  end
              end
          end
      end
  end.

(** [pattern.search]: the leftmost position where the pattern matches. *)
Fixpoint search (s : list ascii) : option (list ascii) :=
  match match_here s with
  | Some group => Some group
  | None =>
      match s with
      | [] => None
      | _ :: s' => search s'
      end
  end.

(** The value of a run of ASCII digits. *)
Definition int_of_digits (ds : list ascii) : Z :=
  fold_left (fun acc c => 10 * acc + (Z.of_nat (nat_of_ascii c) - 48)) ds 0.

(** [int(group)]: ValueError when the run is longer than the interpreter
    converts. *)
Definition py_int_digits `{RT : PyRuntime} (ds : list ascii) : result Z :=
  if ((0 <? int_max_str_digits) && (int_max_str_digits <? length ds))%nat
  then Raise ValueError
  else Ok (int_of_digits ds).

(** [photon_pattern.search(line)]: group 1 of the leftmost match. *)
Definition photon_match (line : string) : option (list ascii) :=
  search (list_ascii_of_string line).

End Text.

(** ** terminal_ui.py: the progress tracker *)

Module TerminalUI.

Import Text.

(** *** rich's [Progress], as far as the tracker drives it

    A task carries a description, a total ([None] while indeterminate), a
    completed count and a visibility flag. *)
Record task : Type := {
  description : string;
  total : option Z;
  completed : Z;
  visible : bool
}.

(** [Progress.update(task, total=, completed=, description=, visible=)]:
    an argument left at [None] leaves its field alone. *)
Definition progress_update (t : task)
    (new_total new_completed : option Z) (new_description : option string)
    (new_visible : option bool) : task :=
  {| total := match new_total with Some n => Some n | None => total t end;
     completed := default (completed t) new_completed;
     description := default (description t) new_description;
     visible := default (visible t) new_visible |}.

(** [Progress.reset(task)]: the completed count returns to 0. *)
Definition progress_reset (t : task) : task :=
  {| total := total t; completed := 0;
     description := description t; visible := visible t |}.

(** [Progress.add_task(description, total=, visible=)]. *)
Definition add_task (d : string) (n : option Z) (v : bool) : task :=
  {| description := d; total := n; completed := 0; visible := v |}.

(** *** [AdvancedPhaseTracker] *)

Record AdvancedPhaseTracker : Type := {
  phases : list string;
  estimated_times : dict;
  current_phase_idx : Z;
  start_time : float;
  phase_start_time : option float;
  phase_times : gmap string float;
  overall_task : task;
  phase_task : task;
  live : bool
}.

(** The tracker and the console it prints on. *)
Definition ui : Type := AdvancedPhaseTracker * list output.

Definition console_print (text : string) : M ui unit :=
  modifyM (fun '(t, out) => (t, (out ++ [Console text])%list)).

Definition set_current_phase_idx (i : Z) (t : AdvancedPhaseTracker) :=
  {| phases := phases t; estimated_times := estimated_times t;
     current_phase_idx := i; start_time := start_time t;
     phase_start_time := phase_start_time t; phase_times := phase_times t;
     overall_task := overall_task t; phase_task := phase_task t; live := live t |}.

Definition set_phase_start_time (x : option float) (t : AdvancedPhaseTracker) :=
  {| phases := phases t; estimated_times := estimated_times t;
     current_phase_idx := current_phase_idx t; start_time := start_time t;
     phase_start_time := x; phase_times := phase_times t;
     overall_task := overall_task t; phase_task := phase_task t; live := live t |}.

Definition set_phase_times (m : gmap string float) (t : AdvancedPhaseTracker) :=
  {| phases := phases t; estimated_times := estimated_times t;
     current_phase_idx := current_phase_idx t; start_time := start_time t;
     phase_start_time := phase_start_time t; phase_times := m;
     overall_task := overall_task t; phase_task := phase_task t; live := live t |}.

Definition set_overall_task (x : task) (t : AdvancedPhaseTracker) :=
  {| phases := phases t; estimated_times := estimated_times t;
     current_phase_idx := current_phase_idx t; start_time := start_time t;
     phase_start_time := phase_start_time t; phase_times := phase_times t;
     overall_task := x; phase_task := phase_task t; live := live t |}.

Definition set_phase_task (x : task) (t : AdvancedPhaseTracker) :=
  {| phases := phases t; estimated_times := estimated_times t;
     current_phase_idx := current_phase_idx t; start_time := start_time t;
     phase_start_time := phase_start_time t; phase_times := phase_times t;
     overall_task := overall_task t; phase_task := x; live := live t |}.

Definition set_live (b : bool) (t : AdvancedPhaseTracker) :=
  {| phases := phases t; estimated_times := estimated_times t;
     current_phase_idx := current_phase_idx t; start_time := start_time t;
     phase_start_time := phase_start_time t; phase_times := phase_times t;
     overall_task := overall_task t; phase_task := phase_task t; live := b |}.

Definition on_tracker (f : AdvancedPhaseTracker -> AdvancedPhaseTracker) : M ui unit :=
  modifyM (fun '(t, out) => (f t, out)).

(** [phases.index(name)]: the first position of [name], ValueError when it
    is absent. *)
Fixpoint index (l : list string) (name : string) : result Z :=
  match l with
  | [] => Raise ValueError
  | x :: l' => if String.eqb x name then Ok 0 else i <- index l' name ;; Ok (i + 1)
  end.

(** Truth value of a clock reading held in an attribute that starts as
    [None]. *)
Definition time_truthy (x : option float) : bool :=
  match x with
  | None => false
  | Some f => negb (PrimFloat.eqb f 0%float)
  end.

Section Methods.

Context `{RT : PyRuntime}.

(** [__init__(phases, estimated_times)] at clock reading [now];
    [estimated_times or {}]. *)
Definition init (phase_names : list string) (estimates : option dict) (now : float)
  : AdvancedPhaseTracker :=
  {| phases := phase_names;
     estimated_times := default [] estimates;
     current_phase_idx := -1;
     start_time := now;
     phase_start_time := None;
     phase_times := ∅;
     overall_task := add_task "Total" (Some (Z.of_nat (length phase_names))) true;
     phase_task := add_task "Waiting..." None false;
     live := false |}.

Definition start : M ui unit := on_tracker (set_live true).

Definition stop : M ui unit := on_tracker (set_live false).

Definition log (message : string) : M ui unit :=
  (* Escape square brackets if they appear without closing brackets *)
  let message :=
    if contains "[" message && negb (contains "]" message)
    then escape_brackets message
    else message in
  console_print ("  " +:+ message).

Definition set_phase_total (total_steps : Z) : M ui unit :=
  on_tracker (fun t =>
    set_phase_task (progress_update (phase_task t) (Some total_steps) (Some 0) None None) t).

Definition update_progress (step : Z) : M ui unit :=
  on_tracker (fun t =>
    set_phase_task (progress_update (phase_task t) None (Some step) None None) t).

Definition start_phase (phase_name : string) (now : float) : M ui unit :=
  names <~ getsM (fun '(t, _) => phases t) ;;
  idx <~ liftM (index names phase_name) ;;
  on_tracker (set_current_phase_idx idx) ;;;
  on_tracker (set_phase_start_time (Some now)) ;;;
  on_tracker (fun t =>
    set_overall_task (progress_update (overall_task t) None (Some idx) None None) t) ;;;
  estimated <~ getsM (fun '(t, _) => dict_get (estimated_times t) phase_name PNone) ;;
  let desc := "[yellow]" +:+ phase_name +:+ "[/yellow]" in
  let desc :=
    if py_truthy estimated then desc +:+ " (~" +:+ py_str estimated +:+ " min)" else desc in
  (* Reset task to "indeterminate" (spinner) until set_phase_total is called *)
  on_tracker (fun t => set_phase_task (progress_reset (phase_task t)) t) ;;;
  on_tracker (fun t =>
    set_phase_task (progress_update (phase_task t) None None (Some desc) (Some true)) t) ;;;
  log ("[bold bright_green]→[/bold bright_green] Starting: [bold bright_green]"
       +:+ phase_name +:+ "[/bold bright_green]").

Definition complete_phase (phase_name : string) (now : float) : M ui unit :=
  started <~ getsM (fun '(t, _) => phase_start_time t) ;;
  (if time_truthy started then
     let duration := PrimFloat.sub now (default 0%float started) in
     on_tracker (fun t => set_phase_times (<[phase_name := duration]> (phase_times t)) t) ;;;
     seconds <~ liftM (int_of_float duration) ;;
     let duration_str := pretty seconds +:+ "s" in
     log ("[bold bright_green]✓[/bold bright_green] Done: [bold]" +:+ phase_name
          +:+ "[/bold] [bright_green](" +:+ duration_str +:+ ")[/bright_green]")
   else retM tt) ;;;
  on_tracker (fun t =>
    set_overall_task
      (progress_update (overall_task t) None (Some (current_phase_idx t + 1)) None None) t) ;;;
  on_tracker (fun t =>
    set_phase_task (progress_update (phase_task t) None (Some 100) None None) t).

(** One row per phase: its duration to one decimal, or "skipped". *)
Definition summary_row (times : gmap string float) (phase : string) : string * string :=
  match times !! phase with
  | Some d => (phase, fixed_float 1 d +:+ "s")
  | None => (phase, "skipped")
  end.

Definition print_summary : M ui unit :=
  modifyM (fun '(t, out) =>
    (t, (out ++ [Console (String (ascii_of_nat 10) "[bold]Summary:[/bold]");
                 ConsoleTable (map (summary_row (phase_times t)) (phases t))])%list)).

(** *** Properties of [log] *)




(** *** Properties of [complete_phase] *)

(** What [complete_phase] does after a phase was started at a clock reading
    other than 0: the duration is recorded under the name, the overall
    counter becomes the current index plus one, and the completed count of
    the phase task becomes 100 whatever its total is. *)
Lemma complete_phase_effect
    (phase_name : string) (now began : float) (seconds : Z)
    (t : AdvancedPhaseTracker) (out : list output) :
  phase_start_time t = Some began ->
  PrimFloat.eqb began 0%float = false ->
  int_of_float (PrimFloat.sub now began) = Ok seconds ->
  exists t' line,
    complete_phase phase_name now (t, out) = (Ok tt, (t', (out ++ [Console line])%list))
    /\ phase_times t' !! phase_name = Some (PrimFloat.sub now began)
    /\ completed (overall_task t') = current_phase_idx t + 1
    /\ completed (phase_task t') = 100
    /\ total (phase_task t') = total (phase_task t).
Proof.
  intros Hstart Hnz Hint.
  unfold complete_phase, bindM, getsM, on_tracker, modifyM, liftM, time_truthy.
  rewrite Hstart, Hnz. simpl. rewrite Hint. unfold log, console_print, modifyM.
  eexists _, _. split; [reflexivity|]. simpl.
  split; [apply lookup_insert_eq|]. auto.
Qed.

End Methods.

(** *** Closed examples *)

Section Examples.

#[local] Existing Instance example_runtime.

(** The tracker of a run without images, created at clock reading 1000. *)
Definition fresh_tracker : AdvancedPhaseTracker :=
  init ["Setup"; "Configure Model"; "MC Thermal"; "SED Calculation"; "Save Files"]
       (Some [("MC Thermal", PNone); ("SED Calculation", PNone); ("Generate Image", PNone)])
       1000%float.


(** The thermal phase of a run with a million photons: started at 1060, the
    total set, the last photon reported, completed at 1120. *)
Definition thermal_phase : M ui unit :=
  start ;;;
  start_phase "MC Thermal" 1060%float ;;;
  set_phase_total 1000000 ;;;
  update_progress 1000000 ;;;
  complete_phase "MC Thermal" 1120%float.

(** C9 at a failing input: after [complete_phase] the elapsed time is
    recorded and the overall counter is the phase's index plus one, but the
    completed count of the phase is 100 while its total is 1000000. *)
Lemma complete_phase_sets_100_of_1000000 :
  let '(r, (t, _)) := thermal_phase (fresh_tracker, []) in
  r = Ok tt
  /\ phase_times t !! "MC Thermal" = Some 60%float
  /\ index (phases t) "MC Thermal" = Ok 2
  /\ completed (overall_task t) = 3
  /\ total (phase_task t) = Some 1000000
  /\ completed (phase_task t) = 100
  /\ Some (completed (phase_task t)) <> total (phase_task t).
Proof.
  vm_compute. repeat split; discriminate.
Qed.

End Examples.

End TerminalUI.

(** ** single_run.py *)

Module SingleRun.

Import Text.

Definition newline : string := String (ascii_of_nat 10) EmptyString.

(** *** [RawTracker]

    The object has no attributes; its methods run on the terminal alone. *)
Inductive RawTracker : Type := RawTrackerObject.

Definition raw_ui : Type := RawTracker * list output.

(** [print(text)]. *)
Definition print {T : Type} (text : string) : M (T * list output) unit :=
  modifyM (fun '(t, out) => (t, (out ++ [Stdout text])%list)).

Module Raw.

Definition start : M raw_ui unit := retM tt.

Definition stop : M raw_ui unit := retM tt.

Definition start_phase (name : string) : M raw_ui unit :=
  print (newline +:+ ">>> Starting Phase: " +:+ name).

Definition complete_phase (name : string) : M raw_ui unit :=
  print (">>> Completed Phase: " +:+ name +:+ newline).

Definition log (msg : string) : M raw_ui unit := retM tt.

Definition set_phase_total (n : Z) : M raw_ui unit := retM tt.

Definition update_progress (n : Z) : M raw_ui unit := retM tt.

Definition print_summary : M raw_ui unit := retM tt.

End Raw.

(** The bytes a [print] call writes: its text and a line end. *)
Definition written (o : output) : string :=
  match o with
  | Stdout text => text +:+ newline
  | Console text => text +:+ newline
  | ConsoleTable _ => EmptyString
  end.

(** The first line of [s] and the lines after it. *)
Fixpoint split_lines (s : string) : string * list string :=
  match s with
  | EmptyString => (EmptyString, [])
  | String c s' =>
      let (line, rest) := split_lines s' in
      if Ascii.eqb c (ascii_of_nat 10) then (EmptyString, line :: rest)
      else (String c line, rest)
  end.

Definition lines (s : string) : list string :=
  let (line, rest) := split_lines s in line :: rest.

Definition nonblank (s : string) : bool := negb (String.eqb s "").

(** *** Descriptor table and [suppress_output] *)

(** Open descriptors and what each one refers to. *)
Abbreviation fd_table := (gmap nat string).

Fixpoint lowest_free_from (fds : fd_table) (fuel n : nat) : nat :=
  match fuel with
  | O => n
  | S fuel' =>
      match fds !! n with
      | None => n
      | Some _ => lowest_free_from fds fuel' (S n)
      end
  end.

(** The lowest descriptor number that is not open, which is what [open]
    and [os.dup] return. *)
Definition lowest_free (fds : fd_table) : nat :=
  lowest_free_from fds (size fds) 0.

(** [open(path, "w").fileno()]. *)
Definition sys_open (path : string) : M fd_table nat :=
  fun fds => let fd := lowest_free fds in (Ok fd, <[fd := path]> fds).

(** [os.dup(fd)]: EBADF when [fd] is not open. *)
Definition sys_dup (fd : nat) : M fd_table nat :=
  fun fds =>
    match fds !! fd with
    | None => (Raise (OSError "Bad file descriptor"), fds)
    | Some target => let new := lowest_free fds in (Ok new, <[new := target]> fds)
    end.

(** [os.dup2(fd, fd2)]. *)
Definition sys_dup2 (fd fd2 : nat) : M fd_table unit :=
  fun fds =>
    match fds !! fd with
    | None => (Raise (OSError "Bad file descriptor"), fds)
    | Some target => (Ok tt, <[fd2 := target]> fds)
    end.

(** [os.close(fd)]. *)
Definition sys_close (fd : nat) : M fd_table unit :=
  fun fds =>
    match fds !! fd with
    | None => (Raise (OSError "Bad file descriptor"), fds)
    | Some _ => (Ok tt, delete fd fds)
    end.

(** *** The process and its surroundings *)

Import TerminalUI.

(** The tracker bound to a run: one of the two classes. *)
Inductive tracker : Type :=
| Raw (t : RawTracker)
| Advanced (t : AdvancedPhaseTracker).

(** [isinstance(tracker, RawTracker)]. *)
Definition is_raw (t : tracker) : bool :=
  match t with
  | Raw _ => true
  | Advanced _ => false
  end.

(** The eight operations of the tracker interface, as calls. *)
Inductive tracker_call : Type :=
| CStart
| CStop
| CStartPhase (name : string)
| CCompletePhase (name : string)
| CLog (message : string)
| CSetPhaseTotal (n : Z)
| CUpdateProgress (n : Z)
| CPrintSummary.

(** Calls into radmc3dPy, the file system, matplotlib and the logbook. *)
Inductive lib_call : Type :=
| WriteDefaultParfile (model : string)
| ProblemSetupDust (model : string) (kwargs : dict)
| OpenAppend (path : string)
| WriteText (path text : string)
| ReadImage
| WriteFits (fname : string) (dpc : pyval)
| Move (src dst : string)
| ImportPyplot
| Figure
| AddSubplot
| PlotImage
| SaveFig (fname : string)
| CloseFigure
| ReadSpectrum (fname : string)
| Copy (src dst : string)
| ReadStars
| ReadGrid
| GetSize (path : string)
| LogSimulation (name timestamp status : string).

(** Descriptor-level system calls. *)
Inductive sys_call : Type :=
| SysOpen (path : string)
| SysDup (fd : nat)
| SysDup2 (fd fd2 : nat)
| SysClose (fd : nat).

Inductive level : Type := INFO | ERROR.

(** What a run does that can be observed from outside, in order. *)
Inductive event : Type :=
| TrackerCall (c : tracker_call)
| Logged (lvl : level) (message : string)
| Spawned (argv : list string) (captured : bool)
| Exited (command : string) (code : Z)
| Library (c : lib_call)
| System (c : sys_call).

(** A finished solver process: the lines it wrote, each as [readline]
    returns it, and its exit status. *)
Record process : Type := {
  proc_lines : list string;
  proc_code : Z
}.

(** The answers of the surroundings. *)
Record host : Type := {
  (** The n-th reading of [time.time()]. *)
  clock : nat -> float;
  (** [time.strftime("%Y-%m-%d %H:%M:%S")] at the n-th reading. *)
  strftime : nat -> string;
  (** [os.getcwd()]. *)
  getcwd : string;
  (** [shlex.split]; [None] on an unclosed quotation. *)
  shlex_split : string -> option (list string);
  (** [shutil.which]. *)
  which : string -> option string;
  (** The solver run on an argument list. *)
  solver : list string -> process;
  (** How a library call ends: normally, or with an exception. *)
  library : lib_call -> option exn;
  (** [os.path.exists]. *)
  path_exists : string -> bool;
  (** [os.path.getsize]. *)
  getsize : string -> float
}.

Record world : Type := {
  w_tracker : tracker;
  w_out : list output;
  w_fds : fd_table;
  w_ticks : nat;
  w_trace : list event
}.

Definition set_tracker (t : tracker) (w : world) : world :=
  {| w_tracker := t; w_out := w_out w; w_fds := w_fds w;
     w_ticks := w_ticks w; w_trace := w_trace w |}.

Definition set_out (o : list output) (w : world) : world :=
  {| w_tracker := w_tracker w; w_out := o; w_fds := w_fds w;
     w_ticks := w_ticks w; w_trace := w_trace w |}.

Definition set_fds (f : fd_table) (w : world) : world :=
  {| w_tracker := w_tracker w; w_out := w_out w; w_fds := f;
     w_ticks := w_ticks w; w_trace := w_trace w |}.

Definition set_ticks (n : nat) (w : world) : world :=
  {| w_tracker := w_tracker w; w_out := w_out w; w_fds := w_fds w;
     w_ticks := n; w_trace := w_trace w |}.

Definition set_trace (l : list event) (w : world) : world :=
  {| w_tracker := w_tracker w; w_out := w_out w; w_fds := w_fds w;
     w_ticks := w_ticks w; w_trace := l |}.

Definition record (e : event) : M world unit :=
  modifyM (fun w => set_trace (w_trace w ++ [e])%list w).



Section Run.

Context `{RT : PyRuntime}.
Variable h : host.

(** [time.time()]. *)
Definition time_time : M world float :=
  fun w => (Ok (clock h (w_ticks w)), set_ticks (S (w_ticks w)) w).

(** [time.strftime(...)]. *)
Definition time_strftime : M world string :=
  fun w => (Ok (strftime h (w_ticks w)), set_ticks (S (w_ticks w)) w).

Definition logging_info (message : string) : M world unit :=
  record (Logged INFO message).

Definition logging_error (message : string) : M world unit :=
  record (Logged ERROR message).

(** A library call: it is made, and ends as the host says. *)
Definition call (c : lib_call) : M world unit :=
  record (Library c) ;;;
  match library h c with
  | None => retM tt
  | Some e => raiseM e
  end.

(** A system call on the descriptor table. *)
Definition on_fds {A : Type} (c : sys_call) (m : M fd_table A) : M world A :=
  record (System c) ;;;
  fun w => let (r, fds) := m (w_fds w) in (r, set_fds fds w).

(** A method of the bound tracker, run on the tracker and the terminal. *)
Definition run_raw (m : M raw_ui unit) (t : RawTracker) : M world unit :=
  fun w =>
    let '(r, (t', out)) := m (t, w_out w) in
    (r, set_out out (set_tracker (Raw t') w)).

Definition run_advanced (m : M ui unit) (t : AdvancedPhaseTracker) : M world unit :=
  fun w =>
    let '(r, (t', out)) := m (t, w_out w) in
    (r, set_out out (set_tracker (Advanced t') w)).

(** [tracker.<operation>(...)]: dispatch on the class of the bound object.
    The progress tracker reads the clock when a phase starts and when a
    started phase completes. *)
Definition tracker_do (c : tracker_call) : M world unit :=
  record (TrackerCall c) ;;;
  t <~ getsM w_tracker ;;
  match t with
  | Raw t =>
      run_raw
        match c with
        | CStart => Raw.start
        | CStop => Raw.stop
        | CStartPhase name => Raw.start_phase name
        | CCompletePhase name => Raw.complete_phase name
        | CLog message => Raw.log message
        | CSetPhaseTotal n => Raw.set_phase_total n
        | CUpdateProgress n => Raw.update_progress n
        | CPrintSummary => Raw.print_summary
        end t
  | Advanced t =>
      match c with
      | CStart => run_advanced TerminalUI.start t
      | CStop => run_advanced TerminalUI.stop t
      | CStartPhase name =>
          match index (phases t) name with
          | Ok _ => now <~ time_time ;; run_advanced (TerminalUI.start_phase name now) t
          | Raise _ => run_advanced (TerminalUI.start_phase name 0%float) t
          end
      | CCompletePhase name =>
          if time_truthy (phase_start_time t)
          then now <~ time_time ;; run_advanced (TerminalUI.complete_phase name now) t
          else run_advanced (TerminalUI.complete_phase name 0%float) t
      | CLog message => run_advanced (TerminalUI.log message) t
      | CSetPhaseTotal n => run_advanced (TerminalUI.set_phase_total n) t
      | CUpdateProgress n => run_advanced (TerminalUI.update_progress n) t
      | CPrintSummary => run_advanced TerminalUI.print_summary t
      end
  end.

(** [terminal_ui.print_error]. *)
Definition print_error (message : string) : M world unit :=
  modifyM (fun w => set_out (w_out w ++ [Console ("[red]✗[/red] " +:+ message)])%list w).

Definition print_stdout (text : string) : M world unit :=
  modifyM (fun w => set_out (w_out w ++ [Stdout text])%list w).

(** *** [suppress_output] *)

Definition suppress_output {A : Type} (body : M world A) : M world A :=
  (* with open(os.devnull, "w") as devnull: *)
  devnull <~ on_fds (SysOpen "/dev/null") (sys_open "/dev/null") ;;
  try_finally
    (old_stdout <~ on_fds (SysDup 1) (sys_dup 1) ;;
     old_stderr <~ on_fds (SysDup 2) (sys_dup 2) ;;
     try_finally
       (on_fds (SysDup2 devnull 1) (sys_dup2 devnull 1) ;;;
        on_fds (SysDup2 devnull 2) (sys_dup2 devnull 2) ;;;
        body)
       (on_fds (SysDup2 old_stdout 1) (sys_dup2 old_stdout 1) ;;;
        on_fds (SysDup2 old_stderr 2) (sys_dup2 old_stderr 2) ;;;
        on_fds (SysClose old_stdout) (sys_close old_stdout) ;;;
        on_fds (SysClose old_stderr) (sys_close old_stderr)))
    (on_fds (SysClose devnull) (sys_close devnull)).

(** *** [run_radmc_command] *)

Definition log_command (command_str : string) : M world unit :=
  logging_info ("[CMD] " +:+ command_str) ;;;
  logging_info ("[CWD] " +:+ getcwd h).

(** The duration of a command, as the log shows it. *)
Definition duration_text (cmd_duration : float) : string :=
  if PrimFloat.ltb cmd_duration 60%float
  then fixed_float 2 cmd_duration +:+ "s"
  else fixed_float 2 (PrimFloat.div cmd_duration 60%float) +:+ "min".

Definition log_completion (cmd_start_time : float) (return_code : Z) : M world unit :=
  now <~ time_time ;;
  let cmd_duration := PrimFloat.sub now cmd_start_time in
  logging_info ("[RETURN_CODE] " +:+ pretty return_code) ;;;
  logging_info ("[CMD_DURATION] " +:+ duration_text cmd_duration).

(** [not shutil.which(name)]. *)
Definition not_found (name : string) : bool :=
  match which h name with
  | None => true
  | Some path => String.eqb path ""
  end.

(** The body of the reading loop for one line of the solver. *)
Definition handle_line (total_photons : pyval) (line : string) : M world unit :=
  let clean_line := strip line in
  (* Only process non-empty lines *)
  if nonblank clean_line then
    tracker_do (CLog ("[dim]" +:+ clean_line +:+ "[/dim]")) ;;;
    (* If we're tracking photons, try to parse the current photon number *)
    if py_truthy total_photons then
      match photon_match clean_line with
      | Some group =>
          match py_int_digits group with
          | Ok current_photon => tracker_do (CUpdateProgress current_photon)
          | Raise ValueError => retM tt
          | Raise e => raiseM e
          end
      | None => retM tt
      end
    else retM tt
  else retM tt.

(** [for line in iter(process.stdout.readline, '')]: the loop ends at the
    first empty read. *)
Fixpoint read_lines (total_photons : pyval) (ls : list string) : M world unit :=
  match ls with
  | [] => retM tt
  | line :: ls' =>
      if String.eqb line "" then retM tt
      else handle_line total_photons line ;;; read_lines total_photons ls'
  end.

Definition run_radmc_command (command_str : string) (total_photons : pyval)
  : M world unit :=
  (* Log the command that will be executed *)
  log_command command_str ;;;
  cmd_start_time <~ time_time ;;
  (* Parse command string into argument list *)
  cmd_args <~ liftM (match shlex_split h command_str with
                     | Some args => Ok args
                     | None => Raise ValueError
                     end) ;;
  name <~ liftM (match cmd_args with x :: _ => Ok x | [] => Raise IndexError end) ;;
  (* Verify RADMC-3D executable exists in system PATH *)
  if not_found name then
    print_stdout ("Error: Command '" +:+ name +:+ "' not found!") ;;;
    logging_error ("Command not found: " +:+ name) ;;;
    raiseM (FileNotFoundError ("Command not found: " +:+ name))
  else
    t <~ getsM w_tracker ;;
    if is_raw t then
      (* RAW MODE: subprocess.call(cmd_args) *)
      record (Spawned cmd_args false) ;;;
      let return_code := proc_code (solver h cmd_args) in
      record (Exited command_str return_code) ;;;
      log_completion cmd_start_time return_code ;;;
      if negb (return_code =? 0) then
        logging_error ("Command failed with return code " +:+ pretty return_code
                       +:+ ": " +:+ command_str) ;;;
        raiseM (RuntimeError ("Command failed: " +:+ command_str))
      else retM tt
    else
      (* ADVANCED MODE *)
      (if py_truthy total_photons then
         try_except
           (safe_total <~ liftM (f <- py_float total_photons ;; int_of_float f) ;;
            tracker_do (CSetPhaseTotal safe_total))
           (fun e =>
              match e with
              | ValueError =>
                  tracker_do (CLog ("[yellow]Warning: Could not parse total_photons '"
                                    +:+ py_str total_photons +:+ "'.[/yellow]"))
              | _ => raiseM e
              end)
       else retM tt) ;;;
      (* subprocess.Popen(cmd_args, stdout=PIPE, stderr=STDOUT, text=True, bufsize=1) *)
      record (Spawned cmd_args true) ;;;
      read_lines total_photons (proc_lines (solver h cmd_args)) ;;;
      (* return_code = process.wait() *)
      let return_code := proc_code (solver h cmd_args) in
      record (Exited command_str return_code) ;;;
      log_completion cmd_start_time return_code ;;;
      if negb (return_code =? 0) then
        tracker_do (CLog ("[red bold]Process failed with code " +:+ pretty return_code
                          +:+ "[/red bold]")) ;;;
        logging_error ("Command failed with return code " +:+ pretty return_code
                       +:+ ": " +:+ command_str) ;;;
        raiseM (RuntimeError ("Command failed: " +:+ command_str))
      else retM tt.

(** *** Logging helpers *)

Fixpoint rule (c : ascii) (n : nat) : string :=
  match n with
  | O => EmptyString
  | S n' => String c (rule c n')
  end.

Definition log_phase_start (phase_name : string) : M world float :=
  timestamp <~ time_strftime ;;
  logging_info (rule "=" 70) ;;;
  logging_info ("[PHASE_START] " +:+ phase_name) ;;;
  logging_info ("[TIMESTAMP] " +:+ timestamp) ;;;
  logging_info (rule "=" 70) ;;;
  time_time.

Definition phase_duration_text (duration : float) : string :=
  if PrimFloat.ltb duration 60%float then
    fixed_float 2 duration +:+ " seconds"
  else if PrimFloat.ltb duration 3600%float then
    fixed_float 2 (PrimFloat.div duration 60%float) +:+ " minutes ("
    +:+ fixed_float 1 duration +:+ " seconds)"
  else
    fixed_float 2 (PrimFloat.div duration 3600%float) +:+ " hours ("
    +:+ fixed_float 1 (PrimFloat.div duration 60%float) +:+ " minutes)".

Definition log_phase_end (phase_name : string) (start_time : float) : M world unit :=
  end_time <~ time_time ;;
  let duration := PrimFloat.sub end_time start_time in
  timestamp <~ time_strftime ;;
  logging_info (rule "-" 70) ;;;
  logging_info ("[PHASE_END] " +:+ phase_name) ;;;
  logging_info ("[TIMESTAMP] " +:+ timestamp) ;;;
  logging_info ("[DURATION] " +:+ phase_duration_text duration) ;;;
  logging_info (rule "-" 70) ;;;
  logging_info "".

(** *** [run_single_simulation] *)

(** [os.path.join(a, b)]. *)
Definition path_join (a b : string) : string :=
  if String.prefix "/" b then b
  else if String.eqb a "" || String.eqb (substring (String.length a - 1) 1 a) "/"
       then a +:+ b
       else a +:+ "/" +:+ b.

(** The keyword arguments of [problemSetupDust] and the parameter each one
    is read from, in the order of the dict display. *)
Definition dust_setup_keys : list (string * string) :=
  [("xbound", "xbound"); ("nx", "nx"); ("ybound", "ybound"); ("ny", "ny");
   ("zbound", "zbound"); ("nz", "nz"); ("wbound", "wbound"); ("nw", "nw");
   ("rstar", "rstar"); ("mstar", "mstar"); ("tstar", "tstar");
   ("istar_sphere", "istar_sphere"); ("mdisk", "mdisk"); ("sig0", "sig0");
   ("rin", "rin"); ("rdisk", "rdisk"); ("hrdisk", "hrdisk"); ("hrpivot", "hrpivot");
   ("plsig1", "plsig1"); ("plh", "plh"); ("sigma_type", "sigma_type");
   ("hpr_prim_rout", "hpr_prim_rout"); ("prim_rout", "prim_rout");
   ("srim_rout", "srim_rout"); ("srim_plsig", "srim_plsig");
   ("dustkappa_ext", "dustkappa"); ("gsmax", "gsmax"); ("gsmin", "gsmin");
   ("mixabun", "mixabun"); ("nphot", "nphot"); ("nphot_scat", "nphot_scat");
   ("nphot_spec", "nphot_spec"); ("modified_random_walk", "modified_random_walk");
   ("scattering_mode_max", "scattering_mode_max"); ("h_fourier_aj", "h_fourier_aj");
   ("h_fourier_bj", "h_fourier_bj"); ("sig_fourier_aj", "sig_fourier_aj");
   ("sig_fourier_bj", "sig_fourier_bj");
   ("h_modulation_strength", "h_modulation_strength");
   ("h_asymmetry_factor", "h_asymmetry_factor");
   ("sig_asymmetry_factor", "sig_asymmetry_factor");
   ("sig_modulation_strength", "sig_modulation_strength");
   ("h_spiral_amp", "h_spiral_amp"); ("sig_spiral_amp", "sig_spiral_amp");
   ("spiral_pitch", "spiral_pitch"); ("n_arms", "n_arms");
   ("spiral_width_phi", "spiral_width_phi"); ("spiral_sharpness", "spiral_sharpness");
   ("h_vortex_amp", "h_vortex_amp"); ("h_vortex_phi0", "h_vortex_phi0");
   ("h_vortex_r0", "h_vortex_r0"); ("h_vortex_width_phi", "h_vortex_width_phi");
   ("h_vortex_width_r", "h_vortex_width_r"); ("sig_vortex_amp", "sig_vortex_amp");
   ("sig_vortex_phi0", "sig_vortex_phi0"); ("sig_vortex_r0", "sig_vortex_r0");
   ("sig_vortex_width_phi", "sig_vortex_width_phi");
   ("sig_vortex_width_r", "sig_vortex_width_r");
   ("vortex_sharpness", "vortex_sharpness");
   ("use_radial_damping", "use_radial_damping");
   ("azimuthal_r_max", "azimuthal_r_max"); ("azimuthal_r_width", "azimuthal_r_width");
   ("enable_warp", "enable_warp"); ("warp_amplitude", "warp_amplitude");
   ("warp_phase", "warp_phase"); ("warp_mode", "warp_mode");
   ("use_inner_edge_shadow", "use_inner_edge_shadow");
   ("inner_edge_radius", "inner_edge_radius");
   ("inner_edge_width", "inner_edge_width");
   ("inner_edge_height", "inner_edge_height");
   ("inner_edge_azimuthal", "inner_edge_azimuthal");
   ("inner_edge_phi", "inner_edge_phi");
   ("inner_edge_phi_width", "inner_edge_phi_width");
   ("vertical_steepness", "vertical_steepness")].

Fixpoint read_params (params : dict) (keys : list (string * string)) : result dict :=
  match keys with
  | [] => Ok []
  | (kwarg, key) :: keys' =>
      v <- dict_lookup params key ;;
      rest <- read_params params keys' ;;
      Ok ((kwarg, v) :: rest)
  end.

Definition files_to_save (timestamp : string) : list (string * string) :=
  [("problem_params.inp", "problem_params_" +:+ timestamp +:+ ".inp");
   ("radmc3d.inp", "radmc3d_" +:+ timestamp +:+ ".inp");
   ("amr_grid.inp", "amr_grid.inp");
   ("dust_density.binp", "dust_density.binp");
   ("dust_temperature.bdat", "dust_temperature.bdat")].

(** The value a library call returned, passed on without being looked at. *)
Inductive handle : Type := ReturnOf (c : lib_call).

(** [ui_mode == 'advanced']. *)
Definition is_advanced (ui_mode : pyval) : bool :=
  match ui_mode with
  | PStr s => String.eqb s "advanced"
  | _ => false
  end.

(** A call made under the silencer when it is in use. *)
Definition silenced (use_silencer : bool) (c : lib_call) : M world unit :=
  if use_silencer then suppress_output (call c) else call c.

Definition save_file (run_dir : string) (item : string * string) : M world unit :=
  let (src, dst) := item in
  if path_exists h src then
    call (GetSize src) ;;;
    let file_size := PrimFloat.div (getsize h src) 1048576%float in
    call (Copy src (path_join run_dir dst)) ;;;
    logging_info ("Saved: " +:+ src +:+ " (" +:+ fixed_float 2 file_size
                  +:+ " MB) -> " +:+ dst)
  else retM tt.

Fixpoint save_files (run_dir : string) (items : list (string * string)) : M world unit :=
  match items with
  | [] => retM tt
  | item :: items' => save_file run_dir item ;;; save_files run_dir items'
  end.

Definition phase_list (make_images : bool) : list string :=
  let phases := ["Setup"; "Configure Model"; "MC Thermal"; "SED Calculation"] in
  let phases := if make_images then (phases ++ ["Generate Image"])%list else phases in
  (phases ++ ["Save Files"])%list.

Definition estimates : dict :=
  [("MC Thermal", PNone); ("SED Calculation", PNone); ("Generate Image", PNone)].

(** Select Tracker and Silencer logic based on mode. *)
Definition select_tracker (ui_mode : pyval) (make_images : bool) : M world bool :=
  if is_advanced ui_mode then
    now <~ time_time ;;
    modifyM (set_tracker (Advanced (init (phase_list make_images) (Some estimates) now))) ;;;
    retM true
  else
    modifyM (set_tracker (Raw RawTrackerObject)) ;;;
    retM false.

(** The [try] block up to the completion of the last phase. *)
Definition run_phases (params : dict) (run_dir name timestamp : string)
    (make_images : bool) (wavelength threads : pyval) (use_silencer : bool)
  : M world unit :=
  (* Phase 1: Setup *)
  tracker_do (CStartPhase "Setup") ;;;
  phase_start <~ log_phase_start "Setup" ;;
  logging_info "Starting RADMC-3D simulation" ;;;
  silenced use_silencer (WriteDefaultParfile "ppdisk_complete") ;;;
  log_phase_end "Setup" phase_start ;;;
  tracker_do (CCompletePhase "Setup") ;;;
  (* Phase 2: Configure Model *)
  tracker_do (CStartPhase "Configure Model") ;;;
  phase_start <~ log_phase_start "Configure Model" ;;
  tracker_do (CLog "Writing input files...") ;;;
  logging_info "Writing RADMC-3D input files and grid setup" ;;;
  dust_setup_args <~ liftM (read_params params dust_setup_keys) ;;
  let dust_setup_args := (dust_setup_args ++ [("binary", PBool true)])%list in
  silenced use_silencer (ProblemSetupDust "ppdisk_complete" dust_setup_args) ;;;
  call (OpenAppend "radmc3d.inp") ;;;
  maxtau <~ liftM (dict_lookup params "mc_scat_maxtauabs") ;;
  call (WriteText "radmc3d.inp"
          ("mc_scat_maxtauabs         = " +:+ py_str maxtau +:+ newline)) ;;;
  log_phase_end "Configure Model" phase_start ;;;
  tracker_do (CCompletePhase "Configure Model") ;;;
  (* Phase 3: MC Thermal *)
  tracker_do (CStartPhase "MC Thermal") ;;;
  phase_start <~ log_phase_start "MC Thermal" ;;
  nphot <~ liftM (dict_lookup params "nphot") ;;
  run_radmc_command ("radmc3d mctherm setthreads " +:+ py_str threads +:+ " sloppy") nphot ;;;
  log_phase_end "MC Thermal" phase_start ;;;
  tracker_do (CCompletePhase "MC Thermal") ;;;
  (* Phase 4: SED Calculation *)
  tracker_do (CStartPhase "SED Calculation") ;;;
  phase_start <~ log_phase_start "SED Calculation" ;;
  incl <~ liftM (dict_lookup params "incl") ;;
  nphot_spec <~ liftM (dict_lookup params "nphot_spec") ;;
  run_radmc_command
    ("radmc3d sed incl " +:+ py_str incl +:+ " setthreads " +:+ py_str threads +:+ " sloppy")
    nphot_spec ;;;
  log_phase_end "SED Calculation" phase_start ;;;
  tracker_do (CCompletePhase "SED Calculation") ;;;
  (* Phase 5: Images *)
  (if make_images then
     tracker_do (CStartPhase "Generate Image") ;;;
     phase_start <~ log_phase_start "Generate Image" ;;
     tracker_do (CLog ("Computing image at " +:+ py_str wavelength +:+ " µm...")) ;;;
     logging_info ("Computing image at wavelength " +:+ py_str wavelength +:+ " µm") ;;;
     npix <~ liftM (dict_lookup params "npix") ;;
     incl <~ liftM (dict_lookup params "incl") ;;
     sizeau <~ liftM (dict_lookup params "sizeau") ;;
     phi <~ liftM (dict_lookup params "phi") ;;
     let cmd := "radmc3d image " +:+ "npix " +:+ py_str npix +:+ " "
                +:+ "incl " +:+ py_str incl +:+ " "
                +:+ "sizeau " +:+ py_str sizeau +:+ " "
                +:+ "lambda " +:+ py_str wavelength +:+ " "
                +:+ "phi " +:+ py_str phi +:+ " "
                +:+ "setthreads " +:+ py_str threads in
     nostar <~ liftM (dict_lookup params "nostar") ;;
     let cmd := if py_truthy nostar then cmd +:+ " nostar" else cmd in
     run_radmc_command cmd PNone ;;;
     call ReadImage ;;;
     let fits_filename := "Img_" +:+ name +:+ "_" +:+ timestamp +:+ ".fits" in
     pc <~ liftM (dict_lookup params "pc") ;;
     call (WriteFits fits_filename pc) ;;;
     call (Move fits_filename (path_join run_dir fits_filename)) ;;;
     call ImportPyplot ;;;
     let png_filename := "Image_" +:+ name +:+ "_" +:+ timestamp +:+ ".png" in
     call Figure ;;;
     call AddSubplot ;;;
     call PlotImage ;;;
     call (SaveFig png_filename) ;;;
     call CloseFigure ;;;
     call (Move png_filename (path_join run_dir png_filename)) ;;;
     log_phase_end "Generate Image" phase_start ;;;
     tracker_do (CCompletePhase "Generate Image")
   else retM tt) ;;;
  (* Phase 6: Save *)
  tracker_do (CStartPhase "Save Files") ;;;
  phase_start <~ log_phase_start "Save Files" ;;
  logging_info "Reading output files and saving to run directory" ;;;
  call (ReadSpectrum "spectrum.out") ;;;
  call (Copy "spectrum.out" (path_join run_dir ("spectrum_" +:+ timestamp +:+ ".out"))) ;;;
  call ReadStars ;;;
  call ReadGrid ;;;
  save_files run_dir (files_to_save timestamp) ;;;
  log_phase_end "Save Files" phase_start ;;;
  tracker_do (CCompletePhase "Save Files").

(** The [try] block: the phases, then the stop of the tracker, the logbook
    entry, the summary and the return value. *)
Definition phases_body (params : dict) (run_dir name timestamp : string)
    (make_images : bool) (wavelength threads : pyval) (use_silencer : bool)
    (start_time : float) : M world (handle * handle * handle) :=
  run_phases params run_dir name timestamp make_images wavelength threads use_silencer ;;;
  tracker_do CStop ;;;
  try_except
    (now <~ time_time ;; call (LogSimulation name timestamp "SUCCESS"))
    (fun _ => retM tt) ;;;
  tracker_do CPrintSummary ;;;
  retM (ReturnOf (ReadSpectrum "spectrum.out"), ReturnOf ReadStars, ReturnOf ReadGrid).

Definition run_single_simulation (params : dict) (run_dir name timestamp : string)
    (make_images : bool) (wavelength threads : pyval) (ui_mode : pyval)
  : M world (handle * handle * handle) :=
  use_silencer <~ select_tracker ui_mode make_images ;;
  tracker_do CStart ;;;
  start_time <~ time_time ;;
  try_except
    (phases_body params run_dir name timestamp make_images wavelength threads
       use_silencer start_time)
    (fun e =>
       tracker_do CStop ;;;
       logging_error ("Simulation failed: " +:+ exn_str e) ;;;
       print_error ("Simulation failed: " +:+ exn_str e) ;;;
       raiseM e).

End Run.

(** *** The passthrough tracker *)

Lemma append_cons (x : ascii) (a b : string) :
  String x a +:+ b = String x (a +:+ b).
Proof. reflexivity. Qed.

Lemma append_assoc (a b c : string) : (a +:+ b) +:+ c = a +:+ b +:+ c.
Proof.
  induction a as [|x a IH]; [reflexivity|].
  rewrite !append_cons. now rewrite IH.
Qed.

Lemma contains_append (c : ascii) (a b : string) :
  contains c (a +:+ b) = contains c a || contains c b.
Proof.
  induction a as [|x a IH]; [reflexivity|].
  rewrite append_cons. simpl. rewrite IH. now rewrite orb_assoc.
Qed.

(** A text without a line end, followed by a line end, is the first line
    of what it starts. *)
Lemma lines_first (s rest : string) :
  contains (ascii_of_nat 10) s = false ->
  lines (s +:+ newline +:+ rest) = s :: lines rest.
Proof.
  unfold lines. induction s as [|c s IH]; intros Hs.
  - change ("" +:+ newline +:+ rest) with (String (ascii_of_nat 10) rest).
    cbn [split_lines]. rewrite Ascii.eqb_refl.
    destruct (split_lines rest); reflexivity.
  - cbn [contains] in Hs. apply orb_false_iff in Hs. destruct Hs as [Hc Hs].
    specialize (IH Hs). rewrite append_cons. cbn [split_lines].
    destruct (split_lines (s +:+ newline +:+ rest)) as [l ls].
    rewrite Ascii.eqb_sym, Hc. inversion IH; subst. reflexivity.
Qed.

(** C7: on the passthrough tracker [start], [stop], [log],
    [set_phase_total], [update_progress] and [print_summary] return
    normally and leave the terminal as it was; [start_phase] and
    [complete_phase] return normally after one [print] call each, whose
    text holds, for a phase name on one line, exactly one non-empty line:
    the marker with the phase name. *)
Theorem raw_tracker_operations
    (name msg : string) (n : Z) (t : RawTracker) (out : list output) :
  contains (ascii_of_nat 10) name = false ->
  Raw.start (t, out) = (Ok tt, (t, out))
  /\ Raw.stop (t, out) = (Ok tt, (t, out))
  /\ Raw.log msg (t, out) = (Ok tt, (t, out))
  /\ Raw.set_phase_total n (t, out) = (Ok tt, (t, out))
  /\ Raw.update_progress n (t, out) = (Ok tt, (t, out))
  /\ Raw.print_summary (t, out) = (Ok tt, (t, out))
  /\ (exists marker,
        Raw.start_phase name (t, out) = (Ok tt, (t, (out ++ [marker])%list))
        /\ List.filter nonblank (lines (written marker))
           = [">>> Starting Phase: " +:+ name])
  /\ (exists marker,
        Raw.complete_phase name (t, out) = (Ok tt, (t, (out ++ [marker])%list))
        /\ List.filter nonblank (lines (written marker))
           = [">>> Completed Phase: " +:+ name]).
Proof.
  intros Hname. repeat (split; [reflexivity|]). split.
  - eexists. split; [reflexivity|].
    change (written (Stdout (newline +:+ ">>> Starting Phase: " +:+ name)))
      with (String (ascii_of_nat 10) ((">>> Starting Phase: " +:+ name) +:+ newline +:+ "")).
    unfold lines at 1. cbn [split_lines].
    pose proof (lines_first (">>> Starting Phase: " +:+ name) "") as Hl.
    unfold lines in Hl at 1.
    destruct (split_lines ((">>> Starting Phase: " +:+ name) +:+ newline +:+ "")) as [l ls].
    rewrite Ascii.eqb_refl. rewrite Hl by (rewrite contains_append; now rewrite Hname).
    reflexivity.
  - eexists. split; [reflexivity|].
    unfold written.
    replace ((">>> Completed Phase: " +:+ name +:+ newline) +:+ newline)
      with ((">>> Completed Phase: " +:+ name) +:+ newline +:+ newline)
      by (now rewrite !append_assoc).
    rewrite lines_first by (rewrite contains_append; now rewrite Hname).
    reflexivity.
Qed.

Lemma raw_tracker_operations_witness :
  exists marker,
    Raw.start_phase "Setup" (RawTrackerObject, []) = (Ok tt, (RawTrackerObject, [marker]))
    /\ List.filter nonblank (lines (written marker)) = [">>> Starting Phase: Setup"].
Proof.
  apply (raw_tracker_operations "Setup" "" 0 RawTrackerObject []). reflexivity.
Defined.

(** *** Descriptor restoration *)

Lemma lowest_free_from_free (fds : fd_table) (fuel n : nat) (taken : gset nat) :
  (forall k, (n <= k)%nat -> is_Some (fds !! k) -> k ∈ taken) ->
  (size taken <= fuel)%nat ->
  fds !! lowest_free_from fds fuel n = None.
Proof.
  revert n taken. induction fuel as [|fuel IH]; intros n taken Hin Hsize; simpl.
  - destruct (fds !! n) eqn:Hn; [|reflexivity].
    assert (Hmem : n ∈ taken) by (apply Hin; [lia|eauto]).
    assert (Hempty : taken ≡ ∅) by (apply size_empty_iff; lia).
    set_solver.
  - destruct (fds !! n) eqn:Hn; [|exact Hn].
    assert (Hmem : n ∈ taken) by (apply Hin; [lia|eauto]).
    apply (IH (S n) (taken ∖ {[n]})).
    + intros k Hk Hsome. apply elem_of_difference. split; [apply Hin; [lia|exact Hsome]|].
      apply not_elem_of_singleton. lia.
    + rewrite size_difference by set_solver. rewrite size_singleton.
      assert (size taken <> 0)%nat by (intros H0; apply size_empty_iff in H0; set_solver).
      lia.
Qed.

Lemma lowest_free_is_free (fds : fd_table) : fds !! lowest_free fds = None.
Proof.
  unfold lowest_free. apply (lowest_free_from_free fds (size fds) 0 (dom fds)).
  - intros k _ Hsome. now apply elem_of_dom.
  - now rewrite size_dom.
Qed.

(** What the guard leaves of a table in which descriptors 1 and 2 referred
    to [a] and [b] and the wrapped call kept the table [inside] it was
    given. *)
Lemma restore_table (fds : fd_table) (a b : string) (d o1 o2 : nat) :
  fds !! 1%nat = Some a -> fds !! 2%nat = Some b ->
  fds !! d = None ->
  (<[d := "/dev/null"]> fds) !! o1 = None ->
  (<[o1 := a]> (<[d := "/dev/null"]> fds)) !! o2 = None ->
  delete d (delete o2 (delete o1 (<[2%nat := b]> (<[1%nat := a]>
    (<[2%nat := "/dev/null"]> (<[1%nat := "/dev/null"]>
      (<[o2 := b]> (<[o1 := a]> (<[d := "/dev/null"]> fds))))))))) = fds.
Proof.
  intros H1 H2 Hd Ho1 Ho2. apply map_eq. intros k.
  assert (d <> 1%nat /\ d <> 2%nat) as [? ?] by (split; intros ->; congruence).
  assert (o1 <> d) by (intros ->; now rewrite lookup_insert_eq in Ho1).
  rewrite lookup_insert_ne in Ho1 by congruence.
  assert (o1 <> 1%nat /\ o1 <> 2%nat) as [? ?] by (split; intros ->; congruence).
  assert (o2 <> o1) by (intros ->; now rewrite lookup_insert_eq in Ho2).
  rewrite lookup_insert_ne in Ho2 by congruence.
  assert (o2 <> d) by (intros ->; now rewrite lookup_insert_eq in Ho2).
  rewrite lookup_insert_ne in Ho2 by congruence.
  assert (o2 <> 1%nat /\ o2 <> 2%nat) as [? ?] by (split; intros ->; congruence).
  destruct (decide (k = d)) as [->|?]; [now rewrite lookup_delete_eq|].
  rewrite lookup_delete_ne by congruence.
  destruct (decide (k = o2)) as [->|?]; [now rewrite lookup_delete_eq|].
  rewrite lookup_delete_ne by congruence.
  destruct (decide (k = o1)) as [->|?]; [now rewrite lookup_delete_eq|].
  rewrite lookup_delete_ne by congruence.
  destruct (decide (k = 2%nat)) as [->|?]; [now rewrite lookup_insert_eq|].
  rewrite lookup_insert_ne by congruence.
  destruct (decide (k = 1%nat)) as [->|?]; [now rewrite lookup_insert_eq|].
  now rewrite !lookup_insert_ne by congruence.
Qed.

(** Running a statement whose outcome is known. *)
Lemma bindM_ok {S A B : Type} (m : M S A) (k : A -> M S B) (s s1 : S) (x : A) :
  m s = (Ok x, s1) -> bindM m k s = k x s1.
Proof. intros Hm. unfold bindM. now rewrite Hm. Qed.

Lemma bindM_raise {S A B : Type} (m : M S A) (k : A -> M S B) (s s1 : S) (e : exn) :
  m s = (Raise e, s1) -> bindM m k s = (Raise e, s1).
Proof. intros Hm. unfold bindM. now rewrite Hm. Qed.

Definition noted (c : sys_call) (fds : fd_table) (w : world) : world :=
  set_fds fds (set_trace (w_trace w ++ [System c])%list w).

Lemma on_fds_open (c : sys_call) (path : string) (w : world) :
  on_fds c (sys_open path) w
  = (Ok (lowest_free (w_fds w)),
     noted c (<[lowest_free (w_fds w) := path]> (w_fds w)) w).
Proof. reflexivity. Qed.

Lemma on_fds_dup (c : sys_call) (fd : nat) (target : string) (w : world) :
  w_fds w !! fd = Some target ->
  on_fds c (sys_dup fd) w
  = (Ok (lowest_free (w_fds w)),
     noted c (<[lowest_free (w_fds w) := target]> (w_fds w)) w).
Proof.
  intros Hfd. unfold on_fds, bindM, record, modifyM, sys_dup. simpl. now rewrite Hfd.
Qed.

Lemma on_fds_dup2 (c : sys_call) (fd fd2 : nat) (target : string) (w : world) :
  w_fds w !! fd = Some target ->
  on_fds c (sys_dup2 fd fd2) w = (Ok tt, noted c (<[fd2 := target]> (w_fds w)) w).
Proof.
  intros Hfd. unfold on_fds, bindM, record, modifyM, sys_dup2. simpl. now rewrite Hfd.
Qed.

Lemma on_fds_close (c : sys_call) (fd : nat) (target : string) (w : world) :
  w_fds w !! fd = Some target ->
  on_fds c (sys_close fd) w = (Ok tt, noted c (delete fd (w_fds w)) w).
Proof.
  intros Hfd. unfold on_fds, bindM, record, modifyM, sys_close. simpl. now rewrite Hfd.
Qed.

Lemma w_fds_noted (c : sys_call) (fds : fd_table) (w : world) :
  w_fds (noted c fds w) = fds.
Proof. reflexivity. Qed.

Ltac lookup_known :=
  rewrite ?w_fds_noted;
  repeat first
    [ rewrite lookup_insert_eq; reflexivity
    | rewrite lookup_insert_ne by congruence
    | rewrite lookup_delete_ne by congruence ];
  try eassumption; try reflexivity.

(** C6: in a process whose descriptors 1 and 2 are open, around a wrapped
    call that leaves the descriptor table alone, [suppress_output] ends as
    the wrapped call ended (normally or with its exception), the call ran
    with descriptors 1 and 2 on the null device, and the descriptor table
    after the block is the table before it. *)
Theorem suppress_output_restores_descriptors
    {A : Type} (body : M world A) (w : world) (a b : string) :
  w_fds w !! 1%nat = Some a ->
  w_fds w !! 2%nat = Some b ->
  (forall w1, w_fds (body w1).2 = w_fds w1) ->
  w_fds (suppress_output body w).2 = w_fds w
  /\ exists inside,
       (suppress_output body w).1 = (body inside).1
       /\ w_fds inside !! 1%nat = Some "/dev/null"
       /\ w_fds inside !! 2%nat = Some "/dev/null".
Proof.
  intros H1 H2 Hbody.
  pose proof (lowest_free_is_free (w_fds w)) as Hd.
  remember (lowest_free (w_fds w)) as d eqn:Ed.
  pose proof (lowest_free_is_free (<[d := "/dev/null"]> (w_fds w))) as Ho1.
  remember (lowest_free (<[d := "/dev/null"]> (w_fds w))) as o1 eqn:Eo1.
  pose proof (lowest_free_is_free (<[o1 := a]> (<[d := "/dev/null"]> (w_fds w)))) as Ho2.
  remember (lowest_free (<[o1 := a]> (<[d := "/dev/null"]> (w_fds w)))) as o2 eqn:Eo2.
  assert (d <> 1%nat /\ d <> 2%nat) as [Hd1 Hd2] by (split; intros E; rewrite E in Hd; congruence).
  assert (Hod : o1 <> d) by (intros E; rewrite E, lookup_insert_eq in Ho1; discriminate).
  assert (Ho1' : w_fds w !! o1 = None) by (now rewrite lookup_insert_ne in Ho1).
  assert (o1 <> 1%nat /\ o1 <> 2%nat) as [Ho11 Ho12]
    by (split; intros E; rewrite E in Ho1'; congruence).
  assert (Hoo : o2 <> o1) by (intros E; rewrite E, lookup_insert_eq in Ho2; discriminate).
  assert (Ho2d : o2 <> d)
    by (intros E; rewrite E, lookup_insert_ne, lookup_insert_eq in Ho2;
        [discriminate|congruence]).
  assert (Ho2' : w_fds w !! o2 = None) by (now rewrite !lookup_insert_ne in Ho2).
  assert (o2 <> 1%nat /\ o2 <> 2%nat) as [Ho21 Ho22]
    by (split; intros E; rewrite E in Ho2'; congruence).
  destruct (suppress_output body w) as [res final] eqn:Hs. cbn [fst snd].
  unfold suppress_output in Hs.
  rewrite (bindM_ok _ _ _ _ _ (on_fds_open _ _ _)), <- Ed in Hs.
  unfold try_finally at 1 in Hs.
  erewrite bindM_ok in Hs by (apply on_fds_dup; lookup_known).
  rewrite w_fds_noted, <- Eo1 in Hs.
  erewrite bindM_ok in Hs by (apply on_fds_dup; lookup_known).
  rewrite w_fds_noted, <- Eo2 in Hs.
  unfold try_finally at 1 in Hs.
  erewrite bindM_ok in Hs by (apply on_fds_dup2; lookup_known).
  erewrite bindM_ok in Hs by (apply on_fds_dup2; lookup_known).
  rewrite !w_fds_noted in Hs.
  match type of Hs with context [body ?w1] =>
    pose proof (Hbody w1) as Hkeep; remember w1 as inside eqn:Einside
  end.
  destruct (body inside) as [r after] eqn:Hrun.
  cbn [fst snd] in Hkeep.
  assert (Hin : w_fds inside
                = <[2%nat := "/dev/null"]> (<[1%nat := "/dev/null"]>
                    (<[o2 := b]> (<[o1 := a]> (<[d := "/dev/null"]> (w_fds w))))))
    by (subst inside; reflexivity).
  rewrite Hin in Hkeep.
  erewrite bindM_ok in Hs by (apply on_fds_dup2; rewrite Hkeep; lookup_known).
  erewrite bindM_ok in Hs by (apply on_fds_dup2; rewrite ?w_fds_noted, Hkeep; lookup_known).
  erewrite bindM_ok in Hs by (eapply on_fds_close; rewrite ?w_fds_noted, Hkeep; lookup_known).
  erewrite on_fds_close in Hs by (rewrite ?w_fds_noted, Hkeep; lookup_known).
  assert (Hfinal : exists res', (res', final) = (res, final) /\ res' = r /\
            w_fds final = delete d (delete o2 (delete o1 (<[2%nat := b]> (<[1%nat := a]>
                          (<[2%nat := "/dev/null"]> (<[1%nat := "/dev/null"]>
                             (<[o2 := b]> (<[o1 := a]> (<[d := "/dev/null"]> (w_fds w))))))))))).
  { destruct r as [x|e]; erewrite on_fds_close in Hs
      by (rewrite ?w_fds_noted, Hkeep; lookup_known);
      rewrite !w_fds_noted, Hkeep in Hs; inversion Hs; subst res final;
      eexists; (split; [reflexivity|split; [reflexivity|]]); now rewrite w_fds_noted. }
  destruct Hfinal as (res' & Heq & -> & Hfds). inversion Heq; subst res.
  split.
  - rewrite Hfds. now apply restore_table.
  - exists inside. rewrite Hrun. split; [reflexivity|].
    rewrite Hin. split; lookup_known.
Qed.

Definition terminal_world : world :=
  {| w_tracker := Raw RawTrackerObject; w_out := [];
     w_fds := {[ 0%nat := "/dev/pts/0"; 1%nat := "/dev/pts/0"; 2%nat := "/dev/pts/0" ]};
     w_ticks := 0; w_trace := [] |}.

(** A wrapped call that raises. *)
Definition failing_call : M world unit := raiseM (OtherError "setup failed").

Lemma suppress_output_restores_witness :
  w_fds (suppress_output failing_call terminal_world).2 = w_fds terminal_world
  /\ exists inside,
       (suppress_output failing_call terminal_world).1 = (failing_call inside).1
       /\ w_fds inside !! 1%nat = Some "/dev/null"
       /\ w_fds inside !! 2%nat = Some "/dev/null".
Proof.
  apply (suppress_output_restores_descriptors failing_call terminal_world
           "/dev/pts/0" "/dev/pts/0");
    [reflexivity|reflexivity|intros w1; reflexivity].
Defined.

(** The guard relies on descriptors 1 and 2 being open: in a process that
    has only descriptor 1, the null device takes descriptor 0, the copy of
    descriptor 1 takes descriptor 2 and is overwritten by the redirection
    of descriptor 2, and descriptor 1 ends on the null device. *)
Remark suppress_output_with_only_stdout :
  w_fds (suppress_output (retM tt)
           (set_fds {[ 1%nat := "/dev/pts/0" ]} terminal_world)).2
  = {[ 1%nat := "/dev/null" ]}.
Proof. vm_compute. reflexivity. Qed.

(** *** What a statement adds to the trace

    [quiet p m]: whatever the state, [m] keeps the class of the bound
    tracker and only appends events, all of them in the class [p]. *)

Definition quiet {A : Type} (p : event -> bool) (m : M world A) : Prop :=
  forall w,
    is_raw (w_tracker (m w).2) = is_raw (w_tracker w)
    /\ exists evs, w_trace (m w).2 = (w_trace w ++ evs)%list /\ forallb p evs = true.

Lemma quiet_same {A : Type} (p : event -> bool) (m : M world A) :
  (forall w, w_tracker (m w).2 = w_tracker w /\ w_trace (m w).2 = w_trace w) ->
  quiet p m.
Proof.
  intros Hm w. destruct (Hm w) as [Ht Htr]. rewrite Ht. split; [reflexivity|].
  exists []. now rewrite Htr, app_nil_r.
Qed.

Lemma quiet_weaken {A : Type} (p q : event -> bool) (m : M world A) :
  (forall e, p e = true -> q e = true) -> quiet p m -> quiet q m.
Proof.
  intros Hpq Hm w. destruct (Hm w) as (Hraw & evs & Htr & Hp).
  split; [exact Hraw|]. exists evs. split; [exact Htr|].
  rewrite forallb_forall in *. auto.
Qed.

Lemma quiet_ret {A : Type} (p : event -> bool) (a : A) : quiet p (retM a).
Proof. apply quiet_same. now intros w. Qed.

Lemma quiet_raise {A : Type} (p : event -> bool) (e : exn) : quiet p (@raiseM world A e).
Proof. apply quiet_same. now intros w. Qed.

Lemma quiet_lift {A : Type} (p : event -> bool) (r : result A) : quiet p (liftM r).
Proof. apply quiet_same. now intros w. Qed.

Lemma quiet_gets {A : Type} (p : event -> bool) (f : world -> A) : quiet p (getsM f).
Proof. apply quiet_same. now intros w. Qed.

Lemma quiet_bind {A B : Type} (p : event -> bool) (m : M world A) (k : A -> M world B) :
  quiet p m -> (forall a, quiet p (k a)) -> quiet p (bindM m k).
Proof.
  intros Hm Hk w. unfold bindM.
  destruct (Hm w) as (Hraw & evs & Htr & Hp).
  destruct (m w) as [[a|e] w1]; cbn [fst snd] in *.
  - destruct (Hk a w1) as (Hraw' & evs' & Htr' & Hp').
    split; [congruence|]. exists (evs ++ evs')%list.
    rewrite Htr', Htr, app_assoc. split; [reflexivity|].
    rewrite forallb_app. now rewrite Hp, Hp'.
  - split; [exact Hraw|]. now exists evs.
Qed.

Lemma quiet_try_except {A : Type} (p : event -> bool)
    (body : M world A) (handler : exn -> M world A) :
  quiet p body -> (forall e, quiet p (handler e)) -> quiet p (try_except body handler).
Proof.
  intros Hm Hk w. unfold try_except.
  destruct (Hm w) as (Hraw & evs & Htr & Hp).
  destruct (body w) as [[a|e] w1]; cbn [fst snd] in *.
  - split; [exact Hraw|]. now exists evs.
  - destruct (Hk e w1) as (Hraw' & evs' & Htr' & Hp').
    split; [congruence|]. exists (evs ++ evs')%list.
    rewrite Htr', Htr, app_assoc. split; [reflexivity|].
    rewrite forallb_app. now rewrite Hp, Hp'.
Qed.

Lemma quiet_try_finally {A : Type} (p : event -> bool)
    (body : M world A) (final : M world unit) :
  quiet p body -> quiet p final -> quiet p (try_finally body final).
Proof.
  intros Hm Hk w. unfold try_finally.
  destruct (Hm w) as (Hraw & evs & Htr & Hp).
  destruct (body w) as [r w1]; cbn [fst snd] in *.
  destruct (Hk w1) as (Hraw' & evs' & Htr' & Hp').
  destruct (final w1) as [[[]|e] w2]; cbn [fst snd] in *;
    (split; [congruence|]; exists (evs ++ evs')%list;
     rewrite Htr', Htr, app_assoc; split; [reflexivity|];
     rewrite forallb_app; now rewrite Hp, Hp').
Qed.

Lemma quiet_record (p : event -> bool) (e : event) : p e = true -> quiet p (record e).
Proof.
  intros He w. split; [reflexivity|]. exists [e]. split; [reflexivity|].
  simpl. now rewrite He.
Qed.

Section Statements.

Context `{RT : PyRuntime}.
Variable h : host.
Variable p : event -> bool.

Lemma quiet_time_time : quiet p (time_time h).
Proof. apply quiet_same. now intros w. Qed.

Lemma quiet_time_strftime : quiet p (time_strftime h).
Proof. apply quiet_same. now intros w. Qed.

Lemma quiet_logging_info (message : string) :
  p (Logged INFO message) = true -> quiet p (logging_info message).
Proof. apply quiet_record. Qed.

Lemma quiet_logging_error (message : string) :
  p (Logged ERROR message) = true -> quiet p (logging_error message).
Proof. apply quiet_record. Qed.

Lemma quiet_print_error (message : string) : quiet p (print_error message).
Proof. apply quiet_same. now intros w. Qed.

Lemma quiet_print_stdout (text : string) : quiet p (print_stdout text).
Proof. apply quiet_same. now intros w. Qed.

Lemma quiet_call (c : lib_call) : p (Library c) = true -> quiet p (call h c).
Proof.
  intros Hc. unfold call. apply quiet_bind; [now apply quiet_record|].
  intros _. destruct (library h c); [apply quiet_raise|apply quiet_ret].
Qed.

Lemma quiet_on_fds {A : Type} (c : sys_call) (m : M fd_table A) :
  p (System c) = true -> quiet p (on_fds c m).
Proof.
  intros Hc. unfold on_fds. apply quiet_bind; [now apply quiet_record|].
  intros _. apply quiet_same. intros w. now destruct (m (w_fds w)).
Qed.

Lemma quiet_run_raw (m : M raw_ui unit) (t : RawTracker) :
  forall w, is_raw (w_tracker w) = true ->
    is_raw (w_tracker (run_raw m t w).2) = true
    /\ w_trace (run_raw m t w).2 = w_trace w.
Proof. intros w _. unfold run_raw. now destruct (m (t, w_out w)) as [r [t' out]]. Qed.

Lemma quiet_run_advanced (m : M ui unit) (t : AdvancedPhaseTracker) :
  forall w, is_raw (w_tracker w) = false ->
    is_raw (w_tracker (run_advanced m t w).2) = false
    /\ w_trace (run_advanced m t w).2 = w_trace w.
Proof. intros w _. unfold run_advanced. now destruct (m (t, w_out w)) as [r [t' out]]. Qed.

Lemma quiet_tracker_do (c : tracker_call) :
  p (TrackerCall c) = true -> quiet p (tracker_do h c).
Proof.
  intros Hc w. unfold tracker_do, bindM, record, modifyM, getsM. cbn [fst snd].
  cbn [w_tracker set_trace].
  assert (Hgoal : forall (m : M world unit) w1,
            w_trace w1 = (w_trace w ++ [TrackerCall c])%list ->
            is_raw (w_tracker (m w1).2) = is_raw (w_tracker w) ->
            w_trace (m w1).2 = w_trace w1 ->
            is_raw (w_tracker (m w1).2) = is_raw (w_tracker w)
            /\ exists evs, w_trace (m w1).2 = (w_trace w ++ evs)%list
                           /\ forallb p evs = true).
  { intros m w1 H1 H2 H3. split; [exact H2|]. exists [TrackerCall c].
    rewrite H3, H1. split; [reflexivity|]. simpl. now rewrite Hc. }
  destruct (w_tracker w) as [t|t] eqn:Ht.
  - apply Hgoal; [reflexivity| |]; apply quiet_run_raw; cbn; now rewrite Ht.
  - destruct c; try (apply Hgoal; [reflexivity| |]; apply quiet_run_advanced;
                     cbn; now rewrite Ht).
    + destruct (index (phases t) name);
        [unfold bindM, time_time; cbn [fst snd]|];
        (apply Hgoal; [reflexivity| |]; apply quiet_run_advanced; cbn; now rewrite Ht).
    + destruct (time_truthy (phase_start_time t));
        [unfold bindM, time_time; cbn [fst snd]|];
        (apply Hgoal; [reflexivity| |]; apply quiet_run_advanced; cbn; now rewrite Ht).
Qed.

Lemma quiet_suppress_output {A : Type} (body : M world A) :
  (forall c, p (System c) = true) -> quiet p body -> quiet p (suppress_output body).
Proof.
  intros Hsys Hbody. unfold suppress_output.
  repeat first
    [ exact Hbody
    | apply quiet_on_fds; apply Hsys
    | apply quiet_try_finally
    | apply quiet_bind; [|intros ?] ].
Qed.

End Statements.

(** *** Statements that do not raise RuntimeError *)

Definition is_runtime_error (e : exn) : bool :=
  match e with
  | RuntimeError _ => true
  | _ => false
  end.

Definition spares {A : Type} (m : M world A) : Prop :=
  forall w e, (m w).1 = Raise e -> is_runtime_error e = false.

Lemma spares_ok {A : Type} (m : M world A) :
  (forall w, exists a, (m w).1 = Ok a) -> spares m.
Proof. intros Hm w e He. destruct (Hm w) as [a Ha]. congruence. Qed.

Lemma spares_ret {A : Type} (a : A) : spares (@retM world A a).
Proof. apply spares_ok. intros w. now exists a. Qed.

Lemma spares_raise {A : Type} (e : exn) :
  is_runtime_error e = false -> spares (@raiseM world A e).
Proof. intros He w e' H. cbn in H. congruence. Qed.

Lemma spares_lift {A : Type} (r : result A) :
  (forall e, r = Raise e -> is_runtime_error e = false) -> spares (@liftM world A r).
Proof. intros Hr w e H. now apply Hr. Qed.

Lemma spares_gets {A : Type} (f : world -> A) : spares (getsM f).
Proof. apply spares_ok. intros w. now exists (f w). Qed.

Lemma spares_record (e : event) : spares (record e).
Proof. apply spares_ok. intros w. now exists tt. Qed.

Lemma spares_bind {A B : Type} (m : M world A) (k : A -> M world B) :
  spares m -> (forall a, spares (k a)) -> spares (bindM m k).
Proof.
  intros Hm Hk w e. unfold bindM. specialize (Hm w).
  destruct (m w) as [[a|e'] w1]; cbn [fst] in *; [apply Hk|].
  intros H. apply Hm. congruence.
Qed.

Lemma spares_try_except {A : Type} (body : M world A) (handler : exn -> M world A) :
  spares body ->
  (forall e, is_runtime_error e = false -> spares (handler e)) ->
  spares (try_except body handler).
Proof.
  intros Hb Hk w e. unfold try_except. specialize (Hb w).
  destruct (body w) as [[a|e'] w1]; cbn [fst] in *; [discriminate|].
  apply Hk. now apply Hb.
Qed.

Section Runner.

Context `{RT : PyRuntime}.
Variable h : host.

(** The events of a command before its process returns. *)
Definition setup_event (e : event) : bool :=
  match e with
  | Logged _ _ => true
  | TrackerCall (CLog _ | CSetPhaseTotal _ | CUpdateProgress _) => true
  | Spawned _ _ => true
  | _ => false
  end.

Definition loggable (c : tracker_call) : bool :=
  match c with
  | CLog _ | CSetPhaseTotal _ | CUpdateProgress _ => true
  | _ => false
  end.

Lemma tracker_do_loggable_ok (c : tracker_call) (w : world) :
  loggable c = true -> (tracker_do h c w).1 = Ok tt.
Proof.
  intros Hc. unfold tracker_do, bindM, record, modifyM, getsM. cbn.
  destruct (w_tracker w) as [[]|t]; destruct c; try discriminate; reflexivity.
Qed.

Lemma spares_tracker_do_loggable (c : tracker_call) :
  loggable c = true -> spares (tracker_do h c).
Proof.
  intros Hc. apply spares_ok. intros w. exists tt. now apply tracker_do_loggable_ok.
Qed.

Lemma spares_time_time : spares (time_time h).
Proof. apply spares_ok. intros w. now eexists. Qed.

Lemma spares_print_stdout (text : string) : spares (print_stdout text).
Proof. apply spares_ok. intros w. now exists tt. Qed.

Lemma py_int_digits_raises (ds : list ascii) (e : exn) :
  py_int_digits ds = Raise e -> e = ValueError.
Proof. unfold py_int_digits. destruct (_ && _); congruence. Qed.

Lemma int_of_float_raises (f : float) (e : exn) :
  int_of_float f = Raise e -> is_runtime_error e = false.
Proof.
  unfold int_of_float. destruct (Prim2SF f); intros He; now inversion He.
Qed.

Lemma float_of_int_raises (z : Z) (e : exn) :
  float_of_int z = Raise e -> is_runtime_error e = false.
Proof.
  unfold float_of_int. destruct (binary_normalize _ _ _ _ _); intros He; now inversion He.
Qed.

Lemma int_float_raises (v : pyval) (e : exn) :
  (f <- py_float v ;; int_of_float f) = Raise e -> is_runtime_error e = false.
Proof.
  destruct v as [|b|z|f|s|l|l]; simpl; try (intros He; now inversion He).
  - apply int_of_float_raises.
  - destruct (float_of_int z) as [f|e'] eqn:Hz; simpl.
    + apply int_of_float_raises.
    + intros He. inversion He; subst. eapply float_of_int_raises; eassumption.
  - apply int_of_float_raises.
  - destruct (float_of_str s); simpl; [apply int_of_float_raises|].
    intros He; now inversion He.
Qed.

Lemma quiet_handle_line (total_photons : pyval) (line : string) :
  quiet setup_event (handle_line h total_photons line).
Proof.
  unfold handle_line. destruct (nonblank _); [|apply quiet_ret].
  apply quiet_bind; [now apply quiet_tracker_do|intros _].
  destruct (py_truthy _); [|apply quiet_ret].
  destruct (photon_match _) as [group|]; [|apply quiet_ret].
  destruct (py_int_digits group) as [n|[]];
    first [now apply quiet_tracker_do | apply quiet_ret | apply quiet_raise].
Qed.

Lemma spares_handle_line (total_photons : pyval) (line : string) :
  spares (handle_line h total_photons line).
Proof.
  unfold handle_line. destruct (nonblank _); [|apply spares_ret].
  apply spares_bind; [now apply spares_tracker_do_loggable|intros _].
  destruct (py_truthy _); [|apply spares_ret].
  destruct (photon_match _) as [group|]; [|apply spares_ret].
  destruct (py_int_digits group) as [n|e] eqn:Hd;
    [now apply spares_tracker_do_loggable|].
  apply py_int_digits_raises in Hd. subst e. apply spares_ret.
Qed.

Lemma quiet_read_lines (total_photons : pyval) (ls : list string) :
  quiet setup_event (read_lines h total_photons ls).
Proof.
  induction ls as [|line ls IH]; simpl; [apply quiet_ret|].
  destruct (String.eqb line ""); [apply quiet_ret|].
  apply quiet_bind; [apply quiet_handle_line|intros _; exact IH].
Qed.

Lemma spares_read_lines (total_photons : pyval) (ls : list string) :
  spares (read_lines h total_photons ls).
Proof.
  induction ls as [|line ls IH]; simpl; [apply spares_ret|].
  destruct (String.eqb line ""); [apply spares_ret|].
  apply spares_bind; [apply spares_handle_line|intros _; exact IH].
Qed.

(** The log records that follow the return of the process. *)
Definition completion_log (code : Z) (duration : string) : list event :=
  [Logged INFO ("[RETURN_CODE] " +:+ pretty code);
   Logged INFO ("[CMD_DURATION] " +:+ duration)].

(** What follows a nonzero exit status: the completion records, the error
    line on the progress tracker (not on the passthrough tracker), and the
    error record. *)
Definition failure_tail (raw : bool) (cmd : string) (code : Z) (duration : string)
  : list event :=
  (completion_log code duration
   ++ (if raw then []
       else [TrackerCall (CLog ("[red bold]Process failed with code " +:+ pretty code
                                +:+ "[/red bold]"))])
   ++ [Logged ERROR ("Command failed with return code " +:+ pretty code
                     +:+ ": " +:+ cmd)])%list.

(** How a command can end. *)
Inductive outcome (raw : bool) (cmd : string) (evs : list event) (r : result unit) : Prop :=
| NotRun :
    forallb setup_event evs = true ->
    (forall e, r = Raise e -> is_runtime_error e = false) ->
    outcome raw cmd evs r
| Succeeded (pre : list event) (duration : string) :
    evs = (pre ++ Exited cmd 0 :: completion_log 0 duration)%list ->
    forallb setup_event pre = true ->
    r = Ok tt ->
    outcome raw cmd evs r
| Failed (pre : list event) (duration : string) (code : Z) :
    code <> 0 ->
    evs = (pre ++ Exited cmd code :: failure_tail raw cmd code duration)%list ->
    forallb setup_event pre = true ->
    r = Raise (RuntimeError ("Command failed: " +:+ cmd)) ->
    outcome raw cmd evs r.

Definition cmd_ok (cmd : string) (m : M world unit) (w : world) : Prop :=
  is_raw (w_tracker (m w).2) = is_raw (w_tracker w)
  /\ exists evs,
       w_trace (m w).2 = (w_trace w ++ evs)%list
       /\ outcome (is_raw (w_tracker w)) cmd evs (m w).1.

Lemma cmd_ok_calm (cmd : string) (m : M world unit) (w : world) :
  quiet setup_event m -> spares m -> cmd_ok cmd m w.
Proof.
  intros Hq Hs. destruct (Hq w) as (Hraw & evs & Htr & Hp).
  split; [exact Hraw|]. exists evs. split; [exact Htr|].
  apply NotRun; [exact Hp|apply Hs].
Qed.

Lemma cmd_ok_prefix {A : Type} (cmd : string) (m : M world A) (k : A -> M world unit)
    (w : world) :
  quiet setup_event m -> spares m ->
  (forall a w1,
     m w = (Ok a, w1) -> is_raw (w_tracker w1) = is_raw (w_tracker w) ->
     cmd_ok cmd (k a) w1) ->
  cmd_ok cmd (bindM m k) w.
Proof.
  intros Hq Hs Hk. destruct (Hq w) as (Hraw & evs & Htr & Hp).
  specialize (Hs w). unfold cmd_ok, bindM.
  destruct (m w) as [[a|e] w1]; cbn [fst snd] in *.
  - destruct (Hk a w1 eq_refl Hraw) as (Hraw' & evs' & Htr' & Hout).
    split; [congruence|]. exists (evs ++ evs')%list.
    rewrite Htr', Htr, app_assoc. split; [reflexivity|].
    rewrite Hraw in Hout.
    destruct Hout as [Hp' Hr|pre d -> Hp' Hr|pre d code Hc -> Hp' Hr].
    + apply NotRun; [|exact Hr]. rewrite forallb_app. now rewrite Hp, Hp'.
    + apply (Succeeded _ _ _ _ (evs ++ pre)%list d); [now rewrite app_assoc| |exact Hr].
      rewrite forallb_app. now rewrite Hp, Hp'.
    + apply (Failed _ _ _ _ (evs ++ pre)%list d code);
        [exact Hc|now rewrite app_assoc| |exact Hr].
      rewrite forallb_app. now rewrite Hp, Hp'.
  - split; [exact Hraw|]. exists evs. split; [exact Htr|].
    apply NotRun; [exact Hp|]. intros e' He'. apply Hs. congruence.
Qed.

(** The passthrough path from [subprocess.call] on. *)
Definition raw_path (command_str : string) (cmd_args : list string)
    (cmd_start_time : float) : M world unit :=
  record (Spawned cmd_args false) ;;;
  let return_code := proc_code (solver h cmd_args) in
  record (Exited command_str return_code) ;;;
  log_completion h cmd_start_time return_code ;;;
  if negb (return_code =? 0) then
    logging_error ("Command failed with return code " +:+ pretty return_code
                   +:+ ": " +:+ command_str) ;;;
    raiseM (RuntimeError ("Command failed: " +:+ command_str))
  else retM tt.

(** The progress-tracked path from [process.wait()] on. *)
Definition advanced_finish (command_str : string) (cmd_args : list string)
    (cmd_start_time : float) : M world unit :=
  let return_code := proc_code (solver h cmd_args) in
  record (Exited command_str return_code) ;;;
  log_completion h cmd_start_time return_code ;;;
  if negb (return_code =? 0) then
    tracker_do h (CLog ("[red bold]Process failed with code " +:+ pretty return_code
                        +:+ "[/red bold]")) ;;;
    logging_error ("Command failed with return code " +:+ pretty return_code
                   +:+ ": " +:+ command_str) ;;;
    raiseM (RuntimeError ("Command failed: " +:+ command_str))
  else retM tt.

Lemma raw_path_ok (cmd : string) (args : list string) (start : float) (w : world) :
  is_raw (w_tracker w) = true -> cmd_ok cmd (raw_path cmd args start) w.
Proof.
  intros Hraw. unfold cmd_ok. rewrite Hraw.
  unfold raw_path, log_completion, logging_info, logging_error, time_time,
    bindM, record, modifyM, raiseM, retM.
  destruct (Z.eqb_spec (proc_code (solver h args)) 0) as [Hz|Hnz];
    cbn [negb fst snd w_tracker w_trace set_trace set_ticks w_ticks].
  - split; [exact Hraw|]. eexists. split; [now rewrite <- !app_assoc|].
    rewrite Hz. eapply (Succeeded _ _ _ _ [Spawned args false]); reflexivity.
  - split; [exact Hraw|]. eexists. split; [now rewrite <- !app_assoc|].
    eapply (Failed _ _ _ _ [Spawned args false]); [exact Hnz|reflexivity..].
Qed.

Lemma advanced_finish_ok (cmd : string) (args : list string) (start : float) (w : world) :
  is_raw (w_tracker w) = false -> cmd_ok cmd (advanced_finish cmd args start) w.
Proof.
  intros Hraw. unfold cmd_ok. rewrite Hraw.
  destruct (w_tracker w) as [|t] eqn:Ht; [discriminate|].
  unfold advanced_finish, log_completion, logging_info, logging_error, time_time,
    tracker_do, run_advanced, TerminalUI.log, console_print,
    bindM, record, modifyM, raiseM, retM, getsM.
  destruct (Z.eqb_spec (proc_code (solver h args)) 0) as [Hz|Hnz];
    cbn [negb fst snd w_tracker w_trace set_trace set_ticks w_ticks set_out set_tracker
         w_out is_raw]; rewrite ?Ht;
    cbn [negb fst snd w_tracker w_trace set_trace set_ticks w_ticks set_out set_tracker
         w_out is_raw].
  - split; [reflexivity|]. eexists. split; [now rewrite <- !app_assoc|].
    rewrite Hz. eapply (Succeeded _ _ _ _ []); reflexivity.
  - split; [reflexivity|]. eexists. split; [now rewrite <- !app_assoc|].
    eapply (Failed _ _ _ _ []); [exact Hnz|reflexivity..].
Qed.

Lemma run_radmc_command_outcome (cmd : string) (total_photons : pyval) (w : world) :
  cmd_ok cmd (run_radmc_command h cmd total_photons) w.
Proof.
  unfold run_radmc_command.
  apply cmd_ok_prefix.
  { unfold log_command. apply quiet_bind; [|intros _]; now apply quiet_logging_info. }
  { unfold log_command, logging_info. apply spares_bind; [|intros _]; apply spares_record. }
  intros _ w1 _ _.
  apply cmd_ok_prefix; [apply quiet_time_time|apply spares_time_time|].
  intros start w2 _ _.
  apply cmd_ok_prefix; [apply quiet_lift| |].
  { apply spares_lift. intros e. destruct (shlex_split h cmd); intros He; now inversion He. }
  intros args w3 _ _.
  apply cmd_ok_prefix; [apply quiet_lift| |].
  { apply spares_lift. intros e. destruct args; intros He; now inversion He. }
  intros name w4 _ _.
  destruct (not_found h name).
  - apply cmd_ok_calm.
    + apply quiet_bind; [apply quiet_print_stdout|intros _].
      apply quiet_bind; [now apply quiet_logging_error|intros _]. apply quiet_raise.
    + apply spares_bind; [apply spares_print_stdout|intros _].
      apply spares_bind; [apply spares_record|intros _]. now apply spares_raise.
  - apply cmd_ok_prefix; [apply quiet_gets|apply spares_gets|].
    intros t w5 Hget _. inversion Hget; subst t w5.
    destruct (is_raw (w_tracker w4)) eqn:Hraw.
    + now apply raw_path_ok.
    + apply cmd_ok_prefix.
      { destruct (py_truthy total_photons); [|apply quiet_ret].
        apply quiet_try_except.
        - apply quiet_bind; [apply quiet_lift|intros n]. now apply quiet_tracker_do.
        - intros []; first [now apply quiet_tracker_do | apply quiet_raise]. }
      { destruct (py_truthy total_photons); [|apply spares_ret].
        apply spares_try_except.
        - apply spares_bind; [apply spares_lift, int_float_raises|intros n].
          now apply spares_tracker_do_loggable.
        - intros [] He; first [discriminate He
                              | now apply spares_tracker_do_loggable
                              | now apply spares_raise]. }
      intros _ w6 _ Hraw6.
      apply cmd_ok_prefix; [now apply quiet_record|apply spares_record|].
      intros _ w7 _ Hraw7.
      apply cmd_ok_prefix; [apply quiet_read_lines|apply spares_read_lines|].
      intros _ w8 _ Hraw8.
      apply advanced_finish_ok. congruence.
Qed.


(** *** Progress parsing *)

(** The photon number a stripped line reports, when photons are tracked. *)
Definition progress_of (total_photons : pyval) (clean_line : string) : option Z :=
  if py_truthy total_photons then
    match photon_match clean_line with
    | Some group =>
        match py_int_digits group with
        | Ok n => Some n
        | Raise _ => None
        end
    | None => None
    end
  else None.








End Runner.

(** *** The orchestrator *)

Section Orchestrator.

Context `{RT : PyRuntime}.
Variable h : host.

(** Events of a run that stop nothing: no [stop()] and no exit status
    other than 0. *)
Definition step_event (e : event) : bool :=
  match e with
  | TrackerCall CStop => false
  | Exited _ code => code =? 0
  | _ => true
  end.

(** Events that are no system call. *)
Definition non_system (e : event) : bool :=
  match e with
  | System _ => false
  | _ => true
  end.

(** Events that neither start a phase nor report an exit status. *)
Definition closing_event (e : event) : bool :=
  match e with
  | TrackerCall (CStartPhase _) => false
  | Exited _ _ => false
  | Spawned _ _ => false
  | _ => true
  end.

(** One step of a proof that a statement is quiet, chosen by the shape of
    the statement; [side] closes the conditions on the event class. *)
Ltac quiet_step side :=
  lazymatch goal with
  | |- quiet _ (bindM _ _) => apply quiet_bind; [|intros ?]
  | |- quiet _ (retM _) => apply quiet_ret
  | |- quiet _ (raiseM _) => apply quiet_raise
  | |- quiet _ (liftM _) => apply quiet_lift
  | |- quiet _ (getsM _) => apply quiet_gets
  | |- quiet _ (time_time _) => apply quiet_time_time
  | |- quiet _ (time_strftime _) => apply quiet_time_strftime
  | |- quiet _ (print_error _) => apply quiet_print_error
  | |- quiet _ (print_stdout _) => apply quiet_print_stdout
  | |- quiet _ (record _) => apply quiet_record; side
  | |- quiet _ (logging_info _) => apply quiet_logging_info; side
  | |- quiet _ (logging_error _) => apply quiet_logging_error; side
  | |- quiet _ (tracker_do _ _) => apply quiet_tracker_do; side
  | |- quiet _ (call _ _) => apply quiet_call; side
  | |- quiet _ (suppress_output _) => apply quiet_suppress_output; [intros ?; side|]
  | |- quiet _ (try_except _ _) => apply quiet_try_except; [|intros ?]
  | |- quiet _ (try_finally _ _) => apply quiet_try_finally
  | |- quiet _ (if ?b then _ else _) => destruct b
  end.

Lemma quiet_log_phase_start (p : event -> bool) (phase_name : string) :
  (forall l m, p (Logged l m) = true) -> quiet p (log_phase_start h phase_name).
Proof.
  intros Hlog. unfold log_phase_start. repeat quiet_step ltac:(apply Hlog).
Qed.

Lemma quiet_log_phase_end (p : event -> bool) (phase_name : string) (start : float) :
  (forall l m, p (Logged l m) = true) -> quiet p (log_phase_end h phase_name start).
Proof.
  intros Hlog. unfold log_phase_end. repeat quiet_step ltac:(apply Hlog).
Qed.

Lemma quiet_save_files (p : event -> bool) (run_dir : string)
    (items : list (string * string)) :
  (forall l m, p (Logged l m) = true) -> (forall c, p (Library c) = true) ->
  quiet p (save_files h run_dir items).
Proof.
  intros Hlog Hlib. induction items as [|[src dst] items IH]; simpl; [apply quiet_ret|].
  apply quiet_bind; [|intros _; exact IH].
  repeat quiet_step ltac:(first [apply Hlog | apply Hlib]).
Qed.

(** Every event of a command is a log record, a tracker call that is no
    [stop()] and starts no phase, the start of the process or its exit. *)
Definition runner_event (e : event) : bool :=
  match e with
  | Exited _ _ => true
  | _ => setup_event e
  end.

Lemma setup_is_runner (evs : list event) :
  forallb setup_event evs = true -> forallb runner_event evs = true.
Proof.
  rewrite !forallb_forall. intros H e He. specialize (H e He).
  destruct e; try discriminate; exact H || reflexivity.
Qed.

Lemma quiet_run_radmc_command (cmd : string) (total_photons : pyval) :
  quiet runner_event (run_radmc_command h cmd total_photons).
Proof.
  intros w. destruct (run_radmc_command_outcome h cmd total_photons w)
    as (Hraw & evs & Htr & Hout).
  split; [exact Hraw|]. exists evs. split; [exact Htr|].
  destruct Hout as [Hp _|pre d -> Hp _|pre d code _ -> Hp _].
  - now apply setup_is_runner.
  - rewrite forallb_app. rewrite (setup_is_runner _ Hp). reflexivity.
  - rewrite forallb_app. rewrite (setup_is_runner _ Hp).
    unfold failure_tail. now destruct (is_raw (w_tracker w)).
Qed.

(** In passthrough mode a run makes no system call on descriptors. *)
Lemma quiet_run_phases_unsilenced (params : dict) (run_dir name timestamp : string)
    (make_images : bool) (wavelength threads : pyval) :
  quiet non_system
    (run_phases h params run_dir name timestamp make_images wavelength threads false).
Proof.
  unfold run_phases, silenced.
  repeat first
    [ quiet_step ltac:(reflexivity)
    | lazymatch goal with
      | |- quiet _ (log_phase_start _ _) => apply quiet_log_phase_start; intros; reflexivity
      | |- quiet _ (log_phase_end _ _ _) => apply quiet_log_phase_end; intros; reflexivity
      | |- quiet _ (save_files _ _ _) => apply quiet_save_files; intros; reflexivity
      | |- quiet _ (run_radmc_command _ _ _) =>
          (eapply quiet_weaken; [|apply quiet_run_radmc_command]);
          intros [[]| | | | |]; simpl; congruence
      end ].
Qed.

(** *** Failure of a solver invocation *)

(** How far the phases got: either nothing stopped them, or a command
    failed, and then the failure is the last thing they did. *)
Inductive progress {A : Type} (raw : bool) (evs : list event) (r : result A) : Prop :=
| Running :
    forallb step_event evs = true ->
    progress raw evs r
| Broken (pre : list event) (cmd duration : string) (code : Z) :
    code <> 0 ->
    evs = (pre ++ Exited cmd code :: failure_tail raw cmd code duration)%list ->
    forallb step_event pre = true ->
    r = Raise (RuntimeError ("Command failed: " +:+ cmd)) ->
    progress raw evs r.

Definition phase_ok {A : Type} (m : M world A) : Prop :=
  forall w,
    is_raw (w_tracker (m w).2) = is_raw (w_tracker w)
    /\ exists evs,
         w_trace (m w).2 = (w_trace w ++ evs)%list
         /\ progress (is_raw (w_tracker w)) evs (m w).1.

Lemma phase_ok_quiet {A : Type} (m : M world A) : quiet step_event m -> phase_ok m.
Proof.
  intros Hq w. destruct (Hq w) as (Hraw & evs & Htr & Hp).
  split; [exact Hraw|]. exists evs. split; [exact Htr|]. now apply Running.
Qed.

Lemma phase_ok_bind {A B : Type} (m : M world A) (k : A -> M world B) :
  phase_ok m -> (forall a, phase_ok (k a)) -> phase_ok (bindM m k).
Proof.
  intros Hm Hk w. unfold bindM.
  destruct (Hm w) as (Hraw & evs & Htr & Hpr).
  destruct (m w) as [[a|e] w1]; cbn [fst snd] in *.
  - destruct (Hk a w1) as (Hraw' & evs' & Htr' & Hpr').
    split; [congruence|]. exists (evs ++ evs')%list.
    rewrite Htr', Htr, app_assoc. split; [reflexivity|].
    destruct Hpr as [Hp|pre cmd d code _ _ _ Hr]; [|discriminate].
    rewrite Hraw in Hpr'.
    destruct Hpr' as [Hp'|pre cmd d code Hc -> Hp' Hr].
    + apply Running. rewrite forallb_app. now rewrite Hp, Hp'.
    + apply (Broken _ _ _ (evs ++ pre)%list cmd d code);
        [exact Hc|now rewrite app_assoc| |exact Hr].
      rewrite forallb_app. now rewrite Hp, Hp'.
  - split; [exact Hraw|]. exists evs. split; [exact Htr|].
    destruct Hpr as [Hp|pre cmd d code Hc Hevs Hp Hr].
    + now apply Running.
    + apply (Broken _ _ _ pre cmd d code); [exact Hc|exact Hevs|exact Hp|congruence].
Qed.

Lemma setup_is_step (evs : list event) :
  forallb setup_event evs = true -> forallb step_event evs = true.
Proof.
  rewrite !forallb_forall. intros H e He. specialize (H e He).
  destruct e as [[]| | | | |]; try discriminate; reflexivity.
Qed.

Lemma phase_ok_run_radmc_command (cmd : string) (total_photons : pyval) :
  phase_ok (run_radmc_command h cmd total_photons).
Proof.
  intros w. destruct (run_radmc_command_outcome h cmd total_photons w)
    as (Hraw & evs & Htr & Hout).
  split; [exact Hraw|]. exists evs. split; [exact Htr|].
  destruct Hout as [Hp _|pre d -> Hp _|pre d code Hc -> Hp Hr].
  - apply Running. now apply setup_is_step.
  - apply Running. rewrite forallb_app. now rewrite (setup_is_step _ Hp).
  - apply (Broken _ _ _ pre cmd d code); [exact Hc|reflexivity| |exact Hr].
    now apply setup_is_step.
Qed.

Lemma phase_ok_run_phases (params : dict) (run_dir name timestamp : string)
    (make_images : bool) (wavelength threads : pyval) (use_silencer : bool) :
  phase_ok
    (run_phases h params run_dir name timestamp make_images wavelength threads
       use_silencer).
Proof.
  unfold run_phases, silenced.
  repeat lazymatch goal with
    | |- phase_ok (bindM _ _) => apply phase_ok_bind; [|intros ?]
    | |- phase_ok (run_radmc_command _ _ _) => apply phase_ok_run_radmc_command
    | |- phase_ok (if ?b then _ else _) => destruct b
    | |- phase_ok (log_phase_start _ _) =>
        apply phase_ok_quiet, quiet_log_phase_start; intros; reflexivity
    | |- phase_ok (log_phase_end _ _ _) =>
        apply phase_ok_quiet, quiet_log_phase_end; intros; reflexivity
    | |- phase_ok (save_files _ _ _) =>
        apply phase_ok_quiet, quiet_save_files; intros; reflexivity
    | |- phase_ok _ => apply phase_ok_quiet; repeat quiet_step ltac:(reflexivity)
    end.
Qed.

(** The tracker calls that are [stop()]. *)
Definition is_stop (e : event) : bool :=
  match e with
  | TrackerCall CStop => true
  | _ => false
  end.

Definition stops (evs : list event) : nat := length (List.filter is_stop evs).

Lemma stops_app (a b : list event) : stops (a ++ b) = (stops a + stops b)%nat.
Proof. unfold stops. now rewrite List.filter_app, length_app. Qed.





(** After the last phase: [stop()], the logbook entry, the summary. *)
Lemma quiet_after_phases {A : Type} (name timestamp : string) (start_time : float)
    (value : A) :
  quiet closing_event
    (tracker_do h CStop ;;;
     try_except
       (now <~ time_time h ;; call h (LogSimulation name timestamp "SUCCESS"))
       (fun _ => retM tt) ;;;
     tracker_do h CPrintSummary ;;;
     retM value).
Proof. repeat quiet_step ltac:(reflexivity). Qed.

Lemma tracker_do_stop (w : world) :
  (tracker_do h CStop w).1 = Ok tt
  /\ w_trace (tracker_do h CStop w).2 = (w_trace w ++ [TrackerCall CStop])%list
  /\ is_raw (w_tracker (tracker_do h CStop w).2) = is_raw (w_tracker w).
Proof.
  unfold tracker_do, record, modifyM, getsM, bindM. cbn [fst snd w_tracker set_trace].
  destruct (w_tracker w) as [[]|t]; cbn; auto.
Qed.

(** The [except] clause. *)
Definition on_failure {A : Type} (e : exn) : M world A :=
  tracker_do h CStop ;;;
  logging_error ("Simulation failed: " +:+ exn_str e) ;;;
  print_error ("Simulation failed: " +:+ exn_str e) ;;;
  raiseM e.

Lemma on_failure_run {A : Type} (e : exn) (w : world) :
  (@on_failure A e w).1 = Raise e
  /\ w_trace (@on_failure A e w).2
     = (w_trace w ++ [TrackerCall CStop;
                      Logged ERROR ("Simulation failed: " +:+ exn_str e)])%list.
Proof.
  unfold on_failure. destruct (tracker_do_stop w) as (Hr & Htr & _).
  destruct (tracker_do h CStop w) as [r w1] eqn:Hrun. cbn [fst snd] in *. subst r.
  rewrite (bindM_ok _ _ _ _ _ Hrun).
  unfold logging_error, print_error, record, modifyM, raiseM, bindM.
  cbn. rewrite Htr. now rewrite <- app_assoc.
Qed.

Lemma time_time_run (w : world) :
  time_time h w = (Ok (clock h (w_ticks w)), set_ticks (S (w_ticks w)) w).
Proof. reflexivity. Qed.

Lemma try_except_ok {A : Type} (body : M world A) (handler : exn -> M world A)
    (w w1 : world) (a : A) :
  body w = (Ok a, w1) -> try_except body handler w = (Ok a, w1).
Proof. intros Hb. unfold try_except. now rewrite Hb. Qed.

Lemma try_except_raise {A : Type} (body : M world A) (handler : exn -> M world A)
    (w w1 : world) (e : exn) :
  body w = (Raise e, w1) -> try_except body handler w = handler e w1.
Proof. intros Hb. unfold try_except. now rewrite Hb. Qed.

Lemma tracker_do_start (w : world) :
  (tracker_do h CStart w).1 = Ok tt
  /\ w_trace (tracker_do h CStart w).2 = (w_trace w ++ [TrackerCall CStart])%list
  /\ is_raw (w_tracker (tracker_do h CStart w).2) = is_raw (w_tracker w).
Proof.
  unfold tracker_do, record, modifyM, getsM, bindM. cbn [fst snd w_tracker set_trace].
  destruct (w_tracker w) as [[]|t]; cbn; auto.
Qed.

Lemma select_tracker_run (ui_mode : pyval) (make_images : bool) (w : world) :
  (select_tracker h ui_mode make_images w).1 = Ok (is_advanced ui_mode)
  /\ w_trace (select_tracker h ui_mode make_images w).2 = w_trace w
  /\ is_raw (w_tracker (select_tracker h ui_mode make_images w).2)
     = negb (is_advanced ui_mode).
Proof. unfold select_tracker. destruct (is_advanced ui_mode); cbn; auto. Qed.

(** The events of a run: the start of the tracker, the events of the
    phases, and what follows them: after phases that returned, events that
    start no phase and report no exit, one [stop()] among them being the
    first; after phases that raised [e], the [stop()] and the error record
    of the [except] clause, which raises [e] again. *)
Lemma run_single_simulation_events
    (params : dict) (run_dir name timestamp : string) (make_images : bool)
    (wavelength threads ui_mode : pyval) (w : world) :
  let run := run_single_simulation h params run_dir name timestamp make_images
               wavelength threads ui_mode w in
  exists (phases_result : result unit) (evs rest : list event),
    w_trace run.2 = (w_trace w ++ TrackerCall CStart :: evs ++ rest)%list
    /\ progress (negb (is_advanced ui_mode)) evs phases_result
    /\ match phases_result with
       | Ok _ => forallb closing_event rest = true
       | Raise e =>
           run.1 = Raise e
           /\ rest = [TrackerCall CStop;
                      Logged ERROR ("Simulation failed: " +:+ exn_str e)]
       end.
Proof.
  cbv zeta.
  destruct (run_single_simulation h params run_dir name timestamp make_images
              wavelength threads ui_mode w) as [r final] eqn:Hrun.
  cbn [fst snd]. unfold run_single_simulation in Hrun.
  destruct (select_tracker_run ui_mode make_images w) as (Hr1 & Ht1 & Hraw1).
  destruct (select_tracker h ui_mode make_images w) as [r1 w1] eqn:Hsel.
  cbn [fst snd] in *. subst r1. rewrite (bindM_ok _ _ _ _ _ Hsel) in Hrun.
  destruct (tracker_do_start w1) as (Hr2 & Ht2 & Hraw2).
  destruct (tracker_do h CStart w1) as [r2 w2] eqn:Hstart.
  cbn [fst snd] in *. subst r2. rewrite (bindM_ok _ _ _ _ _ Hstart) in Hrun.
  rewrite (bindM_ok _ _ _ _ _ (time_time_run w2)) in Hrun.
  set (w3 := set_ticks (S (w_ticks w2)) w2) in *.
  assert (Ht3 : w_trace w3 = (w_trace w ++ [TrackerCall CStart])%list)
    by (subst w3; cbn; congruence).
  assert (Hraw3 : is_raw (w_tracker w3) = negb (is_advanced ui_mode))
    by (subst w3; cbn; congruence).
  destruct (phase_ok_run_phases params run_dir name timestamp make_images wavelength
              threads (is_advanced ui_mode) w3) as (Hraw4 & evs & Ht4 & Hpr).
  destruct (run_phases h params run_dir name timestamp make_images wavelength threads
              (is_advanced ui_mode) w3) as [rp w4] eqn:Hphases.
  cbn [fst snd] in *. rewrite Hraw3 in Hpr.
  exists rp, evs. unfold phases_body in Hrun. destruct rp as [[]|e].
  - destruct (quiet_after_phases name timestamp (clock h (w_ticks w2))
                (ReturnOf (ReadSpectrum "spectrum.out"), ReturnOf ReadStars,
                 ReturnOf ReadGrid) w4) as (_ & rest & Ht5 & Hp5).
    match type of Ht5 with context [bindM ?m ?k w4] =>
      destruct (bindM m k w4) as [[v|e] w5] eqn:Hafter
    end; cbn [fst snd] in *.
    + erewrite try_except_ok in Hrun
        by (erewrite bindM_ok by exact Hphases; exact Hafter).
      inversion Hrun; subst r final.
      exists rest. rewrite Ht5, Ht4, Ht3, <- !app_assoc. auto.
    + erewrite try_except_raise in Hrun
        by (erewrite bindM_ok by exact Hphases; exact Hafter).
      destruct (@on_failure_run (handle * handle * handle) e w5) as (Hr6 & Ht6).
      fold (@on_failure (handle * handle * handle) e) in Hrun.
      rewrite Hrun in Hr6, Ht6. cbn [fst snd] in *.
      exists (rest ++ [TrackerCall CStop;
                       Logged ERROR ("Simulation failed: " +:+ exn_str e)])%list.
      rewrite Ht6, Ht5, Ht4, Ht3, <- !app_assoc. split; [reflexivity|].
      split; [exact Hpr|]. rewrite forallb_app, Hp5. reflexivity.
  - erewrite try_except_raise in Hrun by (apply bindM_raise; exact Hphases).
    destruct (@on_failure_run (handle * handle * handle) e w4) as (Hr6 & Ht6).
    fold (@on_failure (handle * handle * handle) e) in Hrun.
    rewrite Hrun in Hr6, Ht6. cbn [fst snd] in *.
    eexists. rewrite Ht6, Ht4, Ht3, <- !app_assoc. auto.
Qed.


(** *** The choice of the tracker *)

Lemma is_advanced_true (ui_mode : pyval) :
  is_advanced ui_mode = true <-> ui_mode = PStr "advanced".
Proof.
  split; [|now intros ->].
  destruct ui_mode; simpl; try discriminate. intros H.
  apply String.eqb_eq in H. now subst.
Qed.

Lemma run_unsilenced (params : dict) (run_dir name timestamp : string)
    (make_images : bool) (wavelength threads ui_mode : pyval) (w : world) :
  is_advanced ui_mode = false ->
  let run := run_single_simulation h params run_dir name timestamp make_images
               wavelength threads ui_mode w in
  run = run_single_simulation h params run_dir name timestamp make_images
          wavelength threads (PStr "raw") w
  /\ is_raw (w_tracker run.2) = true
  /\ exists evs, w_trace run.2 = (w_trace w ++ evs)%list /\ forallb non_system evs = true.
Proof.
  intros Hmode. cbv zeta. unfold run_single_simulation, select_tracker.
  rewrite Hmode. cbn [is_advanced String.eqb Ascii.eqb Bool.eqb].
  split; [reflexivity|].
  erewrite bindM_ok by reflexivity.
  match goal with |- context [bindM ?m ?k ?w1] =>
    assert (Hq : quiet non_system (bindM m k)); [|destruct (Hq w1) as (Hraw & evs & Htr & Hp)]
  end.
  - apply quiet_bind; [now apply quiet_tracker_do|intros _].
    apply quiet_bind; [apply quiet_time_time|intros start].
    apply quiet_try_except.
    + unfold phases_body.
      apply quiet_bind; [apply quiet_run_phases_unsilenced|intros _].
      repeat quiet_step ltac:(reflexivity).
    + intros e. repeat quiet_step ltac:(reflexivity).
  - split; [exact Hraw|]. exists evs. split; [exact Htr|exact Hp].
Qed.

(** C10: for every [ui_mode] other than the string ['advanced'], whatever
    its value, [run_single_simulation] behaves exactly as for ['raw']: it
    binds the passthrough tracker, raises nothing on account of the value,
    and makes no descriptor-level call, that is, never enters
    [suppress_output]; a run that does enter it has [ui_mode] equal to
    ['advanced']. *)
Theorem other_ui_modes_run_raw
    (params : dict) (run_dir name timestamp : string) (make_images : bool)
    (wavelength threads ui_mode : pyval) (w : world) :
  let run := run_single_simulation h params run_dir name timestamp make_images
               wavelength threads ui_mode w in
  exists evs,
    w_trace run.2 = (w_trace w ++ evs)%list
    /\ (ui_mode <> PStr "advanced" ->
        select_tracker h ui_mode make_images w
        = (Ok false, set_tracker (Raw RawTrackerObject) w)
        /\ run = run_single_simulation h params run_dir name timestamp make_images
                   wavelength threads (PStr "raw") w
        /\ is_raw (w_tracker run.2) = true
        /\ forall c, ~ In (System c) evs)
    /\ (forall c, In (System c) evs -> ui_mode = PStr "advanced").
Proof.
  cbv zeta.
  destruct (run_single_simulation_events params run_dir name timestamp make_images
              wavelength threads ui_mode w) as (rp & evs0 & rest & Htr & _).
  exists (TrackerCall CStart :: evs0 ++ rest)%list. split; [exact Htr|].
  assert (Hraw : is_advanced ui_mode = false ->
                 forall c, ~ In (System c) (TrackerCall CStart :: evs0 ++ rest)%list).
  { intros Hmode c Hin.
    destruct (run_unsilenced params run_dir name timestamp make_images wavelength
                threads ui_mode w Hmode) as (_ & _ & evs & Htr' & Hp).
    rewrite Htr in Htr'. apply app_inv_head in Htr'. rewrite Htr' in Hin.
    rewrite forallb_forall in Hp. now apply Hp in Hin. }
  split.
  - intros Hne.
    assert (Hmode : is_advanced ui_mode = false).
    { destruct (is_advanced ui_mode) eqn:E; [|reflexivity].
      apply is_advanced_true in E. contradiction. }
    split; [unfold select_tracker; now rewrite Hmode|].
    destruct (run_unsilenced params run_dir name timestamp make_images wavelength
                threads ui_mode w Hmode) as (Heq & Hr & _).
    split; [exact Heq|]. split; [exact Hr|]. now apply Hraw.
  - intros c Hin. destruct (is_advanced ui_mode) eqn:E.
    + now apply is_advanced_true.
    + exfalso. eapply Hraw; eauto.
Qed.

End Orchestrator.





(** *** Closed examples *)

Section Examples.

#[local] Existing Instance example_runtime.

(** The words of a command without quotation marks. *)
Fixpoint words_from (word : string) (s : string) : list string :=
  match s with
  | EmptyString => if String.eqb word "" then [] else [word]
  | String c s' =>
      if Ascii.eqb c " "
      then (if String.eqb word "" then words_from "" s' else word :: words_from "" s')
      else words_from (word +:+ String c EmptyString) s'
  end.

(** A host on which the solver is installed, reports two photons in the
    thermal run and ends that run with [thermal_code]. *)
Definition example_host (thermal_code : Z) : host :=
  {| clock := fun _ => 1000%float;
     strftime := fun _ => "2026-01-01 00:00:00";
     getcwd := "/work";
     shlex_split := fun s => Some (words_from "" s);
     which := fun name =>
       if String.eqb name "radmc3d" then Some "/usr/local/bin/radmc3d" else None;
     solver := fun argv =>
       match argv with
       | _ :: "mctherm" :: _ =>
           {| proc_lines := ["Photon nr: 4821" +:+ newline; newline;
                             "Photon nr. 99" +:+ newline];
              proc_code := thermal_code |}
       | _ => {| proc_lines := [" Done" +:+ newline]; proc_code := 0 |}
       end;
     library := fun _ => None;
     path_exists := fun _ => true;
     getsize := fun _ => 2097152%float |}.

Definition example_params : dict :=
  (map (fun kv : string * string =>
          (kv.2, if String.eqb kv.2 "nphot" then PInt 100000
                 else if String.eqb kv.2 "nphot_spec" then PInt 10000
                 else PInt 1))
       dust_setup_keys
   ++ [("mc_scat_maxtauabs", PInt 5); ("incl", PInt 45)])%list.

Abbreviation example_run thermal_code ui_mode :=
  (run_single_simulation (example_host thermal_code) example_params
     "/runs/baseline_run" "test" "20260101_000000" false (PFloat 2.5) (PInt 8)
     ui_mode terminal_world).






Lemma other_ui_modes_run_raw_witness :
  example_run 0 (PStr "fancy") = example_run 0 (PStr "raw")
  /\ is_raw (w_tracker (example_run 0 (PStr "fancy")).2) = true.
Proof.
  destruct (other_ui_modes_run_raw (example_host 0) example_params
              "/runs/baseline_run" "test" "20260101_000000" false (PFloat 2.5) (PInt 8)
              (PStr "fancy") terminal_world) as (evs & _ & Hraw & _).
  destruct (Hraw ltac:(discriminate)) as (_ & Heq & Hr & _).
  split; [exact Heq|exact Hr].
Defined.

End Examples.

End SingleRun.

(** ** The photon pattern: what it accepts and what it reports *)

Module PhotonPattern.

Import Text.

(** *** Runs of digits and their value *)

Lemma digits_all_digits (s : list ascii) : forallb is_digit (digits s) = true.
Proof.
  induction s as [|c s IH]; [reflexivity|].
  simpl. destruct (is_digit c) eqn:Hc; [|reflexivity].
  simpl. now rewrite Hc.
Qed.

(** A run of digits is read whole when what follows does not start with a
    digit. *)
Lemma digits_app (ds rest : list ascii) :
  forallb is_digit ds = true ->
  match rest with c :: _ => is_digit c = false | [] => True end ->
  digits (ds ++ rest)%list = ds.
Proof.
  intros Hds Hrest. induction ds as [|d ds IH].
  - destruct rest as [|c rest]; [reflexivity|]. simpl. now rewrite Hrest.
  - simpl in Hds. apply andb_true_iff in Hds. destruct Hds as [Hd Hds].
    cbn [app digits]. rewrite Hd. now rewrite IH.
Qed.

Lemma match_here_group (s group : list ascii) :
  match_here s = Some group -> group <> [] /\ forallb is_digit group = true.
Proof.
  unfold match_here.
  destruct (literal "Photon" s) as [s1|]; [|discriminate].
  destruct (spaces1 s1) as [s2|]; [|discriminate].
  destruct (literal "nr" s2) as [s3|]; [|discriminate].
  destruct (spaces1 (optional_separator s3)) as [s4|]; [|discriminate].
  pose proof (digits_all_digits s4) as Hd.
  destruct (digits s4) as [|d ds]; [discriminate|].
  intros H. inversion H; subst group. split; [discriminate|exact Hd].
Qed.

Lemma search_group (s group : list ascii) :
  search s = Some group -> group <> [] /\ forallb is_digit group = true.
Proof.
  induction s as [|c s IH]; cbn [search].
  - destruct (match_here []) as [g|] eqn:Hm; [|discriminate].
    intros H. inversion H; subst g. now apply match_here_group in Hm.
  - destruct (match_here (c :: s)) as [g|] eqn:Hm; [|exact IH].
    intros H. inversion H; subst g. now apply match_here_group in Hm.
Qed.

Definition digit_step (acc : Z) (c : ascii) : Z :=
  10 * acc + (Z.of_nat (nat_of_ascii c) - 48).

Lemma int_of_digits_fold (ds : list ascii) :
  int_of_digits ds = fold_left digit_step ds 0.
Proof. reflexivity. Qed.

Lemma is_digit_value (c : ascii) :
  is_digit c = true -> 0 <= Z.of_nat (nat_of_ascii c) - 48 <= 9.
Proof.
  unfold is_digit. intros H. apply andb_true_iff in H. destruct H as [H1 H2].
  apply Nat.leb_le in H1, H2. lia.
Qed.

Lemma fold_digits_nonneg (ds : list ascii) (acc : Z) :
  forallb is_digit ds = true -> 0 <= acc -> 0 <= fold_left digit_step ds acc.
Proof.
  revert acc. induction ds as [|d ds IH]; intros acc Hds Hacc; [exact Hacc|].
  simpl in Hds. apply andb_true_iff in Hds. destruct Hds as [Hd Hds].
  simpl. apply IH; [exact Hds|]. unfold digit_step.
  pose proof (is_digit_value d Hd). lia.
Qed.

(** *** The decimal text of a number *)

Lemma pretty_N_char_digit (x : N) :
  (x < 10)%N ->
  is_digit (pretty_N_char x) = true
  /\ Z.of_nat (nat_of_ascii (pretty_N_char x)) - 48 = Z.of_N x.
Proof.
  intros Hx.
  assert (x = 0 \/ x = 1 \/ x = 2 \/ x = 3 \/ x = 4 \/ x = 5 \/ x = 6 \/ x = 7
          \/ x = 8 \/ x = 9)%N as Hcases by lia.
  repeat (destruct Hcases as [->|Hcases]; [split; reflexivity|]).
  subst x. split; reflexivity.
Qed.

Lemma pretty_N_go_digits (x : N) (s : string) :
  forallb is_digit (list_ascii_of_string (pretty_N_go x s))
  = forallb is_digit (list_ascii_of_string s).
Proof.
  revert s. induction (N.lt_wf_0 x) as [x _ IH]; intros s.
  destruct (N.eq_dec x 0%N) as [->|Hx]; [now rewrite pretty_N_go_0|].
  rewrite pretty_N_go_step by lia.
  rewrite IH by (apply N.div_lt; lia).
  cbn [list_ascii_of_string forallb].
  destruct (pretty_N_char_digit (x mod 10)%N) as [-> _]; [|reflexivity].
  apply N.mod_lt. lia.
Qed.

Lemma pretty_N_go_value (x : N) (s : string) :
  fold_left digit_step (list_ascii_of_string (pretty_N_go x s)) 0
  = fold_left digit_step (list_ascii_of_string s) (Z.of_N x).
Proof.
  revert s. induction (N.lt_wf_0 x) as [x _ IH]; intros s.
  destruct (N.eq_dec x 0%N) as [->|Hx]; [now rewrite pretty_N_go_0|].
  rewrite pretty_N_go_step by lia.
  rewrite IH by (apply N.div_lt; lia).
  cbn [list_ascii_of_string fold_left]. f_equal. unfold digit_step.
  destruct (pretty_N_char_digit (x mod 10)%N) as [_ ->]; [apply N.mod_lt; lia|].
  rewrite (N.div_mod x 10%N) at 3 by lia. lia.
Qed.

Lemma pretty_N_go_length (k : nat) :
  forall (x : N) (s : string),
    (x < 10 ^ N.of_nat k)%N ->
    (String.length (pretty_N_go x s) <= k + String.length s)%nat.
Proof.
  induction k as [|k IH]; intros x s Hx.
  - assert (x = 0%N) as -> by (simpl in Hx; lia). rewrite pretty_N_go_0. lia.
  - destruct (N.eq_dec x 0%N) as [->|Hnz]; [rewrite pretty_N_go_0; lia|].
    rewrite pretty_N_go_step by lia.
    etransitivity; [apply IH|simpl; lia].
    apply N.Div0.div_lt_upper_bound.
    replace (N.of_nat (S k)) with (N.succ (N.of_nat k)) in Hx by lia.
    now rewrite N.pow_succ_r' in Hx.
Qed.

Lemma pretty_N_go_nonempty (x : N) (s : string) :
  (0 < x)%N -> pretty_N_go x s <> "".
Proof.
  revert s. induction (N.lt_wf_0 x) as [x _ IH]; intros s Hx.
  rewrite pretty_N_go_step by exact Hx.
  destruct (N.eq_dec (x / 10)%N 0%N) as [E|Hnz].
  - rewrite E, pretty_N_go_0. discriminate.
  - apply IH; [apply N.div_lt; lia|now apply N.neq_0_lt_0].
Qed.

(** The decimal text of a number that is not negative: digits only, at
    least one, of the number's value, and no longer than the bound on the
    number allows. *)
Lemma pretty_decimal (n : Z) :
  0 <= n ->
  forallb is_digit (list_ascii_of_string (pretty n)) = true
  /\ list_ascii_of_string (pretty n) <> []
  /\ int_of_digits (list_ascii_of_string (pretty n)) = n
  /\ forall k : nat, n < 10 ^ Z.of_nat k ->
       (length (list_ascii_of_string (pretty n)) <= Nat.max k 1)%nat.
Proof.
  intros Hn. destruct n as [|p|p]; [|clear Hn|lia].
  - repeat split; try reflexivity; [discriminate|]. intros k _. simpl. lia.
  - change (pretty (Z.pos p)) with (pretty (N.pos p)).
    unfold pretty, pretty_N. destruct (decide (N.pos p = 0%N)) as [E|_]; [discriminate|].
    split; [now rewrite pretty_N_go_digits|]. split; [|split].
    + intros E. apply (pretty_N_go_nonempty (N.pos p) ""); [lia|].
      destruct (pretty_N_go (N.pos p) ""); [reflexivity|discriminate].
    + rewrite int_of_digits_fold, pretty_N_go_value. reflexivity.
    + intros k Hk.
      pose proof (pretty_N_go_length k (N.pos p) "") as Hlen.
      assert (length (list_ascii_of_string (pretty_N_go (N.pos p) ""))
              = String.length (pretty_N_go (N.pos p) "")) as ->.
      { generalize (pretty_N_go (N.pos p) ""). intros s.
        induction s as [|c s IHs]; simpl; congruence. }
      simpl in Hlen. etransitivity; [apply Hlen|lia].
      apply N2Z.inj_lt. rewrite N2Z.inj_pow, nat_N_Z. exact Hk.
Qed.

(** *** Matching, stage by stage *)

Lemma list_ascii_app (a b : string) :
  list_ascii_of_string (a +:+ b) = (list_ascii_of_string a ++ list_ascii_of_string b)%list.
Proof.
  induction a as [|c a IH]; [reflexivity|].
  change (String c a +:+ b) with (String c (a +:+ b)). simpl. now rewrite IH.
Qed.

Lemma search_unfold (s : list ascii) :
  search s
  = match match_here s with
    | Some group => Some group
    | None => match s with [] => None | _ :: s' => search s' end
    end.
Proof. destruct s; reflexivity. Qed.

(** Two texts that differ at most in the case of their letters. *)
Definition same_letters (a b : string) : Prop :=
  map lower (list_ascii_of_string a) = map lower (list_ascii_of_string b).

(** A text of one or more whitespace characters. *)
Definition blank (sp : string) : Prop :=
  sp <> "" /\ forallb is_space (list_ascii_of_string sp) = true.

(** The first character of [s], if any, satisfies [ok]. *)
Definition starts (ok : ascii -> bool) (s : list ascii) : Prop :=
  match s with
  | c :: _ => ok c = true
  | [] => True
  end.

Lemma literal_same_letters (lit : string) (word s : list ascii) :
  map lower word = map lower (list_ascii_of_string lit) ->
  literal lit (word ++ s)%list = Some s.
Proof.
  revert word. induction lit as [|l lit IH]; intros word Hw.
  - destruct word; [reflexivity|discriminate].
  - destruct word as [|c word]; [discriminate|].
    simpl in Hw. injection Hw as Hc Hrest.
    cbn [app literal]. rewrite Hc.
    replace (Ascii.eqb (lower l) (lower l)) with true by (symmetry; apply Ascii.eqb_refl).
    now apply IH.
Qed.

Lemma skip_spaces_app (sp s : list ascii) :
  forallb is_space sp = true -> starts (fun c => negb (is_space c)) s ->
  skip_spaces (sp ++ s)%list = s.
Proof.
  intros Hsp Hs. induction sp as [|c sp IH].
  - destruct s as [|d s]; [reflexivity|]. simpl in *.
    apply negb_true_iff in Hs. now rewrite Hs.
  - simpl in Hsp. apply andb_true_iff in Hsp. destruct Hsp as [Hc Hsp].
    cbn [app skip_spaces]. rewrite Hc. now apply IH.
Qed.

Lemma spaces1_app (sp s : list ascii) :
  sp <> [] -> forallb is_space sp = true -> starts (fun c => negb (is_space c)) s ->
  spaces1 (sp ++ s)%list = Some s.
Proof.
  intros Hne Hsp Hs. destruct sp as [|c sp]; [contradiction|].
  simpl in Hsp. apply andb_true_iff in Hsp. destruct Hsp as [Hc Hsp].
  cbn [app spaces1]. rewrite Hc. now rewrite skip_spaces_app.
Qed.

Lemma is_space_no_separator (c : ascii) :
  is_space c = true -> Ascii.eqb c ":" || Ascii.eqb c "." = false.
Proof.
  intros Hc. destruct (Ascii.eqb_spec c ":"%char) as [->|_]; [discriminate|].
  destruct (Ascii.eqb_spec c "."%char) as [->|_]; [discriminate|reflexivity].
Qed.

Lemma is_digit_no_space (c : ascii) : is_digit c = true -> is_space c = false.
Proof.
  unfold is_digit, is_space. intros H.
  apply andb_true_iff in H. destruct H as [H1 H2]. apply Nat.leb_le in H1, H2.
  apply orb_false_iff. split; apply andb_false_iff.
  - right. apply Nat.leb_gt. lia.
  - right. apply Nat.leb_gt. lia.
Qed.

(** An interpreter that limits the length of the digit strings it
    converts accepts at least 640 digits. *)
Lemma py_int_digits_short `{RT : PyRuntime} (ds : list ascii) :
  (length ds <= 640)%nat -> py_int_digits ds = Ok (int_of_digits ds).
Proof.
  intros Hlen. unfold py_int_digits.
  pose proof int_max_str_digits_valid as Hv.
  apply orb_true_iff in Hv. destruct Hv as [Hv|Hv].
  - apply Nat.eqb_eq in Hv. now rewrite Hv.
  - apply Nat.leb_le in Hv.
    replace (int_max_str_digits <? length ds)%nat with false;
      [now rewrite andb_false_r|].
    symmetry. apply Nat.ltb_ge. lia.
Qed.

(** *** The case of the letters *)

Lemma lower_idempotent (c : ascii) : lower (lower c) = lower c.
Proof. destruct c as [[] [] [] [] [] [] [] []]; reflexivity. Qed.

Lemma is_space_lower (c : ascii) : is_space (lower c) = is_space c.
Proof. destruct c as [[] [] [] [] [] [] [] []]; reflexivity. Qed.

Lemma is_digit_lower (c : ascii) : is_digit (lower c) = is_digit c.
Proof. destruct c as [[] [] [] [] [] [] [] []]; reflexivity. Qed.

Lemma digit_lower (c : ascii) : is_digit c = true -> lower c = c.
Proof. destruct c as [[] [] [] [] [] [] [] []]; (reflexivity || discriminate). Qed.

Lemma separator_lower (c : ascii) :
  Ascii.eqb (lower c) ":" || Ascii.eqb (lower c) "."
  = Ascii.eqb c ":" || Ascii.eqb c ".".
Proof. destruct c as [[] [] [] [] [] [] [] []]; reflexivity. Qed.

Lemma literal_lower (lit : string) (s : list ascii) :
  literal lit (map lower s) = option_map (map lower) (literal lit s).
Proof.
  revert s. induction lit as [|l lit IH]; intros s; [reflexivity|].
  destruct s as [|c s]; [reflexivity|].
  cbn [map literal]. rewrite lower_idempotent.
  destruct (Ascii.eqb (lower c) (lower l)); [apply IH|reflexivity].
Qed.

Lemma skip_spaces_lower (s : list ascii) :
  skip_spaces (map lower s) = map lower (skip_spaces s).
Proof.
  induction s as [|c s IH]; [reflexivity|].
  cbn [map skip_spaces]. rewrite is_space_lower.
  destruct (is_space c); [exact IH|reflexivity].
Qed.

Lemma spaces1_lower (s : list ascii) :
  spaces1 (map lower s) = option_map (map lower) (spaces1 s).
Proof.
  destruct s as [|c s]; [reflexivity|].
  cbn [map spaces1]. rewrite is_space_lower.
  destruct (is_space c); [|reflexivity]. simpl. now rewrite skip_spaces_lower.
Qed.

Lemma optional_separator_lower (s : list ascii) :
  optional_separator (map lower s) = map lower (optional_separator s).
Proof.
  destruct s as [|c s]; [reflexivity|].
  cbn [map optional_separator]. rewrite separator_lower.
  now destruct (Ascii.eqb c ":" || Ascii.eqb c ".").
Qed.

Lemma digits_lower (s : list ascii) : digits (map lower s) = digits s.
Proof.
  induction s as [|c s IH]; [reflexivity|].
  cbn [map digits]. rewrite is_digit_lower.
  destruct (is_digit c) eqn:Hc; [|reflexivity].
  now rewrite IH, (digit_lower c Hc).
Qed.

Lemma match_here_lower (s : list ascii) : match_here (map lower s) = match_here s.
Proof.
  unfold match_here. rewrite literal_lower.
  destruct (literal "Photon" s) as [s1|]; [|reflexivity]. cbn [option_map].
  rewrite spaces1_lower.
  destruct (spaces1 s1) as [s2|]; [|reflexivity]. cbn [option_map].
  rewrite literal_lower.
  destruct (literal "nr" s2) as [s3|]; [|reflexivity]. cbn [option_map].
  rewrite optional_separator_lower, spaces1_lower.
  destruct (spaces1 (optional_separator s3)) as [s4|]; [|reflexivity]. cbn [option_map].
  now rewrite digits_lower.
Qed.

Lemma search_lower (s : list ascii) : search (map lower s) = search s.
Proof.
  induction s as [|c s IH].
  - reflexivity.
  - rewrite (search_unfold (c :: s)), (search_unfold (map lower (c :: s))).
    rewrite match_here_lower. cbn [map]. now rewrite IH.
Qed.

Section Laws.

Context `{RT : PyRuntime}.

(** X1: a progress value reported for a line is never negative: it is the
    value of the digits the pattern captured, of which there is at least
    one. *)
Theorem photon_progress_is_a_count (total_photons : pyval) (line : string) (n : Z) :
  SingleRun.progress_of total_photons line = Some n ->
  0 <= n
  /\ exists group,
       photon_match line = Some group
       /\ group <> []
       /\ forallb is_digit group = true
       /\ n = int_of_digits group.
Proof.
  unfold SingleRun.progress_of. destruct (py_truthy total_photons); [|discriminate].
  destruct (photon_match line) as [group|] eqn:Hm; [|discriminate].
  unfold py_int_digits. destruct (_ && _); [discriminate|].
  intros H. inversion H; subst n.
  destruct (search_group _ _ Hm) as [Hne Hd].
  split; [now apply fold_digits_nonneg|]. now exists group.
Qed.

(** X2: a line made of the word "Photon", whitespace, "nr", an optional
    colon or period, whitespace and the decimal text of a number reports
    that number, whatever the case of the letters and whatever follows the
    digits, as long as it is no digit. *)
Theorem photon_line_reports_its_number
    (total_photons : pyval) (word1 sp1 word2 sep sp2 rest : string) (n : Z) :
  py_truthy total_photons = true ->
  same_letters word1 "Photon" -> blank sp1 ->
  same_letters word2 "nr" -> sep = "" \/ sep = ":" \/ sep = "." -> blank sp2 ->
  0 <= n < 10 ^ 640 ->
  starts (fun c => negb (is_digit c)) (list_ascii_of_string rest) ->
  SingleRun.progress_of total_photons
    (word1 +:+ sp1 +:+ word2 +:+ sep +:+ sp2 +:+ pretty n +:+ rest)
  = Some n.
Proof.
  intros Htotal Hw1 [Hsp1 Hb1] Hw2 Hsep [Hsp2 Hb2] Hn Hrest.
  destruct (pretty_decimal n) as (Hd & Hne & Hval & Hlen); [lia|].
  assert (Hhead : forall tail,
            starts (fun c => negb (is_space c))
              (list_ascii_of_string (pretty n) ++ tail)%list).
  { intros tail. destruct (list_ascii_of_string (pretty n)) as [|d ds]; [contradiction|].
    simpl in *. apply andb_true_iff in Hd. destruct Hd as [Hd _].
    now rewrite (is_digit_no_space d Hd). }
  assert (Hmatch : photon_match
                     (word1 +:+ sp1 +:+ word2 +:+ sep +:+ sp2 +:+ pretty n +:+ rest)
                   = Some (list_ascii_of_string (pretty n))).
  { unfold photon_match. rewrite search_unfold, !list_ascii_app.
    unfold match_here.
    rewrite (literal_same_letters "Photon") by exact Hw1.
    rewrite spaces1_app; [|now destruct sp1|exact Hb1|].
    2:{ unfold same_letters in Hw2.
        destruct (list_ascii_of_string word2) as [|c w]; [discriminate|].
        simpl in Hw2. injection Hw2 as Hc _. simpl.
        destruct (is_space c) eqn:Hs; [|reflexivity].
        rewrite <- is_space_lower in Hs. rewrite Hc in Hs. discriminate. }
    rewrite (literal_same_letters "nr") by exact Hw2.
    assert (Hopt : optional_separator
                     (list_ascii_of_string sep
                      ++ list_ascii_of_string sp2
                      ++ list_ascii_of_string (pretty n) ++ list_ascii_of_string rest)%list
                   = (list_ascii_of_string sp2
                      ++ list_ascii_of_string (pretty n) ++ list_ascii_of_string rest)%list).
    { destruct Hsep as [->|[->| ->]]; [|reflexivity|reflexivity].
      destruct (list_ascii_of_string sp2) as [|c sp] eqn:E; [now destruct sp2|].
      simpl in Hb2. apply andb_true_iff in Hb2. destruct Hb2 as [Hc _].
      cbn [list_ascii_of_string app optional_separator].
      now rewrite (is_space_no_separator c Hc). }
    rewrite Hopt.
    rewrite spaces1_app; [|now destruct sp2|exact Hb2|apply Hhead].
    rewrite digits_app; [|exact Hd|].
    2:{ destruct (list_ascii_of_string rest) as [|c r]; [exact I|].
        simpl in Hrest. now apply negb_true_iff in Hrest. }
    destruct (list_ascii_of_string (pretty n)); [contradiction|reflexivity]. }
  unfold SingleRun.progress_of. rewrite Htotal, Hmatch.
  rewrite py_int_digits_short; [now rewrite Hval|].
  specialize (Hlen 640%nat). etransitivity; [apply Hlen|reflexivity].
  change (Z.of_nat 640) with 640. lia.
Qed.

(** X3: the pattern ignores the case of the letters: two lines that differ
    only in case report the same digits. *)
Theorem photon_match_ignores_case (line1 line2 : string) :
  same_letters line1 line2 -> photon_match line1 = photon_match line2.
Proof.
  unfold same_letters, photon_match. intros H.
  now rewrite <- (search_lower (list_ascii_of_string line1)), H, search_lower.
Qed.

End Laws.

Section Examples.

#[local] Existing Instance example_runtime.

Lemma photon_progress_is_a_count_witness :
  0 <= 99
  /\ exists group,
       photon_match "Photon nr. 99" = Some group
       /\ group <> []
       /\ forallb is_digit group = true
       /\ 99 = int_of_digits group.
Proof.
  apply (photon_progress_is_a_count (PInt 10000) "Photon nr. 99" 99). reflexivity.
Defined.

Lemma photon_line_reports_its_number_witness :
  SingleRun.progress_of (PInt 100000)
    ("PHOTON" +:+ " " +:+ "Nr" +:+ "." +:+ "  " +:+ pretty 4821 +:+ " of 100000")
  = Some 4821.
Proof.
  apply (photon_line_reports_its_number (PInt 100000) "PHOTON" " " "Nr" "." "  "
           " of 100000" 4821);
    first [ reflexivity
          | split; [discriminate|reflexivity]
          | right; right; reflexivity
          | split; [lia|reflexivity] ].
Defined.

Lemma photon_match_ignores_case_witness :
  photon_match "photon NR: 7" = photon_match "Photon nr: 7".
Proof. apply photon_match_ignores_case. reflexivity. Defined.

End Examples.

End PhotonPattern.

(** ** The progress tracker: invariants of its counters *)

Module TrackerLaws.

Import Text TerminalUI.

(** A call of one of the tracker's methods; the two that read the clock
    carry the reading. *)
Inductive method : Type :=
| Start
| Stop
| Log (message : string)
| SetPhaseTotal (total_steps : Z)
| UpdateProgress (step : Z)
| StartPhase (phase_name : string) (now : float)
| CompletePhase (phase_name : string) (now : float)
| PrintSummary.

Section Laws.

Context `{RT : PyRuntime}.

Definition invoke (c : method) : M ui unit :=
  match c with
  | Start => start
  | Stop => stop
  | Log message => log message
  | SetPhaseTotal n => set_phase_total n
  | UpdateProgress n => update_progress n
  | StartPhase name now => start_phase name now
  | CompletePhase name now => complete_phase name now
  | PrintSummary => print_summary
  end.

(** The tracker and console after a sequence of calls, each of which
    returned or raised; a caller that catches the exception goes on with
    the object as the failed call left it. *)
Definition after (calls : list method) (s : ui) : ui :=
  fold_left (fun s c => (invoke c s).2) calls s.

(** What the tracker keeps true of its overall bar: the total is the
    number of phases, the completed count lies between 0 and the total,
    and the current index is -1 or the position of a phase. *)
Definition counters_ok (names : list string) (t : AdvancedPhaseTracker) : Prop :=
  phases t = names
  /\ total (overall_task t) = Some (Z.of_nat (length names))
  /\ 0 <= completed (overall_task t) <= Z.of_nat (length names)
  /\ -1 <= current_phase_idx t < Z.of_nat (length names).

Lemma index_bounds (l : list string) (name : string) (i : Z) :
  index l name = Ok i -> 0 <= i < Z.of_nat (length l).
Proof.
  revert i. induction l as [|x l IH]; intros i; simpl; [discriminate|].
  destruct (String.eqb x name).
  - intros H. inversion H. lia.
  - destruct (index l name) as [j|e]; simpl; [|discriminate].
    intros H. inversion H. specialize (IH j eq_refl). lia.
Qed.

(** [index] finds the first position of a name that occurs, and raises
    ValueError for a name that does not. *)
Lemma index_spec (l : list string) (name : string) :
  match index l name with
  | Ok i =>
      l !! Z.to_nat i = Some name
      /\ forall j : nat, (j < Z.to_nat i)%nat -> l !! j <> Some name
  | Raise e => e = ValueError /\ name ∉ l
  end.
Proof.
  induction l as [|x l IH]; simpl.
  - split; [reflexivity|apply not_elem_of_nil].
  - destruct (String.eqb_spec x name) as [->|Hne].
    + split; [reflexivity|]. intros j Hj. simpl in Hj. lia.
    + pose proof (index_bounds l name) as Hb.
      destruct (index l name) as [i|e]; simpl.
      * specialize (Hb i eq_refl). destruct IH as [Hi Hfirst].
        replace (Z.to_nat (i + 1)) with (S (Z.to_nat i)) by lia.
        split; [exact Hi|]. intros [|j] Hj; simpl.
        -- congruence.
        -- apply Hfirst. lia.
      * destruct IH as [-> Hnot]. split; [reflexivity|].
        apply not_elem_of_cons. split; [congruence|exact Hnot].
Qed.

Lemma invoke_keeps_counters (names : list string) (c : method)
    (t : AdvancedPhaseTracker) (out : list output) :
  counters_ok names t -> counters_ok names (invoke c (t, out)).2.1.
Proof.
  intros (Hp & Ht & Hc & Hi).
  destruct c as [| |message|n|n|name now|name now|];
    try (unfold invoke, start, stop, log, set_phase_total, update_progress, print_summary,
           console_print, on_tracker, modifyM, counters_ok; cbn;
         repeat split; (assumption || lia)).
  - (* start_phase *)
    unfold start_phase, bindM, getsM, liftM, on_tracker, modifyM. cbn.
    pose proof (index_bounds (phases t) name) as Hb.
    destruct (index (phases t) name) as [i|e]; cbn.
    + specialize (Hb i eq_refl). rewrite Hp in Hb.
      unfold counters_ok; cbn. repeat split; (assumption || lia).
    + unfold counters_ok; cbn. repeat split; (assumption || lia).
  - (* complete_phase *)
    unfold complete_phase, bindM, getsM, liftM, on_tracker, modifyM. cbn.
    destruct (time_truthy (phase_start_time t)); cbn.
    + destruct (int_of_float _); unfold log, console_print, modifyM, counters_ok; cbn;
        repeat split; (assumption || lia).
    + unfold counters_ok; cbn. repeat split; (assumption || lia).
Qed.

(** X4: on a tracker created for a list of phases, whatever methods are
    called with whatever arguments, and whether they return or raise, the
    total of the overall bar stays the number of phases and its completed
    count stays between 0 and that total. *)
Theorem overall_bar_stays_within_total
    (names : list string) (estimates : option dict) (created : float)
    (calls : list method) (out : list output) :
  let t := (after calls (init names estimates created, out)).1 in
  phases t = names
  /\ total (overall_task t) = Some (Z.of_nat (length names))
  /\ 0 <= completed (overall_task t) <= Z.of_nat (length names)
  /\ -1 <= current_phase_idx t < Z.of_nat (length names).
Proof.
  cbv zeta.
  assert (Hinit : counters_ok names (init names estimates created)).
  { unfold counters_ok, init. cbn. repeat split; lia. }
  generalize dependent (init names estimates created). revert out.
  induction calls as [|c calls IH]; intros out t Ht; [exact Ht|].
  cbn [after fold_left].
  destruct (invoke c (t, out)) as [r [t' out']] eqn:Hrun.
  apply (IH out' t').
  pose proof (invoke_keeps_counters names c t out Ht) as Hk.
  now rewrite Hrun in Hk.
Qed.



End Laws.

Section Examples.

#[local] Existing Instance example_runtime.



End Examples.

End TrackerLaws.

(** ** single_run.py: what a run does and what it never does *)

Module RunLaws.

Import Text TerminalUI SingleRun.

(** *** Lookups that can fail *)

Lemma dict_lookup_spec (d : dict) (key : string) :
  match dict_lookup d key with
  | Ok v => (key, v) ∈ d /\ key ∈ dict_keys d
  | Raise e => e = KeyError key /\ key ∉ dict_keys d
  end.
Proof.
  induction d as [|[k v] d IH]; simpl.
  - split; [reflexivity|apply not_elem_of_nil].
  - destruct (String.eqb_spec k key) as [->|Hne].
    + split; apply elem_of_cons; now left.
    + destruct (dict_lookup d key) as [w|e].
      * destruct IH as [H1 H2]. split; apply elem_of_cons; now right.
      * destruct IH as [-> Hnot]. split; [reflexivity|].
        apply not_elem_of_cons. split; [congruence|exact Hnot].
Qed.

(** X7: the keyword arguments of the dust setup are read from the
    parameters in the order of the dict display: when every parameter is
    present each keyword carries the value of its parameter, and otherwise
    the KeyError names the first parameter, in that order, that is
    missing.  Every keyword is read from the parameter of the same name,
    except [dustkappa_ext], which is read from [dustkappa]. *)
Theorem read_params_reads_in_order (params : dict) (keys : list (string * string)) :
  (match read_params params keys with
  | Ok args =>
      map fst args = map fst keys
      /\ Forall2 (fun kk item => dict_lookup params kk.2 = Ok item.2) keys args
  | Raise e =>
      exists before key after,
        map snd keys = (before ++ key :: after)%list
        /\ (forall k, k ∈ before -> k ∈ dict_keys params)
        /\ (key ∉ dict_keys params)
        /\ e = KeyError key
   end)
  /\ Forall (fun kk => kk.1 = kk.2 \/ kk = ("dustkappa_ext", "dustkappa")) dust_setup_keys.
Proof.
  split.
  - induction keys as [|[kw key] keys IH]; cbn [read_params].
    + split; [reflexivity|constructor].
    + pose proof (dict_lookup_spec params key) as Hkey.
      destruct (dict_lookup params key) as [v|e] eqn:Hv; cbn [bind].
      * destruct (read_params params keys) as [rest|e]; cbn [bind].
        -- destruct IH as [Hk Hall]. split; [cbn; now rewrite Hk|].
           constructor; [exact Hv|exact Hall].
        -- destruct IH as (before & key' & after & Hsplit & Hbefore & Hmiss & ->).
           exists (key :: before), key', after. cbn [map snd]. rewrite Hsplit.
           split; [reflexivity|]. split; [|auto].
           intros k Hk. apply elem_of_cons in Hk. destruct Hk as [->|Hk];
             [apply Hkey|now apply Hbefore].
      * destruct Hkey as [-> Hmiss].
        exists [], key, (map snd keys). repeat split; try assumption.
        intros k Hk. now apply elem_of_nil in Hk.
  - unfold dust_setup_keys. repeat (constructor; [auto|]). constructor.
Qed.

Section Laws.

Context `{RT : PyRuntime}.
Variable h : host.

(** One step of a proof that a statement is quiet, chosen by the shape of
    the statement; [side] closes the conditions on the event class. *)
Ltac quiet_auto side :=
  lazymatch goal with
  | |- quiet _ (bindM _ _) => apply quiet_bind; [|intros ?]
  | |- quiet _ (retM _) => apply quiet_ret
  | |- quiet _ (raiseM _) => apply quiet_raise
  | |- quiet _ (liftM _) => apply quiet_lift
  | |- quiet _ (getsM _) => apply quiet_gets
  | |- quiet _ (time_time _) => apply quiet_time_time
  | |- quiet _ (time_strftime _) => apply quiet_time_strftime
  | |- quiet _ (print_error _) => apply quiet_print_error
  | |- quiet _ (print_stdout _) => apply quiet_print_stdout
  | |- quiet _ (record _) => apply quiet_record; side
  | |- quiet _ (logging_info _) => apply quiet_logging_info; side
  | |- quiet _ (logging_error _) => apply quiet_logging_error; side
  | |- quiet _ (tracker_do _ _) => apply quiet_tracker_do; side
  | |- quiet _ (call _ _) => apply quiet_call; side
  | |- quiet _ (suppress_output _) => apply quiet_suppress_output; [intros ?; side|]
  | |- quiet _ (try_except _ _) => apply quiet_try_except; [|intros ?]
  | |- quiet _ (try_finally _ _) => apply quiet_try_finally
  | |- quiet _ (if ?b then _ else _) => destruct b
  end.

(** *** Saving the output files *)

(** What saving one file adds to the trace. *)
Definition save_events (run_dir : string) (item : string * string) : list event :=
  if path_exists h item.1 then
    [Library (GetSize item.1);
     Library (Copy item.1 (path_join run_dir item.2));
     Logged INFO ("Saved: " +:+ item.1 +:+ " ("
                  +:+ fixed_float 2 (PrimFloat.div (getsize h item.1) 1048576%float)
                  +:+ " MB) -> " +:+ item.2)]
  else [].

(** X8: [save_files] skips a file that does not exist without a word, and
    copies each file that does to the run directory under its target name,
    recording its size; when no size query and no copy fails it returns
    normally after having gone through the whole list in order. *)
Theorem save_files_skips_missing
    (run_dir : string) (items : list (string * string)) (w : world) :
  (forall item, In item items -> path_exists h item.1 = true ->
     library h (GetSize item.1) = None
     /\ library h (Copy item.1 (path_join run_dir item.2)) = None) ->
  (save_files h run_dir items w).1 = Ok tt
  /\ w_trace (save_files h run_dir items w).2
     = (w_trace w ++ flat_map (save_events run_dir) items)%list.
Proof.
  revert w. induction items as [|[src dst] items IH]; intros w Hok.
  - cbn. now rewrite app_nil_r.
  - cbn [save_files flat_map].
    assert (Hone : (save_file h run_dir (src, dst) w).1 = Ok tt
                   /\ w_trace (save_file h run_dir (src, dst) w).2
                      = (w_trace w ++ save_events run_dir (src, dst))%list).
    { unfold save_file, save_events. cbn [fst snd].
      destruct (path_exists h src) eqn:Hex.
      - destruct (Hok (src, dst) (or_introl eq_refl) Hex) as [Hsize Hcopy].
        cbn [fst snd] in Hsize, Hcopy.
        unfold call, logging_info, record, modifyM, bindM, retM.
        cbn. rewrite Hsize. cbn. rewrite Hcopy. cbn.
        now rewrite <- !app_assoc.
      - cbn. now rewrite app_nil_r. }
    destruct Hone as [Hr Htr]. unfold bindM.
    destruct (save_file h run_dir (src, dst) w) as [r w1]. cbn [fst snd] in *. subst r.
    destruct (IH w1) as [Hr' Htr']; [intros item Hin; apply Hok; now right|].
    rewrite Hr', Htr', Htr. now rewrite app_assoc.
Qed.

(** *** The events of the phases *)

(** The calls of the image phase into radmc3dPy, matplotlib and the file
    system. *)
Definition image_call (c : lib_call) : bool :=
  match c with
  | ReadImage | WriteFits _ _ | Move _ _ | ImportPyplot | Figure | AddSubplot
  | PlotImage | SaveFig _ | CloseFigure => true
  | _ => false
  end.

Definition in_list (name : string) (l : list string) : bool :=
  existsb (String.eqb name) l.

(** The events the phases of a run can add to the trace: log records,
    processes, descriptor calls, tracker calls that start or complete one
    of the phases the tracker was created with or report within a phase,
    and library calls other than the logbook entry, those of the image
    phase only when images are made. *)
Definition phase_event (make_images : bool) (e : event) : bool :=
  match e with
  | TrackerCall (CStartPhase name | CCompletePhase name) =>
      in_list name (phase_list make_images)
  | TrackerCall (CLog _ | CSetPhaseTotal _ | CUpdateProgress _) => true
  | TrackerCall _ => false
  | Library (LogSimulation _ _ _) => false
  | Library c => if image_call c then make_images else true
  | _ => true
  end.

Lemma runner_is_phase_event (make_images : bool) (e : event) :
  runner_event e = true -> phase_event make_images e = true.
Proof. destruct e as [[]| | | | |]; simpl; congruence. Qed.

Lemma quiet_save_files_copy (p : event -> bool) (run_dir : string)
    (items : list (string * string)) :
  (forall l m, p (Logged l m) = true) ->
  (forall src, p (Library (GetSize src)) = true) ->
  (forall src dst, p (Library (Copy src dst)) = true) ->
  quiet p (save_files h run_dir items).
Proof.
  intros Hlog Hsize Hcopy.
  induction items as [|[src dst] items IH]; simpl; [apply quiet_ret|].
  apply quiet_bind; [|intros _; exact IH].
  repeat quiet_auto ltac:(first [apply Hlog | apply Hsize | apply Hcopy]).
Qed.

Lemma quiet_run_phases (params : dict) (run_dir name timestamp : string)
    (make_images : bool) (wavelength threads : pyval) (use_silencer : bool) :
  quiet (phase_event make_images)
    (run_phases h params run_dir name timestamp make_images wavelength threads
       use_silencer).
Proof.
  unfold run_phases, silenced.
  repeat first
    [ quiet_auto ltac:(first [reflexivity | destruct make_images; reflexivity])
    | lazymatch goal with
      | |- quiet _ (log_phase_start _ _) => apply quiet_log_phase_start; intros; reflexivity
      | |- quiet _ (log_phase_end _ _ _) => apply quiet_log_phase_end; intros; reflexivity
      | |- quiet _ (save_files _ _ _) =>
          apply quiet_save_files_copy; intros; reflexivity
      | |- quiet _ (run_radmc_command _ _ _) =>
          (eapply quiet_weaken; [|apply quiet_run_radmc_command]);
          apply runner_is_phase_event
      end ].
Qed.

(** *** The frame around the phases *)

Lemma tracker_do_print_summary (w : world) :
  (tracker_do h CPrintSummary w).1 = Ok tt
  /\ w_trace (tracker_do h CPrintSummary w).2
     = (w_trace w ++ [TrackerCall CPrintSummary])%list.
Proof.
  unfold tracker_do, record, modifyM, getsM, bindM. cbn [fst snd w_tracker set_trace].
  destruct (w_tracker w) as [[]|t]; cbn; auto.
Qed.

(** The logbook entry: whatever the call does, the statement returns. *)
Lemma logbook_entry_run (name timestamp : string) (w : world) :
  let entry := try_except
                 (now <~ time_time h ;; call h (LogSimulation name timestamp "SUCCESS"))
                 (fun _ => retM tt) in
  (entry w).1 = Ok tt
  /\ w_trace (entry w).2
     = (w_trace w ++ [Library (LogSimulation name timestamp "SUCCESS")])%list.
Proof.
  cbv zeta. unfold try_except, bindM, time_time, call, record, modifyM, bindM, retM, raiseM.
  cbn. destruct (library h (LogSimulation name timestamp "SUCCESS")); cbn; auto.
Qed.

(** The value a run returns: what reading the spectrum, the stars and the
    grid returned. *)
Definition results : handle * handle * handle :=
  (ReturnOf (ReadSpectrum "spectrum.out"), ReturnOf ReadStars, ReturnOf ReadGrid).

(** What follows the phases in the trace. *)
Definition closing (name timestamp : string) (r : result unit) : list event :=
  match r with
  | Ok _ =>
      [TrackerCall CStop; Library (LogSimulation name timestamp "SUCCESS");
       TrackerCall CPrintSummary]
  | Raise e =>
      [TrackerCall CStop; Logged ERROR ("Simulation failed: " +:+ exn_str e)]
  end.

(** A run is the start of the tracker, the phases, and the closing: when
    the phases return, the run returns its results; when they raise, the
    run raises the same exception. *)
Lemma run_frame
    (params : dict) (run_dir name timestamp : string) (make_images : bool)
    (wavelength threads ui_mode : pyval) (w : world) :
  exists w3,
    w_trace w3 = (w_trace w ++ [TrackerCall CStart])%list
    /\ is_raw (w_tracker w3) = negb (is_advanced ui_mode)
    /\ let ph := run_phases h params run_dir name timestamp make_images wavelength
                   threads (is_advanced ui_mode) w3 in
       let run := run_single_simulation h params run_dir name timestamp make_images
                    wavelength threads ui_mode w in
       w_trace run.2 = (w_trace ph.2 ++ closing name timestamp ph.1)%list
       /\ run.1 = match ph.1 with
                  | Ok _ => Ok results
                  | Raise e => Raise e
                  end.
Proof.
  destruct (run_single_simulation h params run_dir name timestamp make_images
              wavelength threads ui_mode w) as [r final] eqn:Hrun.
  unfold run_single_simulation in Hrun.
  destruct (select_tracker_run h ui_mode make_images w) as (Hr1 & Ht1 & Hraw1).
  destruct (select_tracker h ui_mode make_images w) as [r1 w1] eqn:Hsel.
  cbn [fst snd] in *. subst r1. rewrite (bindM_ok _ _ _ _ _ Hsel) in Hrun.
  destruct (tracker_do_start h w1) as (Hr2 & Ht2 & Hraw2).
  destruct (tracker_do h CStart w1) as [r2 w2] eqn:Hstart.
  cbn [fst snd] in *. subst r2. rewrite (bindM_ok _ _ _ _ _ Hstart) in Hrun.
  rewrite (bindM_ok _ _ _ _ _ (time_time_run h w2)) in Hrun.
  exists (set_ticks (S (w_ticks w2)) w2).
  set (w3 := set_ticks (S (w_ticks w2)) w2) in *.
  split; [subst w3; cbn; congruence|].
  split; [subst w3; cbn; congruence|].
  cbv zeta.
  destruct (run_phases h params run_dir name timestamp make_images wavelength threads
              (is_advanced ui_mode) w3) as [rp w4] eqn:Hphases.
  cbn [fst snd]. unfold phases_body in Hrun. destruct rp as [[]|e].
  - destruct (tracker_do_stop h w4) as (Hr5 & Ht5 & _).
    destruct (tracker_do h CStop w4) as [r5 w5] eqn:Hstop.
    cbn [fst snd] in *. subst r5.
    destruct (logbook_entry_run name timestamp w5) as (Hr6 & Ht6). cbv zeta in Hr6, Ht6.
    match type of Hr6 with (?entry w5).1 = _ =>
      destruct (entry w5) as [r6 w6] eqn:Hentry
    end.
    cbn [fst snd] in *. subst r6.
    destruct (tracker_do_print_summary w6) as (Hr7 & Ht7).
    destruct (tracker_do h CPrintSummary w6) as [r7 w7] eqn:Hsummary.
    cbn [fst snd] in *. subst r7.
    erewrite try_except_ok in Hrun.
    2:{ erewrite bindM_ok by exact Hphases.
        erewrite bindM_ok by exact Hstop.
        erewrite bindM_ok by exact Hentry.
        erewrite bindM_ok by exact Hsummary.
        reflexivity. }
    inversion Hrun; subst r final. cbn [closing].
    rewrite Ht7, Ht6, Ht5, <- !app_assoc. split; reflexivity.
  - erewrite try_except_raise in Hrun by (apply bindM_raise; exact Hphases).
    destruct (@on_failure_run _ h (handle * handle * handle) e w4) as (Hr6 & Ht6).
    fold (@on_failure _ h (handle * handle * handle) e) in Hrun.
    rewrite Hrun in Hr6, Ht6. cbn [fst snd closing] in *.
    split; [exact Ht6|exact Hr6].
Qed.

(** The trace of a run: the start of the tracker, events of the phases,
    and the closing that fits the way the phases ended. *)
Lemma run_trace
    (params : dict) (run_dir name timestamp : string) (make_images : bool)
    (wavelength threads ui_mode : pyval) (w : world) :
  let run := run_single_simulation h params run_dir name timestamp make_images
               wavelength threads ui_mode w in
  exists (evs : list event) (rp : result unit),
    w_trace run.2
    = (w_trace w ++ TrackerCall CStart :: evs ++ closing name timestamp rp)%list
    /\ forallb (phase_event make_images) evs = true
    /\ run.1 = match rp with
               | Ok _ => Ok results
               | Raise e => Raise e
               end.
Proof.
  cbv zeta.
  destruct (run_frame params run_dir name timestamp make_images wavelength threads
              ui_mode w) as (w3 & Ht3 & _ & Hrun).
  cbv zeta in Hrun. destruct Hrun as [Htr Hr].
  destruct (quiet_run_phases params run_dir name timestamp make_images wavelength
              threads (is_advanced ui_mode) w3) as (_ & evs & Hevs & Hp).
  exists evs. eexists. split; [|split; [exact Hp|exact Hr]].
  rewrite Htr, Hevs, Ht3. now rewrite <- !app_assoc.
Qed.

Lemma phase_events_of_tracker (make_images : bool) (evs : list event) :
  forallb (phase_event make_images) evs = true ->
  ~ In (TrackerCall CStart) evs
  /\ ~ In (TrackerCall CStop) evs
  /\ ~ In (TrackerCall CPrintSummary) evs
  /\ stops evs = 0%nat.
Proof.
  intros Hp. rewrite forallb_forall in Hp.
  repeat split; try (intros Hin; apply Hp in Hin; discriminate).
  unfold stops. apply length_zero_iff_nil.
  destruct (List.filter is_stop evs) as [|e l] eqn:Hf; [reflexivity|].
  assert (Hin : In e (List.filter is_stop evs)) by (rewrite Hf; now left).
  apply filter_In in Hin. destruct Hin as [Hin Hstop].
  apply Hp in Hin. destruct e as [[]| | | | |]; discriminate.
Qed.

(** X9: in every run, however it ends, the tracker is started once, before
    anything else happens, and stopped once; after the stop it is sent
    nothing but [print_summary], and that exactly when the run returns. *)
Theorem tracker_started_and_stopped_once
    (params : dict) (run_dir name timestamp : string) (make_images : bool)
    (wavelength threads ui_mode : pyval) (w : world) :
  let run := run_single_simulation h params run_dir name timestamp make_images
               wavelength threads ui_mode w in
  exists evs before after,
    w_trace run.2 = (w_trace w ++ TrackerCall CStart :: evs)%list
    /\ ~ In (TrackerCall CStart) evs
    /\ stops evs = 1%nat
    /\ evs = (before ++ TrackerCall CStop :: after)%list
    /\ (forall c, In (TrackerCall c) after -> c = CPrintSummary)
    /\ (In (TrackerCall CPrintSummary) after <-> exists v, run.1 = Ok v).
Proof.
  cbv zeta.
  destruct (run_trace params run_dir name timestamp make_images wavelength threads
              ui_mode w) as (evs & rp & Htr & Hp & Hr).
  destruct (phase_events_of_tracker make_images evs Hp) as (Hstart & _ & _ & Hstops).
  exists (evs ++ closing name timestamp rp)%list, evs.
  exists (tl (closing name timestamp rp)).
  split; [exact Htr|]. rewrite Hr. destruct rp as [[]|e]; cbn [closing tl].
  - split; [|split; [|split; [reflexivity|split]]].
    + intros Hin. apply in_app_or in Hin. destruct Hin as [Hin|[Hin|[Hin|[Hin|[]]]]];
        [contradiction|discriminate..].
    + rewrite stops_app, Hstops. reflexivity.
    + intros c [Hin|[Hin|[]]]; [discriminate|now inversion Hin].
    + split; [intros _; now eexists|intros _; right; now left].
  - split; [|split; [|split; [reflexivity|split]]].
    + intros Hin. apply in_app_or in Hin. destruct Hin as [Hin|[Hin|[Hin|[]]]];
        [contradiction|discriminate..].
    + rewrite stops_app, Hstops. reflexivity.
    + intros c [Hin|[]]. discriminate.
    + split; [intros [Hin|[]]; discriminate|intros [v Hv]; discriminate].
Qed.

(** X10: the logbook entry is attempted only once the phases and the stop
    of the tracker are through, always with the status SUCCESS and the
    name and timestamp of the run, and a run that attempted it returns its
    results whether the logbook call returned or raised; a run that
    returns has attempted it. *)
Theorem logbook_entry_only_after_success
    (params : dict) (run_dir name timestamp : string) (make_images : bool)
    (wavelength threads ui_mode : pyval) (w : world) :
  let run := run_single_simulation h params run_dir name timestamp make_images
               wavelength threads ui_mode w in
  exists evs,
    w_trace run.2 = (w_trace w ++ evs)%list
    /\ (forall n t s,
          In (Library (LogSimulation n t s)) evs ->
          n = name /\ t = timestamp /\ s = "SUCCESS" /\ run.1 = Ok results)
    /\ (forall v,
          run.1 = Ok v ->
          v = results /\ In (Library (LogSimulation name timestamp "SUCCESS")) evs).
Proof.
  cbv zeta.
  destruct (run_trace params run_dir name timestamp make_images wavelength threads
              ui_mode w) as (evs & rp & Htr & Hp & Hr).
  exists (TrackerCall CStart :: evs ++ closing name timestamp rp)%list.
  split; [exact Htr|]. rewrite Hr. rewrite forallb_forall in Hp. split.
  - intros n t s [Hin|Hin]; [discriminate|].
    apply in_app_or in Hin. destruct Hin as [Hin|Hin]; [apply Hp in Hin; discriminate|].
    destruct rp as [[]|e]; cbn [closing] in Hin.
    + destruct Hin as [Hin|[Hin|[Hin|[]]]]; try discriminate.
      inversion Hin; subst. auto.
    + destruct Hin as [Hin|[Hin|[]]]; discriminate.
  - intros v Hv. destruct rp as [[]|e]; [|discriminate].
    inversion Hv; subst v. split; [reflexivity|].
    right. apply in_or_app. right. cbn. tauto.
Qed.

(** X11: a run without images does none of the work of the image phase: it
    neither starts nor completes the phase "Generate Image" and makes none
    of the calls that read, write, plot or move an image. *)
Theorem no_image_work_without_images
    (params : dict) (run_dir name timestamp : string)
    (wavelength threads ui_mode : pyval) (w : world) :
  let run := run_single_simulation h params run_dir name timestamp false
               wavelength threads ui_mode w in
  exists evs,
    w_trace run.2 = (w_trace w ++ evs)%list
    /\ ~ In (TrackerCall (CStartPhase "Generate Image")) evs
    /\ ~ In (TrackerCall (CCompletePhase "Generate Image")) evs
    /\ (forall c, In (Library c) evs -> image_call c = false).
Proof.
  cbv zeta.
  destruct (run_trace params run_dir name timestamp false wavelength threads
              ui_mode w) as (evs & rp & Htr & Hp & _).
  exists (TrackerCall CStart :: evs ++ closing name timestamp rp)%list.
  split; [exact Htr|]. rewrite forallb_forall in Hp.
  assert (Hclosing : forall e, In e (closing name timestamp rp) ->
            match e with
            | TrackerCall (CStartPhase _ | CCompletePhase _) => False
            | Library c => image_call c = false
            | _ => True
            end).
  { intros e Hin. destruct rp as [[]|x]; cbn [closing] in Hin.
    - destruct Hin as [<-|[<-|[<-|[]]]]; exact I || reflexivity.
    - destruct Hin as [<-|[<-|[]]]; exact I. }
  repeat split.
  - intros [Hin|Hin]; [discriminate|]. apply in_app_or in Hin.
    destruct Hin as [Hin|Hin]; [apply Hp in Hin; discriminate|now apply Hclosing in Hin].
  - intros [Hin|Hin]; [discriminate|]. apply in_app_or in Hin.
    destruct Hin as [Hin|Hin]; [apply Hp in Hin; discriminate|now apply Hclosing in Hin].
  - intros c [Hin|Hin]; [discriminate|]. apply in_app_or in Hin.
    destruct Hin as [Hin|Hin]; [|now apply Hclosing in Hin].
    apply Hp in Hin. cbn in Hin. destruct c; try reflexivity; discriminate.
Qed.

(** X12: every phase a run starts or completes on the tracker is one of
    the phases the tracker was created with, so the position lookup of
    [start_phase] cannot fail in a run. *)
Theorem only_announced_phases_are_run
    (params : dict) (run_dir name timestamp : string) (make_images : bool)
    (wavelength threads ui_mode : pyval) (w : world) :
  let run := run_single_simulation h params run_dir name timestamp make_images
               wavelength threads ui_mode w in
  exists evs,
    w_trace run.2 = (w_trace w ++ evs)%list
    /\ forall phase,
         In (TrackerCall (CStartPhase phase)) evs
         \/ In (TrackerCall (CCompletePhase phase)) evs ->
         In phase (phase_list make_images)
         /\ exists i, index (phase_list make_images) phase = Ok i.
Proof.
  cbv zeta.
  destruct (run_trace params run_dir name timestamp make_images wavelength threads
              ui_mode w) as (evs & rp & Htr & Hp & _).
  exists (TrackerCall CStart :: evs ++ closing name timestamp rp)%list.
  split; [exact Htr|]. rewrite forallb_forall in Hp.
  assert (Hlisted : forall phase,
            in_list phase (phase_list make_images) = true ->
            In phase (phase_list make_images)
            /\ exists i, index (phase_list make_images) phase = Ok i).
  { intros phase Hin. unfold in_list in Hin. apply existsb_exists in Hin.
    destruct Hin as (x & Hx & Heq). apply String.eqb_eq in Heq. subst x.
    split; [exact Hx|].
    pose proof (TrackerLaws.index_spec (phase_list make_images) phase) as Hspec.
    destruct (index (phase_list make_images) phase) as [i|e]; [now exists i|].
    destruct Hspec as [_ Hnot]. exfalso. apply Hnot. now apply list_elem_of_In. }
  assert (Hclosing : forall c, In (TrackerCall c) (closing name timestamp rp) ->
            c = CStop \/ c = CPrintSummary).
  { intros c Hin. destruct rp as [[]|x]; cbn [closing] in Hin.
    - destruct Hin as [Hin|[Hin|[Hin|[]]]]; inversion Hin; auto.
    - destruct Hin as [Hin|[Hin|[]]]; inversion Hin; auto. }
  intros phase [Hin|Hin]; (destruct Hin as [Hin|Hin]; [discriminate|]);
    apply in_app_or in Hin;
    (destruct Hin as [Hin|Hin];
     [apply Hp in Hin; now apply Hlisted
     |apply Hclosing in Hin; destruct Hin; discriminate]).
Qed.

(** *** The order of the phases *)

Definition phase_call (e : event) : option tracker_call :=
  match e with
  | TrackerCall (CStartPhase phase) => Some (CStartPhase phase)
  | TrackerCall (CCompletePhase phase) => Some (CCompletePhase phase)
  | _ => None
  end.

(** The starts and completions of phases among the events, in order. *)
Definition phase_calls (evs : list event) : list tracker_call := omap phase_call evs.

(** Each phase started and then completed, in the order of the list the
    tracker is created with. *)
Definition script (make_images : bool) : list tracker_call :=
  flat_map (fun phase => [CStartPhase phase; CCompletePhase phase])
    (phase_list make_images).

(** [emits l m]: when [m] returns it has sent the tracker the phase calls
    [l], and when it raises it has sent a beginning of [l]. *)
Definition emits {A : Type} (l : list tracker_call) (m : M world A) : Prop :=
  forall w, exists evs,
    w_trace (m w).2 = (w_trace w ++ evs)%list
    /\ match (m w).1 with
       | Ok _ => phase_calls evs = l
       | Raise _ => phase_calls evs `prefix_of` l
       end.

Definition no_phase_call (e : event) : bool :=
  match phase_call e with
  | None => true
  | Some _ => false
  end.

Lemma phase_calls_none (evs : list event) :
  forallb no_phase_call evs = true -> phase_calls evs = [].
Proof.
  induction evs as [|e evs IH]; [reflexivity|].
  simpl. intros H. apply andb_true_iff in H. destruct H as [He Hevs].
  unfold phase_calls. cbn [omap]. unfold no_phase_call in He.
  destruct (phase_call e); [discriminate|]. now apply IH.
Qed.

Lemma phase_calls_app (a b : list event) :
  phase_calls (a ++ b) = (phase_calls a ++ phase_calls b)%list.
Proof. apply omap_app. Qed.

Lemma emits_quiet {A : Type} (m : M world A) :
  quiet no_phase_call m -> emits [] m.
Proof.
  intros Hq w. destruct (Hq w) as (_ & evs & Htr & Hp).
  exists evs. split; [exact Htr|]. rewrite (phase_calls_none evs Hp).
  now destruct (m w).1.
Qed.

Lemma emits_bind {A B : Type} (l1 l2 : list tracker_call)
    (m : M world A) (k : A -> M world B) :
  emits l1 m -> (forall a, emits l2 (k a)) -> emits (l1 ++ l2) (bindM m k).
Proof.
  intros Hm Hk w. unfold bindM. destruct (Hm w) as (evs & Htr & Hl).
  destruct (m w) as [[a|e] w1]; cbn [fst snd] in *.
  - destruct (Hk a w1) as (evs' & Htr' & Hl').
    exists (evs ++ evs')%list. rewrite Htr', Htr, app_assoc. split; [reflexivity|].
    rewrite phase_calls_app, Hl.
    destruct (k a w1).1; [now rewrite Hl'|now apply prefix_app].
  - exists evs. split; [exact Htr|]. now apply prefix_app_r.
Qed.

Lemma tracker_do_trace (c : tracker_call) (w : world) :
  w_trace (tracker_do h c w).2 = (w_trace w ++ [TrackerCall c])%list.
Proof.
  destruct (quiet_tracker_do h (fun _ => true) c eq_refl w) as (_ & evs & Htr & _).
  revert Htr. unfold tracker_do, bindM, record, modifyM, getsM. cbn [fst snd].
  cbn [w_tracker set_trace].
  assert (Hrun : forall (m : M world unit) w1,
            w_trace (m w1).2 = w_trace w1 ->
            w_trace w1 = (w_trace w ++ [TrackerCall c])%list ->
            w_trace (m w1).2 = (w_trace w ++ [TrackerCall c])%list)
    by (intros m w1 H1 H2; congruence).
  intros _.
  destruct (w_tracker w) as [t|t] eqn:Ht.
  - apply Hrun; [|reflexivity]. apply quiet_run_raw. cbn. now rewrite Ht.
  - destruct c; try (apply Hrun; [|reflexivity]; apply quiet_run_advanced; cbn;
                     now rewrite Ht).
    + destruct (index (phases t) name);
        [unfold bindM, time_time; cbn [fst snd]|];
        (apply Hrun; [|reflexivity]; apply quiet_run_advanced; cbn; now rewrite Ht).
    + destruct (time_truthy (phase_start_time t));
        [unfold bindM, time_time; cbn [fst snd]|];
        (apply Hrun; [|reflexivity]; apply quiet_run_advanced; cbn; now rewrite Ht).
Qed.

Lemma emits_phase_call (c : tracker_call) :
  phase_call (TrackerCall c) = Some c -> emits [c] (tracker_do h c).
Proof.
  intros Hc w. exists [TrackerCall c]. split; [apply tracker_do_trace|].
  assert (Hpc : phase_calls [TrackerCall c] = [c])
    by (destruct c; try discriminate; reflexivity).
  rewrite Hpc. now destruct (tracker_do h c w).1.
Qed.

Lemma runner_no_phase_call (e : event) :
  runner_event e = true -> no_phase_call e = true.
Proof. destruct e as [[]| | | | |]; intros H; try discriminate H; reflexivity. Qed.

Lemma emits_run_phases (params : dict) (run_dir name timestamp : string)
    (make_images : bool) (wavelength threads : pyval) (use_silencer : bool) :
  emits (script make_images)
    (run_phases h params run_dir name timestamp make_images wavelength threads
       use_silencer).
Proof.
  assert (Hleaf : forall (A : Type) (m : M world A) l,
            emits l m -> forall l', l = l' -> emits l' m) by (intros; now subst).
  unfold run_phases, silenced.
  destruct make_images, use_silencer; cbv beta iota;
    (eapply Hleaf;
     [repeat lazymatch goal with
        | |- emits _ (bindM _ _) => eapply emits_bind; [|intros ?]
        | |- emits _ (tracker_do _ (CStartPhase _)) => apply emits_phase_call; reflexivity
        | |- emits _ (tracker_do _ (CCompletePhase _)) =>
            apply emits_phase_call; reflexivity
        | |- emits _ (run_radmc_command _ _ _) =>
            apply emits_quiet;
            (eapply quiet_weaken; [|apply quiet_run_radmc_command]);
            apply runner_no_phase_call
        | |- emits _ (log_phase_start _ _) =>
            apply emits_quiet, quiet_log_phase_start; intros; reflexivity
        | |- emits _ (log_phase_end _ _ _) =>
            apply emits_quiet, quiet_log_phase_end; intros; reflexivity
        | |- emits _ (save_files _ _ _) =>
            apply emits_quiet, quiet_save_files; intros; reflexivity
        | |- emits _ _ => apply emits_quiet; repeat quiet_auto ltac:(reflexivity)
        end
     |reflexivity]).
Qed.

(** X13: in every run the phases are taken in the order of the list the
    tracker was created with, each one completed before the next is
    started: the starts and completions the tracker receives are a
    beginning of that sequence, and the whole of it when the run
    returns. *)
Theorem phases_run_in_order
    (params : dict) (run_dir name timestamp : string) (make_images : bool)
    (wavelength threads ui_mode : pyval) (w : world) :
  let run := run_single_simulation h params run_dir name timestamp make_images
               wavelength threads ui_mode w in
  exists evs,
    w_trace run.2 = (w_trace w ++ evs)%list
    /\ phase_calls evs `prefix_of` script make_images
    /\ ((exists v, run.1 = Ok v) -> phase_calls evs = script make_images).
Proof.
  cbv zeta.
  destruct (run_frame params run_dir name timestamp make_images wavelength threads
              ui_mode w) as (w3 & Ht3 & _ & Hrun).
  cbv zeta in Hrun. destruct Hrun as [Htr Hr].
  destruct (emits_run_phases params run_dir name timestamp make_images wavelength
              threads (is_advanced ui_mode) w3) as (evs & Hevs & Hl).
  exists (TrackerCall CStart :: evs
          ++ closing name timestamp
               (run_phases h params run_dir name timestamp make_images wavelength
                  threads (is_advanced ui_mode) w3).1)%list.
  split; [rewrite Htr, Hevs, Ht3; now rewrite <- !app_assoc|].
  assert (Hcalls : forall rp,
            phase_calls (TrackerCall CStart :: evs ++ closing name timestamp rp)
            = phase_calls evs).
  { intros rp. change (TrackerCall CStart :: ?l) with ([TrackerCall CStart] ++ l)%list.
    rewrite !phase_calls_app. destruct rp as [[]|e]; cbn; now rewrite app_nil_r. }
  rewrite Hcalls, Hr.
  destruct (run_phases h params run_dir name timestamp make_images wavelength threads
              (is_advanced ui_mode) w3).1 as [[]|e].
  - rewrite Hl. split; [reflexivity|]. intros _. reflexivity.
  - split; [exact Hl|]. intros [v Hv]. discriminate.
Qed.

(** *** A parameter the dust setup needs is missing *)

(** Events that come before the dust setup is called: no process, no call
    of the setup, and no line logged on the tracker. *)
Definition before_setup (e : event) : bool :=
  match e with
  | Spawned _ _ => false
  | Library (ProblemSetupDust _ _) => false
  | TrackerCall (CLog _) => false
  | _ => true
  end.

Definition no_solver (e : event) : bool :=
  match e with
  | Spawned _ _ => false
  | Library (ProblemSetupDust _ _) => false
  | _ => true
  end.

(** [aborts e m]: [m] raises, without a process and without the dust
    setup, and what it raises is [e] if it got as far as logging a line on
    the tracker. *)
Definition aborts {A : Type} (e : exn) (m : M world A) : Prop :=
  forall w, exists evs e',
    w_trace (m w).2 = (w_trace w ++ evs)%list
    /\ (m w).1 = Raise e'
    /\ forallb no_solver evs = true
    /\ ((exists message, In (TrackerCall (CLog message)) evs) -> e' = e).

Lemma before_setup_no_solver (evs : list event) :
  forallb before_setup evs = true ->
  forallb no_solver evs = true
  /\ forall message, ~ In (TrackerCall (CLog message)) evs.
Proof.
  intros Hp. rewrite forallb_forall in *. split.
  - intros x Hx. apply Hp in Hx. destruct x as [[]| | | |[]|]; try discriminate; reflexivity.
  - intros message Hin. apply Hp in Hin. discriminate.
Qed.

Lemma aborts_after {A B : Type} (e : exn) (m : M world A) (k : A -> M world B) :
  quiet before_setup m -> (forall a, aborts e (k a)) -> aborts e (bindM m k).
Proof.
  intros Hm Hk w. unfold bindM. destruct (Hm w) as (_ & evs & Htr & Hp).
  destruct (before_setup_no_solver evs Hp) as [Hsolver Hlog].
  destruct (m w) as [[a|e1] w1]; cbn [fst snd] in *.
  - destruct (Hk a w1) as (evs' & e' & Htr' & Hr' & Hp' & He').
    exists (evs ++ evs')%list, e'. rewrite Htr', Htr, app_assoc.
    split; [reflexivity|]. split; [exact Hr'|].
    split; [rewrite forallb_app; now rewrite Hsolver, Hp'|].
    intros [message Hin]. apply in_app_or in Hin.
    destruct Hin as [Hin|Hin]; [now apply Hlog in Hin|]. apply He'. now exists message.
  - exists evs, e1. split; [exact Htr|]. split; [reflexivity|].
    split; [exact Hsolver|]. intros [message Hin]. now apply Hlog in Hin.
Qed.

(** From the line logged in the configuration phase to the reading of the
    parameters, nothing can fail but the reading. *)
Lemma aborts_at_reading {B : Type} (e : exn) (message text : string) (r : result dict)
    (k : dict -> M world B) :
  r = Raise e ->
  aborts e (tracker_do h (CLog message) ;;; logging_info text ;;; x <~ liftM r ;; k x).
Proof.
  intros -> w.
  pose proof (tracker_do_trace (CLog message) w) as Htr.
  pose proof (tracker_do_loggable_ok h (CLog message) w eq_refl) as Hr.
  destruct (tracker_do h (CLog message) w) as [r1 w1] eqn:Hdo.
  cbn [fst snd] in *. subst r1. rewrite (bindM_ok _ _ _ _ _ Hdo).
  exists [TrackerCall (CLog message); Logged INFO text], e.
  unfold logging_info, record, modifyM, liftM, bindM. cbn. rewrite Htr.
  rewrite <- app_assoc. repeat split.
Qed.

Lemma aborts_run_phases (params : dict) (run_dir name timestamp : string)
    (make_images : bool) (wavelength threads : pyval) (use_silencer : bool) (e : exn) :
  read_params params dust_setup_keys = Raise e ->
  aborts e
    (run_phases h params run_dir name timestamp make_images wavelength threads
       use_silencer).
Proof.
  intros Hmissing. unfold run_phases, silenced.
  repeat (apply aborts_after;
          [solve [repeat first
                    [ quiet_auto ltac:(reflexivity)
                    | lazymatch goal with
                      | |- quiet _ (log_phase_start _ _) =>
                          apply quiet_log_phase_start; intros; reflexivity
                      | |- quiet _ (log_phase_end _ _ _) =>
                          apply quiet_log_phase_end; intros; reflexivity
                      end ]]
          |intros ?]).
  now apply aborts_at_reading.
Qed.

(** X14: a run whose parameters lack one the dust setup needs raises
    without having started a solver process or called the dust setup; once
    the configuration phase has logged its line on the tracker, what the
    run raises is the KeyError of the reading, which names the first
    missing parameter. *)
Theorem missing_parameter_stops_before_solver
    (params : dict) (run_dir name timestamp : string) (make_images : bool)
    (wavelength threads ui_mode : pyval) (w : world) (e : exn) :
  read_params params dust_setup_keys = Raise e ->
  let run := run_single_simulation h params run_dir name timestamp make_images
               wavelength threads ui_mode w in
  exists evs e',
    w_trace run.2 = (w_trace w ++ evs)%list
    /\ run.1 = Raise e'
    /\ (In (TrackerCall (CLog "Writing input files...")) evs -> e' = e)
    /\ (forall argv captured, ~ In (Spawned argv captured) evs)
    /\ (forall model kwargs, ~ In (Library (ProblemSetupDust model kwargs)) evs).
Proof.
  intros Hmissing. cbv zeta.
  destruct (run_frame params run_dir name timestamp make_images wavelength threads
              ui_mode w) as (w3 & Ht3 & _ & Hrun).
  cbv zeta in Hrun. destruct Hrun as [Htr Hr].
  destruct (aborts_run_phases params run_dir name timestamp make_images wavelength
              threads (is_advanced ui_mode) e Hmissing w3)
    as (evs & e' & Hevs & Hraise & Hp & He').
  rewrite Hraise in Htr, Hr. cbn [closing] in Htr.
  exists (TrackerCall CStart :: evs
          ++ [TrackerCall CStop; Logged ERROR ("Simulation failed: " +:+ exn_str e')])%list.
  exists e'. split; [rewrite Htr, Hevs, Ht3; now rewrite <- !app_assoc|].
  split; [exact Hr|]. rewrite forallb_forall in Hp.
  assert (Hin : forall x,
            In x (TrackerCall CStart :: evs
                  ++ [TrackerCall CStop;
                      Logged ERROR ("Simulation failed: " +:+ exn_str e')])%list ->
            In x evs \/ x = TrackerCall CStart \/ x = TrackerCall CStop
            \/ x = Logged ERROR ("Simulation failed: " +:+ exn_str e')).
  { intros x [Hx|Hx]; [auto|]. apply in_app_or in Hx.
    destruct Hx as [Hx|[Hx|[Hx|[]]]]; auto. }
  split; [|split].
  - intros Hlog. apply Hin in Hlog.
    destruct Hlog as [Hlog|[Hlog|[Hlog|Hlog]]]; try discriminate.
    apply He'. eexists. exact Hlog.
  - intros argv captured Hs. apply Hin in Hs.
    destruct Hs as [Hs|[Hs|[Hs|Hs]]]; try discriminate. apply Hp in Hs. discriminate.
  - intros model kwargs Hs. apply Hin in Hs.
    destruct Hs as [Hs|[Hs|[Hs|Hs]]]; try discriminate. apply Hp in Hs. discriminate.
Qed.

(** *** An expected total that is no number *)



(** The conversion of the expected total, [int(float(total_photons))]. *)
Definition safe_total (total_photons : pyval) : result Z :=
  f <- py_float total_photons ;; int_of_float f.


End Laws.

(** *** Closed examples *)

Section Examples.

#[local] Existing Instance example_runtime.

(** A host on which only the two input files of the solver exist. *)
Definition inputs_only_host : host :=
  {| clock := clock (example_host 0);
     strftime := strftime (example_host 0);
     getcwd := getcwd (example_host 0);
     shlex_split := shlex_split (example_host 0);
     which := which (example_host 0);
     solver := solver (example_host 0);
     library := library (example_host 0);
     path_exists := fun path => String.eqb path "radmc3d.inp"
                                || String.eqb path "amr_grid.inp";
     getsize := getsize (example_host 0) |}.

Lemma save_files_skips_missing_witness :
  let saved := save_files inputs_only_host "/runs/baseline_run"
                 (files_to_save "20260101_000000") terminal_world in
  saved.1 = Ok tt
  /\ w_trace saved.2
     = [Library (GetSize "radmc3d.inp");
        Library (Copy "radmc3d.inp" "/runs/baseline_run/radmc3d_20260101_000000.inp");
        Logged INFO "Saved: radmc3d.inp (<float> MB) -> radmc3d_20260101_000000.inp";
        Library (GetSize "amr_grid.inp");
        Library (Copy "amr_grid.inp" "/runs/baseline_run/amr_grid.inp");
        Logged INFO "Saved: amr_grid.inp (<float> MB) -> amr_grid.inp"].
Proof.
  cbv zeta.
  destruct (save_files_skips_missing inputs_only_host "/runs/baseline_run"
              (files_to_save "20260101_000000") terminal_world) as [Hr Htr].
  { intros item _ _. split; reflexivity. }
  split; [exact Hr|]. rewrite Htr. reflexivity.
Defined.

Lemma missing_parameter_stops_before_solver_witness :
  exists evs e',
    w_trace (run_single_simulation (example_host 0) [("nphot", PInt 100000)]
               "/runs/baseline_run" "test" "20260101_000000" false (PFloat 2.5)
               (PInt 8) (PStr "raw") terminal_world).2
    = (w_trace terminal_world ++ evs)%list
    /\ (run_single_simulation (example_host 0) [("nphot", PInt 100000)]
          "/runs/baseline_run" "test" "20260101_000000" false (PFloat 2.5)
          (PInt 8) (PStr "raw") terminal_world).1 = Raise e'
    /\ (In (TrackerCall (CLog "Writing input files...")) evs -> e' = KeyError "xbound")
    /\ (forall argv captured, ~ In (Spawned argv captured) evs)
    /\ (forall model kwargs, ~ In (Library (ProblemSetupDust model kwargs)) evs).
Proof.
  apply (missing_parameter_stops_before_solver (example_host 0)
           [("nphot", PInt 100000)] "/runs/baseline_run" "test" "20260101_000000"
           false (PFloat 2.5) (PInt 8) (PStr "raw") terminal_world (KeyError "xbound")).
  reflexivity.
Defined.


End Examples.

End RunLaws.

(** ** naming.py: run names and run directories *)

Module RunNames.

Import Naming.

Section Names.

Context `{RT : PyRuntime}.

Definition generate_run_name (base_name : string) (params : dict) (timestamp : string)
  : result string :=
  category <- determine_category params ;;
  (* Format: category_run_timestamp_basename *)
  let full_name := category +:+ "_run_" +:+ timestamp +:+ "_" +:+ base_name in
  Ok full_name.

Definition generate_run_directory (base_dir base_name : string) (params : dict)
    (timestamp : string) : result (string * string) :=
  run_name <- generate_run_name base_name params timestamp ;;
  let run_dir := SingleRun.path_join base_dir run_name in
  Ok (run_dir, run_name).

(** *** Categories start with a letter *)

(** The first character of [s], if there is one, is not the path
    separator. *)
Definition relative (s : string) : Prop :=
  match s with
  | String c _ => c <> "/"%char
  | EmptyString => True
  end.

Lemma feature_token_relative (params : dict) (f : feature) (t : string) :
  feature_token params f = Ok t -> relative t.
Proof.
  destruct f; simpl; try (intros H; inversion H; discriminate).
  destruct (py_gt0 _) as [[|]|]; simpl; intros H; inversion H; discriminate.
Qed.

Lemma active_tokens_relative (params : dict) (fs : list feature) (ts : list string) :
  active_tokens params fs = Ok ts -> Forall relative ts.
Proof.
  revert ts. induction fs as [|f fs IH]; intros ts; simpl.
  - intros H. inversion H. constructor.
  - destruct (feature_active params f) as [a|]; simpl; [|discriminate].
    destruct (active_tokens params fs) as [rest|]; simpl.
    + destruct a.
      * destruct (feature_token params f) as [t|] eqn:Ht; simpl; [|discriminate].
        intros H. inversion H. constructor; [now apply feature_token_relative in Ht|].
        now apply IH.
      * simpl. intros H. inversion H. now apply IH.
    + destruct a; [|discriminate].
      destruct (feature_token params f); discriminate.
Qed.

Lemma category_relative (params : dict) (category : string) :
  determine_category params = Ok category -> relative category.
Proof.
  rewrite determine_category_refines. unfold classify_spec.
  destruct (active_tokens params features) as [ts|] eqn:Hts; simpl; [|discriminate].
  apply active_tokens_relative in Hts. intros H. inversion H. subst category.
  destruct ts as [|t [|t' ts]]; [discriminate| |discriminate].
  now inversion Hts.
Qed.

Lemma path_join_relative (a b : string) :
  relative b ->
  SingleRun.path_join a b = a +:+ b \/ SingleRun.path_join a b = a +:+ "/" +:+ b.
Proof.
  intros Hb.
  assert (Hprefix : String.prefix "/" b = false).
  { destruct b as [|c b]; [reflexivity|]. cbn [relative] in Hb. cbn [String.prefix].
    destruct (ascii_dec "/" c) as [<-|_]; [contradiction|reflexivity]. }
  unfold SingleRun.path_join. rewrite Hprefix.
  destruct (_ || _); auto.
Qed.

(** X16: the run name is the category, "_run_", the timestamp, "_" and the
    base name, and the run directory is that name inside the base
    directory: the path join never drops the base directory, because a
    category never starts with a slash.  Both functions raise exactly what
    the classifier raises. *)
Theorem run_directory_lies_in_base_dir
    (base_dir base_name : string) (params : dict) (timestamp : string) :
  match generate_run_directory base_dir base_name params timestamp with
  | Ok (run_dir, run_name) =>
      exists category,
        determine_category params = Ok category
        /\ generate_run_name base_name params timestamp = Ok run_name
        /\ run_name = category +:+ "_run_" +:+ timestamp +:+ "_" +:+ base_name
        /\ (run_dir = base_dir +:+ run_name \/ run_dir = base_dir +:+ "/" +:+ run_name)
  | Raise e =>
      determine_category params = Raise e
      /\ generate_run_name base_name params timestamp = Raise e
  end.
Proof.
  unfold generate_run_directory, generate_run_name.
  destruct (determine_category params) as [category|e] eqn:Hc; simpl; [|auto].
  exists category. repeat split.
  apply path_join_relative. apply category_relative in Hc.
  destruct category as [|c s]; [discriminate|exact Hc].
Qed.

(** The classifier reads the twelve parameters it consults and no other. *)
Lemma determine_category_consulted (d d' : dict) :
  (forall key default, key ∈ consulted_keys ->
     dict_get d' key default = dict_get d key default) ->
  determine_category d' = determine_category d.
Proof.
  intros H. unfold determine_category.
  rewrite !H by (unfold consulted_keys; set_solver).
  reflexivity.
Qed.

End Names.

End RunNames.

(** ** batch_run.py: parameter overrides and run directories of a batch *)

Module BatchRun.

Import Naming RunNames.

(** "simple" or "detailed". *)
Definition BATCH_NAMING_MODE : string := "detailed".

(** [d[key] = v]: a key that is present keeps its place. *)
Fixpoint dict_set (d : dict) (key : string) (v : pyval) : dict :=
  match d with
  | [] => [(key, v)]
  | (k, w) :: d' =>
      if String.eqb k key then (k, v) :: d' else (k, w) :: dict_set d' key v
  end.

(** [d.update(other)]. *)
Definition dict_update (d other : dict) : dict :=
  fold_left (fun acc item => dict_set acc item.1 item.2) other d.

Definition merge_params (base_params override_params : dict) : dict :=
  (* Use simple dict copy instead of deepcopy to avoid module pickling issues *)
  let merged := base_params in
  (* Don't merge the name_suffix into params *)
  let override :=
    List.filter (fun item => negb (String.eqb item.1 "name_suffix")) override_params in
  dict_update merged override.

(** [f"{z:03d}"]: at least three characters, the sign among them, zeros
    between the sign and the digits. *)
Definition zero_pad (width : nat) (s : string) : string :=
  SingleRun.rule "0" (width - String.length s) +:+ s.

Definition format_03d (z : Z) : string :=
  if z <? 0 then "-" +:+ zero_pad 2 (pretty (- z)) else zero_pad 3 (pretty z).

Section Directories.

Context `{RT : PyRuntime}.

Definition create_batch_run_directory (base_name name_suffix : string) (params : dict)
    (batch_idx : Z) (base_timestamp : string) : result (string * string * string) :=
  let timestamp := base_timestamp +:+ "_batch" +:+ format_03d batch_idx in
  if String.eqb BATCH_NAMING_MODE "simple" then
    (* Simple format: basename_suffix_batchXXX *)
    let run_name :=
      base_name +:+ "_" +:+ name_suffix +:+ "_batch" +:+ format_03d batch_idx in
    let base_dir := "../../Simulations/Batch" in
    let run_dir := SingleRun.path_join base_dir run_name in
    Ok (run_dir, run_name, timestamp)
  else
    (* Detailed format: uses naming.py with full categorization *)
    let combined_name := base_name +:+ "_" +:+ name_suffix in
    let base_dir := "../../Simulations/Batch" in
    made <- generate_run_directory base_dir combined_name params timestamp ;;
    let (run_dir, run_name) := made : string * string in
    Ok (run_dir, run_name, timestamp).

End Directories.

(** *** Lookups after an update *)

Lemma dict_get_set (d : dict) (key : string) (v : pyval) (k : string) (default : pyval) :
  dict_get (dict_set d key v) k default
  = if String.eqb key k then v else dict_get d k default.
Proof.
  induction d as [|[k0 w] d IH]; simpl.
  - reflexivity.
  - destruct (String.eqb_spec k0 key) as [->|Hne]; simpl.
    + destruct (String.eqb_spec key k); reflexivity.
    + rewrite IH. destruct (String.eqb_spec k0 k) as [->|Hk]; [|reflexivity].
      destruct (String.eqb_spec key k) as [->|_]; [congruence|reflexivity].
Qed.

Lemma dict_keys_set (d : dict) (key : string) (v : pyval) :
  dict_keys (dict_set d key v)
  = if decide (key ∈ dict_keys d) then dict_keys d else (dict_keys d ++ [key])%list.
Proof.
  induction d as [|[k0 w] d IH]; simpl.
  - destruct (decide (key ∈ [])) as [Hin|_]; [now apply elem_of_nil in Hin|reflexivity].
  - destruct (String.eqb_spec k0 key) as [->|Hne]; simpl.
    + destruct (decide (key ∈ key :: dict_keys d)) as [_|Hnot]; [reflexivity|].
      exfalso. apply Hnot. apply elem_of_cons. now left.
    + fold (dict_keys (dict_set d key v)). rewrite IH. fold (dict_keys d).
      destruct (decide (key ∈ dict_keys d)) as [Hin|Hnot];
        destruct (decide (key ∈ k0 :: dict_keys d)) as [Hin'|Hnot']; try reflexivity.
      * exfalso. apply Hnot'. apply elem_of_cons. now right.
      * exfalso. apply elem_of_cons in Hin'. destruct Hin' as [->|Hin']; congruence.
Qed.

Lemma dict_set_NoDup (d : dict) (key : string) (v : pyval) :
  NoDup (dict_keys d) -> NoDup (dict_keys (dict_set d key v)).
Proof.
  intros Hnd. rewrite dict_keys_set.
  destruct (decide (key ∈ dict_keys d)) as [_|Hnot]; [exact Hnd|].
  apply NoDup_app. split; [exact Hnd|]. split.
  - intros x Hx Hx'. apply list_elem_of_singleton in Hx'. now subst.
  - apply NoDup_singleton.
Qed.

Lemma dict_get_update (other d : dict) (k : string) (default : pyval) :
  NoDup (dict_keys other) ->
  dict_get (dict_update d other) k default
  = if decide (k ∈ dict_keys other) then dict_get other k default
    else dict_get d k default.
Proof.
  revert d. induction other as [|[k0 v] other IH]; intros d Hnd.
  - cbn. destruct (decide (k ∈ [])) as [Hin|_]; [now apply elem_of_nil in Hin|reflexivity].
  - cbn in Hnd. apply NoDup_cons in Hnd. destruct Hnd as [Hk0 Hnd].
    unfold dict_update. cbn [fold_left fst snd]. fold (dict_update (dict_set d k0 v) other).
    rewrite IH by exact Hnd. cbn [dict_get dict_keys map fst].
    fold (dict_keys other).
    destruct (String.eqb_spec k0 k) as [->|Hne].
    + destruct (decide (k ∈ dict_keys other)) as [Hin|_]; [contradiction|].
      destruct (decide (k ∈ k :: dict_keys other)) as [_|Hnot].
      * rewrite dict_get_set. now rewrite String.eqb_refl.
      * exfalso. apply Hnot. apply elem_of_cons. now left.
    + destruct (decide (k ∈ dict_keys other)) as [Hin|Hnot];
        destruct (decide (k ∈ k0 :: dict_keys other)) as [Hin'|Hnot']; try reflexivity.
      * exfalso. apply Hnot'. apply elem_of_cons. now right.
      * exfalso. apply elem_of_cons in Hin'. destruct Hin' as [->|Hin']; congruence.
      * rewrite dict_get_set.
        destruct (String.eqb_spec k0 k) as [->|_]; [congruence|reflexivity].
Qed.

Lemma dict_update_NoDup (other d : dict) :
  NoDup (dict_keys d) -> NoDup (dict_keys (dict_update d other)).
Proof.
  revert d. induction other as [|[k v] other IH]; intros d Hnd; [exact Hnd|].
  unfold dict_update. cbn [fold_left]. apply IH. now apply dict_set_NoDup.
Qed.

Lemma dict_set_keys (d : dict) (key : string) (v : pyval) (k : string) :
  k ∈ dict_keys (dict_set d key v) <-> k ∈ dict_keys d \/ k = key.
Proof.
  rewrite dict_keys_set. destruct (decide (key ∈ dict_keys d)) as [Hin|Hnot].
  - split; [auto|]. intros [H| ->]; assumption.
  - rewrite elem_of_app, list_elem_of_singleton. reflexivity.
Qed.

Lemma dict_update_keys (other d : dict) (k : string) :
  k ∈ dict_keys (dict_update d other) <-> k ∈ dict_keys d \/ k ∈ dict_keys other.
Proof.
  revert d. induction other as [|[k0 v] other IH]; intros d.
  - cbn. split; [auto|]. intros [H|H]; [exact H|now apply elem_of_nil in H].
  - unfold dict_update. cbn [fold_left fst snd]. fold (dict_update (dict_set d k0 v) other).
    rewrite IH, dict_set_keys. cbn [dict_keys map fst]. fold (dict_keys other).
    rewrite elem_of_cons. tauto.
Qed.

Definition not_suffix (item : string * pyval) : bool :=
  negb (String.eqb item.1 "name_suffix").

Lemma filter_keys (f : string * pyval -> bool) (d : dict) (k : string) :
  k ∈ dict_keys (List.filter f d) -> k ∈ dict_keys d.
Proof.
  induction d as [|[k0 v] d IH]; simpl; [auto|].
  destruct (f (k0, v)); simpl; rewrite ?elem_of_cons; intros H.
  - destruct H as [->|H]; auto.
  - auto.
Qed.

Lemma filter_NoDup (f : string * pyval -> bool) (d : dict) :
  NoDup (dict_keys d) -> NoDup (dict_keys (List.filter f d)).
Proof.
  induction d as [|[k0 v] d IH]; simpl; [auto|].
  intros Hnd. apply NoDup_cons in Hnd. destruct Hnd as [Hk Hnd].
  destruct (f (k0, v)); simpl; [|now apply IH].
  apply NoDup_cons. split; [|now apply IH].
  intros Hin. apply Hk. now apply filter_keys in Hin.
Qed.

Lemma filter_not_suffix_get (d : dict) (k : string) (default : pyval) :
  k <> "name_suffix" ->
  dict_get (List.filter not_suffix d) k default = dict_get d k default.
Proof.
  intros Hk. induction d as [|[k0 v] d IH]; [reflexivity|].
  cbn [List.filter]. unfold not_suffix at 1. cbn [fst].
  destruct (String.eqb_spec k0 "name_suffix") as [->|Hne]; cbn [negb dict_get].
  - rewrite IH. destruct (String.eqb_spec "name_suffix" k) as [E|_];
      [congruence|reflexivity].
  - now rewrite IH.
Qed.

Lemma filter_not_suffix_keys (d : dict) (k : string) :
  k ∈ dict_keys (List.filter not_suffix d) <-> k ∈ dict_keys d /\ k <> "name_suffix".
Proof.
  induction d as [|[k0 v] d IH].
  - cbn. split; [intros H; now apply elem_of_nil in H
                |intros [H _]; now apply elem_of_nil in H].
  - cbn [List.filter]. unfold not_suffix at 1. cbn [fst].
    destruct (String.eqb_spec k0 "name_suffix") as [->|Hne];
      cbn [negb dict_keys map fst]; fold (dict_keys d);
      fold (dict_keys (List.filter not_suffix d)); rewrite ?elem_of_cons, IH.
    + split; [intros [H1 H2]; auto|]. intros [[->|H1] H2]; [congruence|auto].
    + split; [intros [->|[H1 H2]]; auto|]. intros [[->|H1] H2]; auto.
Qed.

Lemma merge_params_get
    (base_params override_params : dict) (key : string) (default : pyval) :
  NoDup (dict_keys override_params) ->
  dict_get (merge_params base_params override_params) key default
  = if decide (key ∈ dict_keys override_params /\ key <> "name_suffix")
    then dict_get override_params key default
    else dict_get base_params key default.
Proof.
  intros Ho. unfold merge_params. fold not_suffix.
  rewrite dict_get_update by now apply filter_NoDup.
  destruct (decide (key ∈ dict_keys (List.filter not_suffix override_params)))
    as [Hin|Hnot];
    destruct (decide (key ∈ dict_keys override_params /\ key <> "name_suffix"))
    as [Hin'|Hnot']; try reflexivity.
  - apply filter_not_suffix_get. tauto.
  - exfalso. apply Hnot'. now apply filter_not_suffix_keys.
  - exfalso. apply Hnot. now apply filter_not_suffix_keys.
Qed.

(** X17: in the merged parameters every key of the overrides other than
    [name_suffix] has the value of the overrides and every other key has
    the value of the base parameters; the keys are those of the base and
    those of the overrides without [name_suffix], each once. *)
Theorem merge_params_overrides
    (base_params override_params : dict) (key : string) (default : pyval) :
  NoDup (dict_keys base_params) ->
  NoDup (dict_keys override_params) ->
  dict_get (merge_params base_params override_params) key default
  = (if decide (key ∈ dict_keys override_params /\ key <> "name_suffix")
     then dict_get override_params key default
     else dict_get base_params key default)
  /\ (key ∈ dict_keys (merge_params base_params override_params)
      <-> key ∈ dict_keys base_params
          \/ (key ∈ dict_keys override_params /\ key <> "name_suffix"))
  /\ NoDup (dict_keys (merge_params base_params override_params)).
Proof.
  intros Hb Ho. split; [now apply merge_params_get|].
  unfold merge_params. fold not_suffix. split.
  - rewrite dict_update_keys, filter_not_suffix_keys. reflexivity.
  - now apply dict_update_NoDup.
Qed.

Section Categories.

Context `{RT : PyRuntime}.

(** X18: overrides that touch none of the parameters the classifier
    consults leave the category of the base parameters unchanged. *)
Theorem merge_keeps_category (base_params override_params : dict) :
  NoDup (dict_keys base_params) ->
  NoDup (dict_keys override_params) ->
  (forall key, key ∈ dict_keys override_params -> key ∉ consulted_keys) ->
  determine_category (merge_params base_params override_params)
  = determine_category base_params.
Proof.
  intros Hb Ho Hother. apply determine_category_consulted.
  intros key default Hkey.
  rewrite merge_params_get by exact Ho.
  destruct (decide (key ∈ dict_keys override_params /\ key <> "name_suffix"))
    as [[Hin _]|_]; [|reflexivity].
  exfalso. now apply (Hother key).
Qed.

End Categories.

(** *** The batch number in names *)

Import Text PhotonPattern.

Lemma rule_list (c : ascii) (n : nat) (s : string) :
  list_ascii_of_string (SingleRun.rule c n +:+ s)
  = (repeat c n ++ list_ascii_of_string s)%list.
Proof.
  induction n as [|n IH]; [reflexivity|].
  cbn [SingleRun.rule repeat app]. rewrite SingleRun.append_cons.
  cbn [list_ascii_of_string]. now rewrite IH.
Qed.

Lemma zeros_value (n : nat) (l : list ascii) :
  int_of_digits (repeat "0"%char n ++ l) = int_of_digits l.
Proof.
  rewrite !int_of_digits_fold, fold_left_app. f_equal.
  induction n as [|n IH]; [reflexivity|]. cbn [repeat fold_left]. exact IH.
Qed.

(** Read back as a number, a padded decimal text is the number. *)
Lemma zero_pad_value (width : nat) (n : Z) :
  0 <= n -> int_of_digits (list_ascii_of_string (zero_pad width (pretty n))) = n.
Proof.
  intros Hn. unfold zero_pad. rewrite rule_list, zeros_value.
  now destruct (pretty_decimal n Hn) as (_ & _ & Hv & _).
Qed.

Lemma zero_pad_digits (width : nat) (n : Z) :
  0 <= n ->
  exists c s, zero_pad width (pretty n) = String c s /\ is_digit c = true.
Proof.
  intros Hn. destruct (pretty_decimal n Hn) as (Hd & Hne & _ & _).
  unfold zero_pad. destruct (width - String.length (pretty n))%nat as [|k].
  - cbn [SingleRun.rule]. change ("" +:+ pretty n) with (pretty n).
    destruct (pretty n) as [|c s]; [contradiction|].
    exists c, s. split; [reflexivity|]. cbn in Hd. now apply andb_true_iff in Hd.
  - cbn [SingleRun.rule]. rewrite SingleRun.append_cons. eexists _, _.
    split; reflexivity.
Qed.

Lemma format_03d_injective (a b : Z) : format_03d a = format_03d b -> a = b.
Proof.
  unfold format_03d.
  destruct (Z.ltb_spec a 0) as [Ha|Ha]; destruct (Z.ltb_spec b 0) as [Hb|Hb]; intros H.
  - change ("-" +:+ ?x) with (String "-" x) in H. injection H as H.
    apply (f_equal (fun s => int_of_digits (list_ascii_of_string s))) in H.
    rewrite !zero_pad_value in H by lia. lia.
  - change ("-" +:+ ?x) with (String "-" x) in H.
    destruct (zero_pad_digits 3 b Hb) as (c & s & Hs & Hc). rewrite Hs in H.
    injection H as <- _. discriminate.
  - change ("-" +:+ ?x) with (String "-" x) in H.
    destruct (zero_pad_digits 3 a Ha) as (c & s & Hs & Hc). rewrite Hs in H.
    injection H as -> _. discriminate.
  - apply (f_equal (fun s => int_of_digits (list_ascii_of_string s))) in H.
    now rewrite !zero_pad_value in H by lia.
Qed.

Lemma append_length (a b : string) :
  String.length (a +:+ b) = (String.length a + String.length b)%nat.
Proof.
  induction a as [|c a IH]; [reflexivity|].
  rewrite SingleRun.append_cons. cbn [String.length]. now rewrite IH.
Qed.

Lemma rule_length (c : ascii) (n : nat) : String.length (SingleRun.rule c n) = n.
Proof. induction n as [|n IH]; [reflexivity|]. cbn. now rewrite IH. Qed.

Lemma list_length (s : string) : length (list_ascii_of_string s) = String.length s.
Proof. induction s as [|c s IH]; [reflexivity|]. cbn. now rewrite IH. Qed.

Lemma format_03d_width (z : Z) :
  0 <= z < 1000 -> String.length (format_03d z) = 3%nat.
Proof.
  intros Hz. unfold format_03d. destruct (Z.ltb_spec z 0) as [Hneg|_]; [lia|].
  destruct (pretty_decimal z) as (_ & _ & _ & Hlen); [lia|].
  specialize (Hlen 3%nat). rewrite list_length in Hlen.
  unfold zero_pad. rewrite append_length, rule_length.
  assert (String.length (pretty z) <= 3)%nat by (apply Hlen; simpl; lia). lia.
Qed.

Lemma append_inj_l (a x y : string) : a +:+ x = a +:+ y -> x = y.
Proof.
  induction a as [|c a IH]; [auto|].
  rewrite !SingleRun.append_cons. intros H. injection H as H. now apply IH.
Qed.

Section DirectoryLaws.

Context `{RT : PyRuntime}.

(** X19: the timestamp of a batch run is the base timestamp followed by
    "_batch" and the index in at least three digits, exactly three for an
    index below 1000, and two different indices never give the same
    timestamp; the run name is the one of naming.py for the base name
    joined with the suffix, and the run directory is that name inside the
    batch directory.  The function raises exactly what the classifier
    raises. *)
Theorem batch_run_directory_names
    (base_name name_suffix : string) (params : dict) (batch_idx : Z)
    (base_timestamp : string) :
  match create_batch_run_directory base_name name_suffix params batch_idx
          base_timestamp with
  | Ok (run_dir, run_name, timestamp) =>
      timestamp = base_timestamp +:+ "_batch" +:+ format_03d batch_idx
      /\ (exists category,
            determine_category params = Ok category
            /\ run_name = category +:+ "_run_" +:+ timestamp +:+ "_"
                          +:+ base_name +:+ "_" +:+ name_suffix)
      /\ run_dir = "../../Simulations/Batch/" +:+ run_name
  | Raise e => determine_category params = Raise e
  end
  /\ (0 <= batch_idx < 1000 -> String.length (format_03d batch_idx) = 3%nat)
  /\ (forall other : Z,
        base_timestamp +:+ "_batch" +:+ format_03d other
        = base_timestamp +:+ "_batch" +:+ format_03d batch_idx ->
        other = batch_idx).
Proof.
  split; [|split; [apply format_03d_width|]].
  - unfold create_batch_run_directory.
    change (String.eqb BATCH_NAMING_MODE "simple") with false. cbv iota.
    unfold generate_run_directory, generate_run_name.
    destruct (determine_category params) as [category|e] eqn:Hc; [|reflexivity].
    cbn [bind]. split; [reflexivity|]. split; [now exists category|].
    apply category_relative in Hc.
    assert (Hrel : relative (category +:+ "_run_"
                             +:+ (base_timestamp +:+ "_batch" +:+ format_03d batch_idx)
                             +:+ "_" +:+ base_name +:+ "_" +:+ name_suffix)).
    { destruct category as [|c s]; [discriminate|exact Hc]. }
    revert Hrel. generalize (category +:+ "_run_"
                             +:+ (base_timestamp +:+ "_batch" +:+ format_03d batch_idx)
                             +:+ "_" +:+ base_name +:+ "_" +:+ name_suffix).
    intros run_name Hrel. unfold SingleRun.path_join.
    replace (String.prefix "/" run_name) with false; [reflexivity|].
    destruct run_name as [|c s]; [reflexivity|]. cbn [relative] in Hrel.
    cbn [String.prefix]. destruct (ascii_dec "/" c) as [<-|_]; [contradiction|reflexivity].
  - intros other H. apply append_inj_l in H. apply append_inj_l in H.
    now apply format_03d_injective.
Qed.

End DirectoryLaws.

(** *** Closed examples *)

Section Examples.

#[local] Existing Instance example_runtime.

(** A base configuration with a two-armed spiral. *)
Definition spiral_base : dict :=
  [("mdisk", PStr "0.01*ms"); ("hrdisk", PFloat 0.125); ("plh", PFloat 0.25);
   ("h_spiral_amp", PFloat 0.5); ("sig_spiral_amp", PFloat 0.25); ("n_arms", PInt 2)].

(** Example 6 of the batch grid. *)
Definition flared : dict :=
  [("name_suffix", PStr "flared"); ("mdisk", PStr "0.01*ms"); ("hrdisk", PFloat 0.25);
   ("plh", PFloat 0.5)].

Lemma merge_params_overrides_witness :
  dict_get (merge_params spiral_base flared) "hrdisk" PNone = PFloat 0.25
  /\ dict_get (merge_params spiral_base flared) "n_arms" PNone = PInt 2
  /\ dict_get (merge_params spiral_base flared) "name_suffix" PNone = PNone.
Proof.
  assert (Hb : NoDup (dict_keys spiral_base)).
  { apply NoDup_ListNoDup; vm_compute; repeat constructor; intros H;
      repeat (destruct H as [H|H]; [discriminate|]); contradiction. }
  assert (Ho : NoDup (dict_keys flared)).
  { apply NoDup_ListNoDup; vm_compute; repeat constructor; intros H;
      repeat (destruct H as [H|H]; [discriminate|]); contradiction. }
  destruct (merge_params_overrides spiral_base flared "hrdisk" PNone Hb Ho) as [H1 _].
  destruct (merge_params_overrides spiral_base flared "n_arms" PNone Hb Ho) as [H2 _].
  destruct (merge_params_overrides spiral_base flared "name_suffix" PNone Hb Ho) as [H3 _].
  rewrite H1, H2, H3. repeat split.
Defined.

Lemma merge_keeps_category_witness :
  determine_category (merge_params spiral_base flared) = Ok "spiral_2arms".
Proof.
  rewrite (merge_keeps_category spiral_base flared).
  - reflexivity.
  - apply NoDup_ListNoDup; vm_compute; repeat constructor; intros H;
      repeat (destruct H as [H|H]; [discriminate|]); contradiction.
  - apply NoDup_ListNoDup; vm_compute; repeat constructor; intros H;
      repeat (destruct H as [H|H]; [discriminate|]); contradiction.
  - intros key Hkey Hc. apply list_elem_of_In in Hkey, Hc.
    vm_compute in Hkey.
    repeat (destruct Hkey as [<-|Hkey];
            [vm_compute in Hc;
             repeat (destruct Hc as [Hc|Hc]; [discriminate|]); contradiction|]).
    contradiction.
Defined.

End Examples.

End BatchRun.

(** ** plots.py: mirroring the optical depth across the midplane *)

Module Plots.

(** [np.pi / 2]. *)
Definition half_pi : float := 0x1.921fb54442d18p+0%float.

(** Whether [a] takes the place of the minimum [b] found so far: it is
    less, or it is the first NaN. *)
Definition displaces (a b : float) : bool :=
  PrimFloat.ltb a b || (PrimFloat.is_nan a && negb (PrimFloat.is_nan b)).

Fixpoint argmin_from (best_idx : nat) (best : float) (i : nat) (l : list float) : nat :=
  match l with
  | [] => best_idx
  | x :: l' =>
      if displaces x best then argmin_from i x (S i) l'
      else argmin_from best_idx best (S i) l'
  end.

(** [np.argmin]: the first position of the minimum, a NaN counting as the
    minimum; ValueError on an empty array. *)
Definition argmin (l : list float) : result nat :=
  match l with
  | [] => Raise ValueError
  | x :: l' => Ok (argmin_from 0 x 1 l')
  end.

Definition print (text : string) : M (list output) unit :=
  modifyM (fun out => (out ++ [Stdout text])%list).

Section Mirror.

(** The array of optical depths is taken by its slices along the polar
    axis: [tauy[:, j, :]] is the j-th element of [tauy], and [shape[1]] is
    the length of the list. *)
Variable slice : Type.

Record data : Type := {
  grid_y : list float;
  tauy : list slice
}.

(** One turn of the loop. *)
Definition mirror_step (source : list slice) (theta_midplane_idx : nat)
    (tauy_symmetric : result (list slice)) (i : nat) : result (list slice) :=
  tauy_symmetric <- tauy_symmetric ;;
  (* Mirror the upper half to the lower half *)
  let mirror_idx := (2 * theta_midplane_idx - i)%nat in
  if (mirror_idx <? length tauy_symmetric)%nat then
    match source !! i with
    | Some row => Ok (<[mirror_idx := row]> tauy_symmetric)
    | None => Raise IndexError
    end
  else Ok tauy_symmetric.

Definition mirror_tauy (d : data) : M (list output) (list slice) :=
  print "Mirroring tauy for symmetric representation..." ;;;
  (* Find midplane index (where theta is closest to pi/2) *)
  theta_midplane_idx <~
    liftM (argmin (map (fun y => PrimFloat.abs (PrimFloat.sub y half_pi)) (grid_y d))) ;;
  let tauy_symmetric := tauy d in
  tauy_symmetric <~
    liftM (fold_left (mirror_step (tauy d) theta_midplane_idx) (seq 0 theta_midplane_idx)
             (Ok tauy_symmetric)) ;;
  print "Mirroring completed" ;;;
  retM tauy_symmetric.

(** *** The loop *)

Lemma argmin_from_bound (l : list float) (best_idx : nat) (best : float) (i : nat) :
  (best_idx < i)%nat -> (argmin_from best_idx best i l < i + length l)%nat.
Proof.
  revert best_idx best i. induction l as [|x l IH]; intros best_idx best i Hi; simpl.
  - lia.
  - destruct (displaces x best).
    + specialize (IH i x (S i)). lia.
    + specialize (IH best_idx best (S i)). lia.
Qed.

Lemma argmin_bound (l : list float) (i : nat) : argmin l = Ok i -> (i < length l)%nat.
Proof.
  destruct l as [|x l]; simpl; [discriminate|].
  intros H. inversion H. pose proof (argmin_from_bound l 0 x 1). lia.
Qed.

(** After the first [m] turns of the loop for the midplane index [mid]:
    the positions from [2 * mid - m + 1] to [2 * mid] hold the mirror
    images and all others hold what they held. *)
Lemma mirror_loop (source : list slice) (mid m : nat) :
  (m <= mid)%nat ->
  exists sym,
    fold_left (mirror_step source mid) (seq 0 m) (Ok source) = Ok sym
    /\ length sym = length source
    /\ forall j : nat,
         sym !! j
         = if decide (2 * mid - m < j <= 2 * mid)%nat
           then (if decide (j < length source)%nat then source !! (2 * mid - j)%nat
                 else None)
           else source !! j.
Proof.
  induction m as [|m IH]; intros Hm.
  - exists source. split; [reflexivity|]. split; [reflexivity|].
    intros j. destruct (decide _) as [H|_]; [lia|reflexivity].
  - destruct IH as (sym & Hfold & Hlen & Hsym); [lia|].
    rewrite seq_S, fold_left_app, Hfold. cbn [fold_left plus].
    unfold mirror_step at 1. cbn [bind]. rewrite Hlen.
    destruct (Nat.ltb_spec (2 * mid - m) (length source)) as [Hin|Hout].
    + assert (Hrow : is_Some (source !! m)) by (apply lookup_lt_is_Some; lia).
      destruct Hrow as [row Hrow]. rewrite Hrow.
      exists (<[(2 * mid - m)%nat := row]> sym).
      split; [reflexivity|]. split; [now rewrite length_insert|].
      intros j. destruct (decide (j = 2 * mid - m)%nat) as [->|Hne].
      * rewrite list_lookup_insert_eq by lia.
        destruct (decide _) as [_|H]; [|lia].
        destruct (decide _) as [_|H]; [|lia].
        replace (2 * mid - (2 * mid - m))%nat with m by lia. now rewrite Hrow.
      * rewrite list_lookup_insert_ne by lia. rewrite Hsym.
        destruct (decide (2 * mid - m < j <= 2 * mid)%nat) as [H1|H1];
          destruct (decide (2 * mid - S m < j <= 2 * mid)%nat) as [H2|H2];
          try reflexivity; lia.
    + exists sym. split; [reflexivity|]. split; [exact Hlen|].
      intros j. rewrite Hsym.
      destruct (decide (2 * mid - m < j <= 2 * mid)%nat) as [H1|H1];
        destruct (decide (2 * mid - S m < j <= 2 * mid)%nat) as [H2|H2];
        try reflexivity; try lia.
      assert (j = 2 * mid - m)%nat as -> by lia.
      destruct (decide _) as [H|_]; [lia|].
      apply lookup_ge_None_2. lia.
Qed.

(** X20: for a grid with at least one polar angle, [mirror_tauy] returns
    and never indexes outside the array; with [mid] the index [np.argmin]
    finds, the result is as long as the array given, holds the same slices
    up to position [mid] and beyond position [2 * mid], and holds at each
    position [mid + k] in between the slice of position [mid - k], so that
    it is symmetric about [mid].  For an empty grid it raises ValueError
    after its first message. *)
Theorem mirror_tauy_is_symmetric (d : data) (out : list output) :
  match grid_y d with
  | [] =>
      mirror_tauy d out
      = (Raise ValueError,
         (out ++ [Stdout "Mirroring tauy for symmetric representation..."])%list)
  | _ :: _ =>
      exists (mid : nat) (sym : list slice),
        mirror_tauy d out
        = (Ok sym,
           (out ++ [Stdout "Mirroring tauy for symmetric representation...";
                    Stdout "Mirroring completed"])%list)
        /\ argmin (map (fun y => PrimFloat.abs (PrimFloat.sub y half_pi)) (grid_y d)) = Ok mid
        /\ (mid < length (grid_y d))%nat
        /\ length sym = length (tauy d)
        /\ (forall j : nat, (j <= mid \/ 2 * mid < j)%nat -> sym !! j = tauy d !! j)
        /\ (forall k : nat,
              (1 <= k <= mid)%nat -> (mid + k < length (tauy d))%nat ->
              sym !! (mid + k)%nat = tauy d !! (mid - k)%nat
              /\ sym !! (mid + k)%nat = sym !! (mid - k)%nat)
  end.
Proof.
  unfold mirror_tauy, print, bindM, liftM, modifyM, retM.
  destruct (grid_y d) as [|y ys] eqn:Hy; [reflexivity|].
  pose proof (argmin_bound (map (fun y => PrimFloat.abs (PrimFloat.sub y half_pi)) (y :: ys)))
    as Hbound.
  destruct (argmin (map _ (y :: ys))) as [mid|e] eqn:Hmid; [|discriminate].
  specialize (Hbound mid eq_refl). rewrite length_map in Hbound.
  destruct (mirror_loop (tauy d) mid mid (le_n mid)) as (sym & Hfold & Hlen & Hsym).
  rewrite Hfold. exists mid, sym.
  split; [now rewrite <- app_assoc|]. split; [reflexivity|].
  split; [exact Hbound|]. split; [exact Hlen|].
  assert (Hsame : forall j : nat, (j <= mid \/ 2 * mid < j)%nat -> sym !! j = tauy d !! j).
  { intros j Hj. rewrite Hsym. destruct (decide _) as [H|_]; [lia|reflexivity]. }
  split; [exact Hsame|].
  intros k Hk Hin.
  assert (Hmirror : sym !! (mid + k)%nat = tauy d !! (mid - k)%nat).
  { rewrite Hsym. destruct (decide _) as [_|H]; [|lia].
    destruct (decide _) as [_|H]; [|lia]. f_equal. lia. }
  split; [exact Hmirror|]. rewrite Hmirror. symmetry. apply Hsame. lia.
Qed.

End Mirror.

End Plots.

(** ** config_loader.py: which file a configuration name stands for *)

Module ConfigLoader.

Import Text.

(** Available reference configurations. *)
Definition REFERENCE_CONFIGS : list (string * string) :=
  [("baseline", "config_baseline.py");
   ("spiral", "config_spiral.py");
   ("vortex", "config_vortex.py");
   ("combined", "config_combined.py")].

(** [REFERENCE_CONFIGS[key]] where [key in REFERENCE_CONFIGS]. *)
Fixpoint reference (configs : list (string * string)) (key : string) : option string :=
  match configs with
  | [] => None
  | (k, filename) :: configs' =>
      if String.eqb k key then Some filename else reference configs' key
  end.

(** [s.endswith(suffix)]. *)
Definition endswith (s suffix : string) : bool :=
  let n := String.length s in
  let k := String.length suffix in
  (k <=? n)%nat && String.eqb (substring (n - k) k s) suffix.

(** [os.path.basename(p)]: what follows the last slash. *)
Fixpoint basename (p : string) : string :=
  match p with
  | EmptyString => EmptyString
  | String _ p' => if contains "/" p then basename p' else p
  end.

(** Position of the last period of [s]. *)
Fixpoint last_dot (s : string) : option nat :=
  match s with
  | EmptyString => None
  | String c s' =>
      match last_dot s' with
      | Some d => Some (S d)
      | None => if Ascii.eqb c "." then Some 0%nat else None
      end
  end.

Definition all_dots (s : string) : bool :=
  forallb (Ascii.eqb ".") (list_ascii_of_string s).

(** [os.path.splitext(p)[0]] for a [p] without a slash: [p] up to its last
    period, unless only periods come before it. *)
Definition splitext_root (p : string) : string :=
  match last_dot p with
  | Some d => if all_dots (substring 0 d p) then p else substring 0 d p
  | None => p
  end.

(** What [load_config] does that can be seen from outside. *)
Inductive event : Type :=
| Imported (module_name config_path : string)
| Printed (text : string).

Section Loader.

(** The configuration modules, and the file system and the import
    machinery as this process finds them: [exec_module name path] stands
    for building the module from the file and executing it, which returns
    the module or raises whatever building or executing raises. *)
Variable module : Type.
Variable path_exists : string -> bool.
Variable exec_module : string -> string -> result module.

Definition print (text : string) : M (list event) unit :=
  modifyM (fun out => (out ++ [Printed text])%list).

Definition import_file (module_name config_path : string) : M (list event) module :=
  modifyM (fun out => (out ++ [Imported module_name config_path])%list) ;;;
  liftM (exec_module module_name config_path).

(** The path and the module name [load_config] settles on. *)
Definition determine_path (config_name : option string) : result (string * string) :=
  match config_name with
  | None =>
      (* Default: load config.py from current directory *)
      Ok ("config.py", "config")
  | Some config_name =>
      match reference REFERENCE_CONFIGS config_name with
      | Some filename =>
          (* Load reference config from configs/ directory *)
          Ok (SingleRun.path_join "configs" filename, "config_" +:+ config_name)
      | None =>
          if endswith config_name ".py" then
            (* Load custom config file *)
            Ok (config_name, splitext_root (basename config_name))
          else
            (* Try as reference config first, then as filename *)
            if path_exists (SingleRun.path_join "configs" (config_name +:+ ".py")) then
              Ok (SingleRun.path_join "configs" (config_name +:+ ".py"),
                  "config_" +:+ config_name)
            else if path_exists config_name then
              Ok (config_name, splitext_root (basename config_name))
            else Raise (FileNotFoundError ("Config file not found: " +:+ config_name))
      end
  end.

Definition load_config (config_name : option string) : M (list event) module :=
  (* Determine config file path *)
  found <~ liftM (determine_path config_name) ;;
  let (config_path, module_name) := found : string * string in
  (* Check if file exists *)
  if negb (path_exists config_path) then
    raiseM (FileNotFoundError ("Config file not found: " +:+ config_path))
  else
    (* Load the module *)
    config_module <~ import_file module_name config_path ;;
    print ("Loaded configuration: " +:+ config_path) ;;;
    retM config_module.

(** The file [run_single_mode] of main.py copies into the run directory
    as the configuration of the run, if it exists. *)
Definition saved_config_path (config_name : option string) : string :=
  match config_name with
  | Some config_name =>
      if negb (String.eqb config_name "") then
        (* Reference or custom config *)
        match reference REFERENCE_CONFIGS config_name with
        | Some filename => SingleRun.path_join "configs" filename
        | None => config_name
        end
      else "config.py"
  | None =>
      (* Default config *)
      "config.py"
  end.

(** *** What is loaded *)

Lemma reference_key (configs : list (string * string)) (key filename : string) :
  reference configs key = Some filename -> (key, filename) ∈ configs.
Proof.
  induction configs as [|[k f] configs IH]; cbn [reference]; [discriminate|].
  destruct (String.eqb_spec k key) as [->|_].
  - intros H. inversion H. apply elem_of_cons. now left.
  - intros H. apply elem_of_cons. right. now apply IH.
Qed.

Lemma reference_file (key filename : string) :
  reference REFERENCE_CONFIGS key = Some filename ->
  SingleRun.path_join "configs" filename = "configs/" +:+ filename.
Proof.
  intros H. apply reference_key in H.
  repeat (apply elem_of_cons in H; destruct H as [H|H]; [inversion H; reflexivity|]).
  now apply elem_of_nil in H.
Qed.

Lemma joined_length (a b : string) :
  String.length (a +:+ b) = (String.length a + String.length b)%nat.
Proof.
  induction a as [|c a IH]; [reflexivity|].
  rewrite SingleRun.append_cons. cbn [String.length]. now rewrite IH.
Qed.

Lemma configs_join (b : string) :
  SingleRun.path_join "configs" b = b
  \/ SingleRun.path_join "configs" b = "configs/" +:+ b.
Proof.
  unfold SingleRun.path_join. destruct (String.prefix "/" b); [now left|now right].
Qed.

(** What [determine_path] returns for each kind of name. *)
Lemma determine_path_cases (config_name : option string) :
  match determine_path config_name with
  | Ok (config_path, module_name) =>
      match config_name with
      | None => config_path = "config.py"
      | Some name =>
          match reference REFERENCE_CONFIGS name with
          | Some filename => config_path = "configs/" +:+ filename
          | None =>
              if endswith name ".py" then config_path = name
              else
                (path_exists config_path = true
                 /\ config_path = SingleRun.path_join "configs" (name +:+ ".py"))
                \/ (path_exists config_path = true
                    /\ path_exists (SingleRun.path_join "configs" (name +:+ ".py")) = false
                    /\ config_path = name)
          end
      end
  | Raise e =>
      exists name,
        config_name = Some name
        /\ e = FileNotFoundError ("Config file not found: " +:+ name)
        /\ path_exists name = false
  end.
Proof.
  destruct config_name as [name|]; cbn [determine_path]; [|reflexivity].
  destruct (reference REFERENCE_CONFIGS name) as [filename|] eqn:Href.
  - now apply reference_file in Href.
  - destruct (endswith name ".py"); [reflexivity|].
    destruct (path_exists (SingleRun.path_join "configs" (name +:+ ".py"))) eqn:Hc;
      [left; now split|].
    destruct (path_exists name) eqn:Hn; [right; now repeat split|].
    exists name. now repeat split.
Qed.

(** X21: [load_config] never imports a file that does not exist.  It
    either raises FileNotFoundError itself, naming a path that does not
    exist, before anything is imported or printed; or it imports one file,
    which exists, and then returns the module after one message naming
    the path, or raises what the import raised.  Without a name the file
    is config.py; a reference name stands for its file in configs/, even
    when a file of that name exists in the current directory; any other
    name ending in .py stands for itself. *)
Theorem load_config_imports_existing_file (config_name : option string) (out : list event) :
  let stands_for (config_path : string) : Prop :=
    (config_name = None -> config_path = "config.py")
    /\ (forall name filename,
          config_name = Some name -> reference REFERENCE_CONFIGS name = Some filename ->
          config_path = "configs/" +:+ filename)
    /\ (forall name,
          config_name = Some name -> reference REFERENCE_CONFIGS name = None ->
          endswith name ".py" = true -> config_path = name) in
  match load_config config_name out with
  | (Ok config_module, out') =>
      exists module_name config_path,
        path_exists config_path = true
        /\ exec_module module_name config_path = Ok config_module
        /\ out' = (out ++ [Imported module_name config_path;
                           Printed ("Loaded configuration: " +:+ config_path)])%list
        /\ stands_for config_path
  | (Raise e, out') =>
      (exists missing,
         e = FileNotFoundError ("Config file not found: " +:+ missing)
         /\ path_exists missing = false
         /\ out' = out)
      \/ (exists module_name config_path,
            path_exists config_path = true
            /\ exec_module module_name config_path = Raise e
            /\ out' = (out ++ [Imported module_name config_path])%list
            /\ stands_for config_path)
  end.
Proof.
  cbv zeta. pose proof (determine_path_cases config_name) as Hcases.
  unfold load_config, import_file, print, bindM, liftM, modifyM, raiseM, retM.
  destruct (determine_path config_name) as [[config_path module_name]|e].
  - assert (Hstands :
      (config_name = None -> config_path = "config.py")
      /\ (forall name filename,
            config_name = Some name -> reference REFERENCE_CONFIGS name = Some filename ->
            config_path = "configs/" +:+ filename)
      /\ (forall name,
            config_name = Some name -> reference REFERENCE_CONFIGS name = None ->
            endswith name ".py" = true -> config_path = name)).
    { destruct config_name as [name|].
      - split; [discriminate|]. split.
        + intros ? filename [= <-] Href. now rewrite Href in Hcases.
        + intros ? [= <-] Href Hpy. now rewrite Href, Hpy in Hcases.
      - split; [now intros _|]. split; intros; discriminate. }
    destruct (path_exists config_path) eqn:Hex; cbn [negb].
    + destruct (exec_module module_name config_path) as [config_module|e] eqn:Hexec.
      * exists module_name, config_path.
        split; [exact Hex|]. split; [exact Hexec|]. split; [|exact Hstands].
        now rewrite <- app_assoc.
      * right. exists module_name, config_path. now repeat split.
    + left. exists config_path. now repeat split.
  - destruct Hcases as (name & _ & -> & Hmissing).
    left. exists name. now repeat split.
Qed.

(** X22: when [run_single_mode] of main.py loads a configuration by name,
    the file it afterwards copies into the run directory is the file
    [load_config] imported exactly when the name is a reference name, ends
    in .py, or has no file of its own in configs/.  For any other name the
    run is configured from configs/<name>.py while the copy is taken from
    the file called <name>. *)
Theorem saved_config_is_loaded_iff
    (name : string) (out out' : list event) (config_module : module) :
  name <> "" ->
  load_config (Some name) out = (Ok config_module, out') ->
  exists module_name config_path,
    out' = (out ++ [Imported module_name config_path;
                    Printed ("Loaded configuration: " +:+ config_path)])%list
    /\ (config_path = saved_config_path (Some name)
        <-> reference REFERENCE_CONFIGS name <> None
            \/ endswith name ".py" = true
            \/ path_exists (SingleRun.path_join "configs" (name +:+ ".py")) = false).
Proof.
  intros Hname Hload. pose proof (determine_path_cases (Some name)) as Hcases.
  unfold load_config, import_file, print, bindM, liftM, modifyM, raiseM, retM in Hload.
  destruct (determine_path (Some name)) as [[config_path module_name]|e];
    [|discriminate].
  destruct (path_exists config_path) eqn:Hex; cbn [negb] in Hload; [|discriminate].
  destruct (exec_module module_name config_path) as [m|e]; [|discriminate].
  injection Hload as _ <-. exists module_name, config_path.
  split; [now rewrite <- app_assoc|].
  unfold saved_config_path.
  destruct (String.eqb_spec name "") as [->|_]; [contradiction|]. cbn [negb].
  destruct (reference REFERENCE_CONFIGS name) as [filename|] eqn:Href.
  - apply reference_file in Href. rewrite Href. subst config_path.
    split; [intros _; left; discriminate|reflexivity].
  - destruct (endswith name ".py") eqn:Hpy.
    + subst config_path. split; [intros _; right; now left|reflexivity].
    + destruct Hcases as [[_ ->]|(_ & Hnone & ->)].
      * split.
        -- intros Hsame. exfalso.
           assert (Hlen : String.length (SingleRun.path_join "configs" (name +:+ ".py"))
                          = String.length name) by now rewrite Hsame.
           destruct (configs_join (name +:+ ".py")) as [Hj|Hj]; rewrite Hj in Hlen;
             rewrite !joined_length in Hlen; cbn [String.length] in Hlen; lia.
        -- intros [H|[H|H]]; [now contradiction H|discriminate|].
           rewrite Hex in H. discriminate.
      * split; [intros _; right; now right|reflexivity].
Qed.

End Loader.

(** *** Closed example *)

(** A directory holding [disk] and [configs/disk.py], whose files all
    load. *)
Definition two_disks (p : string) : bool :=
  String.eqb p "disk" || String.eqb p "configs/disk.py".

Lemma saved_config_is_loaded_iff_witness :
  exists module_name config_path,
    [Imported "config_disk" "configs/disk.py";
     Printed "Loaded configuration: configs/disk.py"]
    = ([] ++ [Imported module_name config_path;
              Printed ("Loaded configuration: " +:+ config_path)])%list
    /\ (config_path = saved_config_path (Some "disk")
        <-> reference REFERENCE_CONFIGS "disk" <> None
            \/ endswith "disk" ".py" = true
            \/ two_disks (SingleRun.path_join "configs" ("disk" +:+ ".py")) = false).
Proof.
  apply (saved_config_is_loaded_iff unit two_disks (fun _ _ => Ok tt) "disk" [] _ tt);
    [discriminate|reflexivity].
Defined.

End ConfigLoader.

(** ** main.py: the questions asked before a run *)

Module Main.

Import Text.

(** [sys.exit(code)] and the end of the standard input under [input],
    which are no subclasses of the exceptions the code catches. *)
Definition SystemExit (code : Z) : exn := OtherError ("SystemExit: " +:+ pretty code).
Definition EOFError : exn := OtherError "EOFError".

(** What the dialogue writes: a [print] call, or the prompt of an [input]
    call. *)
Inductive written : Type :=
| Line (text : string)
| Prompt (text : string).

(** The lines still to be read from the standard input, and what has been
    written. *)
Definition console : Type := list string * list written.

Definition print (text : string) : M console unit :=
  modifyM (fun s : console => (s.1, (s.2 ++ [Line text])%list)).

(** [input(prompt)]: the next line without its line break; EOFError when
    there is none. *)
Definition input (prompt : string) : M console string :=
  fun s =>
    match s.1 with
    | [] => (Raise EOFError, (s.1, (s.2 ++ [Prompt prompt])%list))
    | line :: rest => (Ok line, (rest, (s.2 ++ [Prompt prompt])%list))
    end.

Definition sys_exit {A : Type} (code : Z) : M console A := raiseM (SystemExit code).

(** [try: body except ValueError: handler]. *)
Definition except_ValueError {A : Type} (body handler : M console A) : M console A :=
  try_except body (fun e => match e with ValueError => handler | _ => raiseM e end).

(** [s.lower()]. *)
Definition lower_str (s : string) : string :=
  string_of_list_ascii (map lower (list_ascii_of_string s)).

(** [l[i]]. *)
Definition list_index {A : Type} (l : list A) (i : Z) : result A :=
  let j := if i <? 0 then i + Z.of_nat (length l) else i in
  if j <? 0 then Raise IndexError
  else match l !! Z.to_nat j with
       | Some a => Ok a
       | None => Raise IndexError
       end.

(** The literal [2.2]. *)
Definition default_wavelength : float := 0x1.199999999999ap+1%float.

Section Dialogue.

Context `{RT : PyRuntime}.

(** [int(s)] of a string, [None] when [s] is no integer, and
    [os.path.exists]. *)
Variable int_of_str : string -> option Z.
Variable path_exists : string -> bool.

Definition py_int (s : string) : result Z :=
  match int_of_str s with
  | Some z => Ok z
  | None => Raise ValueError
  end.

(** [for i, key in enumerate(keys, start=i): print(f"  {i} - {key}")]. *)
Fixpoint print_numbered (i : Z) (keys : list string) : M console unit :=
  match keys with
  | [] => retM tt
  | key :: keys' =>
      print ("  " +:+ pretty i +:+ " - " +:+ key) ;;; print_numbered (i + 1) keys'
  end.

Definition get_user_inputs : M console dict :=
  (* Get run name *)
  line <~ input "Please define a name for this run: " ;;
  let name := strip line in
  (if String.eqb name "" then
     print "Name cannot be empty. Exiting." ;;; sys_exit 1
   else retM tt) ;;;
  (* Ask for config selection *)
  print (SingleRun.newline +:+ "Select configuration:") ;;;
  print "1 - Default (config.py)" ;;;
  print "2 - Reference configs (baseline, spiral, etc.)" ;;;
  print "3 - Custom config file" ;;;
  line <~ input "Please choose 1, 2, or 3: " ;;
  let config_choice := strip line in
  let config_name := PNone in
  let config_name := if String.eqb config_choice "1" then PNone else config_name in
  config_name <~
    (if String.eqb config_choice "2" then
       (* List available reference configs *)
       print (SingleRun.newline +:+ "Available reference configurations:") ;;;
       print_numbered 1 (map fst ConfigLoader.REFERENCE_CONFIGS) ;;;
       line <~ input (SingleRun.newline +:+ "Enter configuration number: ") ;;
       let ref_choice := strip line in
       except_ValueError
         (n <~ liftM (py_int ref_choice) ;;
          let ref_idx := n - 1 in
          if (0 <=? ref_idx)
             && (ref_idx <? Z.of_nat (length ConfigLoader.REFERENCE_CONFIGS))
          then
            key <~ liftM (list_index (map fst ConfigLoader.REFERENCE_CONFIGS) ref_idx) ;;
            retM (PStr key)
          else
            print "Invalid number. Please concentrate and start the simulation again." ;;;
            sys_exit 1)
         (print ("Please enter a valid number. "
                 +:+ "Please concentrate and start the simulation again.") ;;;
          sys_exit 1)
     else if String.eqb config_choice "3" then
       line <~ input "Enter path to custom config file: " ;;
       let custom_path := strip line in
       if path_exists custom_path then retM (PStr custom_path)
       else
         print ("File not found: " +:+ custom_path
                +:+ ". Please check the path and start again.") ;;;
         sys_exit 1
     else retM config_name) ;;
  (* Ask for run mode *)
  print (SingleRun.newline +:+ "Select run mode:") ;;;
  print "1 - Single run" ;;;
  print "2 - Batch run" ;;;
  line <~ input "Please choose 1 or 2: " ;;
  let mode_choice := strip line in
  run_mode <~
    (if String.eqb mode_choice "1" then retM "single"
     else if String.eqb mode_choice "2" then retM "batch"
     else print "Invalid choice. Exiting." ;;; sys_exit 1) ;;
  (* Ask for UI Mode - Only two options now *)
  print (SingleRun.newline +:+ "Select Output Mode:") ;;;
  print "1 - Advanced UI (Visual progress bars / experimental)" ;;;
  print "2 - Raw Output (Standard RADMC-3D terminal output)" ;;;
  line <~ input "Please choose 1 or 2: " ;;
  let ui_choice := strip line in
  let ui_mode := if String.eqb ui_choice "1" then "advanced" else "raw" in
  (* Ask about image computation *)
  line <~ input (SingleRun.newline +:+ "Compute images? (y/n): ") ;;
  let input_images := lower_str (strip line) in
  let make_images := String.eqb input_images "y" in
  wavelength <~
    (if make_images then
       line <~ input "Wavelength to compute (in micron): " ;;
       let wavelength_input := strip line in
       except_ValueError
         (if negb (String.eqb wavelength_input "")
          then liftM (py_float (PStr wavelength_input))
          else retM default_wavelength)
         (print "Falling back to 2.2 micron" ;;;
          retM default_wavelength)
     else
       print "Falling back to 2.2 micron" ;;;
       retM default_wavelength) ;;
  (* Ask about reference SED *)
  print (SingleRun.newline +:+ "Please choose a reference SED for AB Aur:") ;;;
  print "1 - ABAur_Dominik.txt" ;;;
  print "2 - ABAur_Dullemond.txt" ;;;
  print "3 - None" ;;;
  line <~ input "Please choose 1, 2 or 3: " ;;
  let choice := strip line in
  let reference_sed :=
    if String.eqb choice "1" then PStr "ABAur_Dominik.txt"
    else if String.eqb choice "2" then PStr "ABAur_Dullemond.txt"
    else PNone in
  (* Returning choices *)
  retM [("name", PStr name);
        ("config_name", config_name);
        ("make_images", PBool make_images);
        ("wavelength", PFloat wavelength);
        ("reference_sed", reference_sed);
        ("run_mode", PStr run_mode);
        ("ui_mode", PStr ui_mode)].

(** *** Every way the dialogue can end *)

(** A part of the dialogue whose value, when it returns, satisfies [P],
    and which otherwise ends at the end of the input or leaves the program
    with status 1 after a message. *)
Definition asks {A : Type} (P : A -> Prop) (m : M console A) : Prop :=
  forall s : console,
    match (m s).1 with
    | Ok a => P a
    | Raise e =>
        (e = EOFError /\ (m s).2.1 = [])
        \/ (e = SystemExit 1
            /\ exists before message, (m s).2.2 = (before ++ [Line message])%list)
    end.

Lemma asks_ret {A : Type} (P : A -> Prop) (a : A) : P a -> asks P (retM a).
Proof. intros H s. exact H. Qed.

Lemma asks_weaken {A : Type} (P Q : A -> Prop) (m : M console A) :
  (forall a, P a -> Q a) -> asks P m -> asks Q m.
Proof.
  intros HPQ Hm s. specialize (Hm s). destruct ((m s).1); [now apply HPQ|exact Hm].
Qed.

Lemma asks_bind {A B : Type} (P : A -> Prop) (Q : B -> Prop)
    (m : M console A) (k : A -> M console B) :
  asks P m -> (forall a, P a -> asks Q (k a)) -> asks Q (bindM m k).
Proof.
  intros Hm Hk s. specialize (Hm s). unfold bindM.
  destruct (m s) as [[a|e] s']; cbn [fst snd] in *.
  - apply (Hk a Hm s').
  - exact Hm.
Qed.

Lemma asks_print (text : string) : asks (fun _ => True) (print text).
Proof. intros s. exact I. Qed.

Lemma asks_input (prompt : string) : asks (fun _ => True) (input prompt).
Proof.
  intros [lines out]. unfold input. cbn [fst snd].
  destruct lines as [|line rest]; cbn [fst snd]; [|exact I].
  left. now split.
Qed.

Lemma asks_exit {A : Type} (P : A -> Prop) (message : string) :
  asks P (print message ;;; sys_exit 1).
Proof.
  intros [lines out]. cbn. right. split; [reflexivity|]. now exists out, message.
Qed.

Lemma asks_print_numbered (i : Z) (keys : list string) :
  asks (fun _ => True) (print_numbered i keys).
Proof.
  revert i. induction keys as [|key keys IH]; intros i; cbn [print_numbered].
  - now apply asks_ret.
  - apply (asks_bind (fun _ => True)); [apply asks_print|]. intros _ _. apply IH.
Qed.

(** A conversion that can only raise ValueError, under a handler for
    ValueError. *)
Lemma asks_except_ValueError {A B : Type} (P : B -> Prop)
    (r : result A) (k : A -> M console B) (handler : M console B) :
  (forall e, r = Raise e -> e = ValueError) ->
  (forall a, r = Ok a -> asks P (k a)) ->
  asks P handler ->
  asks P (except_ValueError (a <~ liftM r ;; k a) handler).
Proof.
  intros Hr Hk Hh s. unfold except_ValueError, try_except, bindM, liftM.
  destruct r as [a|e].
  - specialize (Hk a eq_refl s).
    destruct (k a s) as [[b|e] s']; cbn [fst snd] in *; [exact Hk|].
    destruct Hk as [[-> Hs]|[-> Hs]]; cbn; [left|right]; now split.
  - rewrite (Hr e eq_refl). apply Hh.
Qed.

(** What a returned dict holds. *)
Definition answers (d : dict) : Prop :=
  exists (name run_mode ui_mode : string) (config_name reference_sed : pyval)
         (make_images : bool) (wavelength : float),
    d = [("name", PStr name);
         ("config_name", config_name);
         ("make_images", PBool make_images);
         ("wavelength", PFloat wavelength);
         ("reference_sed", reference_sed);
         ("run_mode", PStr run_mode);
         ("ui_mode", PStr ui_mode)]
    /\ name <> ""
    /\ (config_name = PNone
        \/ (exists key filename,
              config_name = PStr key
              /\ ConfigLoader.reference ConfigLoader.REFERENCE_CONFIGS key = Some filename)
        \/ (exists custom_path,
              config_name = PStr custom_path /\ path_exists custom_path = true))
    /\ (run_mode = "single" \/ run_mode = "batch")
    /\ (ui_mode = "advanced" \/ ui_mode = "raw")
    /\ (make_images = false -> wavelength = default_wavelength)
    /\ (reference_sed = PNone
        \/ reference_sed = PStr "ABAur_Dominik.txt"
        \/ reference_sed = PStr "ABAur_Dullemond.txt").

Lemma get_user_inputs_asks : asks answers get_user_inputs.
Proof.
  unfold get_user_inputs.
  apply (asks_bind (fun _ => True)); [apply asks_input|]. intros line1 _.
  apply (asks_bind (fun _ => strip line1 <> "")).
  { destruct (String.eqb_spec (strip line1) "") as [_|Hne];
      [apply asks_exit|now apply asks_ret]. }
  intros _ Hname.
  do 4 (apply (asks_bind (fun _ => True)); [apply asks_print|]; intros _ _).
  apply (asks_bind (fun _ => True)); [apply asks_input|]. intros line2 _.
  apply (asks_bind
           (fun config_name =>
              config_name = PNone
              \/ (exists key filename,
                    config_name = PStr key
                    /\ ConfigLoader.reference ConfigLoader.REFERENCE_CONFIGS key = Some filename)
              \/ (exists custom_path,
                    config_name = PStr custom_path /\ path_exists custom_path = true))).
  { destruct (String.eqb (strip line2) "2").
    - apply (asks_bind (fun _ => True)); [apply asks_print|]. intros _ _.
      apply (asks_bind (fun _ => True)); [apply asks_print_numbered|]. intros _ _.
      apply (asks_bind (fun _ => True)); [apply asks_input|]. intros line _.
      apply asks_except_ValueError; [| |apply asks_exit].
      + unfold py_int. intros e. destruct (int_of_str (strip line)); congruence.
      + intros n _.
        destruct ((0 <=? n - 1)
                  && (n - 1 <? Z.of_nat (length ConfigLoader.REFERENCE_CONFIGS))) eqn:Hin;
          [|apply asks_exit].
        apply andb_true_iff in Hin. destruct Hin as [Hlo Hhi].
        apply Z.leb_le in Hlo. apply Z.ltb_lt in Hhi.
        cbn [ConfigLoader.REFERENCE_CONFIGS length] in Hhi.
        assert (Hn : n - 1 = 0 \/ n - 1 = 1 \/ n - 1 = 2 \/ n - 1 = 3) by lia.
        destruct Hn as [->|[->|[->| ->]]]; cbn; right; left;
          eexists; eexists; (split; [reflexivity|reflexivity]).
    - destruct (String.eqb (strip line2) "3").
      + apply (asks_bind (fun _ => True)); [apply asks_input|]. intros line _.
        destruct (path_exists (strip line)) eqn:Hex; [|apply asks_exit].
        apply asks_ret. right. right. now exists (strip line).
      + apply asks_ret. left. now destruct (String.eqb (strip line2) "1"). }
  intros config_name Hconfig.
  do 3 (apply (asks_bind (fun _ => True)); [apply asks_print|]; intros _ _).
  apply (asks_bind (fun _ => True)); [apply asks_input|]. intros line3 _.
  apply (asks_bind (fun run_mode => run_mode = "single" \/ run_mode = "batch")).
  { destruct (String.eqb (strip line3) "1"); [apply asks_ret; now left|].
    destruct (String.eqb (strip line3) "2"); [apply asks_ret; now right|].
    apply asks_exit. }
  intros run_mode Hmode.
  do 3 (apply (asks_bind (fun _ => True)); [apply asks_print|]; intros _ _).
  apply (asks_bind (fun _ => True)); [apply asks_input|]. intros line4 _.
  apply (asks_bind (fun _ => True)); [apply asks_input|]. intros line5 _.
  apply (asks_bind
           (fun wavelength =>
              String.eqb (lower_str (strip line5)) "y" = false ->
              wavelength = default_wavelength)).
  { destruct (String.eqb (lower_str (strip line5)) "y").
    - apply (asks_weaken (fun _ => True)); [discriminate|].
      apply (asks_bind (fun _ => True)); [apply asks_input|]. intros line _.
      destruct (String.eqb (strip line) ""); cbn [negb].
      + intros s. exact I.
      + intros s. unfold except_ValueError, try_except, liftM, py_float.
        destruct (float_of_str (strip line)); exact I.
    - apply (asks_bind (fun _ => True)); [apply asks_print|]. intros _ _.
      now apply asks_ret. }
  intros wavelength Hwavelength.
  do 4 (apply (asks_bind (fun _ => True)); [apply asks_print|]; intros _ _).
  apply (asks_bind (fun _ => True)); [apply asks_input|]. intros line6 _.
  apply asks_ret. unfold answers.
  eexists _, _, _, _, _, _, _. split; [reflexivity|].
  split; [exact Hname|]. split; [exact Hconfig|]. split; [exact Hmode|].
  split; [destruct (String.eqb (strip line4) "1"); auto|].
  split; [exact Hwavelength|].
  destruct (String.eqb (strip line6) "1"); [auto|].
  destruct (String.eqb (strip line6) "2"); auto.
Qed.

(** X23: however the questions are answered, [get_user_inputs] ends in one
    of three ways.  It returns a dict with the seven keys in which the
    name is not empty, the configuration is None, a reference name or a
    path that exists, the run mode is single or batch, the output mode is
    advanced or raw, the wavelength is 2.2 unless images were asked for,
    and the reference file is None or one of the two named files; or it
    leaves the program with status 1, the last thing written being a
    message; or the input ended and it raises EOFError.  No answer makes
    it raise ValueError or IndexError. *)
Theorem get_user_inputs_ends_well (lines : list string) (out : list written) :
  let run := get_user_inputs (lines, out) in
  match run.1 with
  | Ok user_inputs => answers user_inputs
  | Raise e =>
      (e = EOFError /\ run.2.1 = [])
      \/ (e = SystemExit 1
          /\ exists before message, run.2.2 = (before ++ [Line message])%list)
  end
  /\ run.1 <> Raise ValueError /\ run.1 <> Raise IndexError.
Proof.
  cbv zeta. pose proof (get_user_inputs_asks (lines, out)) as H.
  split; [exact H|].
  destruct (get_user_inputs (lines, out)).1 as [d|e]; [split; discriminate|].
  destruct H as [[-> _]|[-> _]]; split; discriminate.
Qed.

End Dialogue.

End Main.

(** ** batch_run.py: the batch mode *)

Module BatchMode.

Import BatchRun.

(** The parameter grid of the file. *)
Definition param_combinations : list dict :=
  [ (* Example 1: Baseline model *)
    [("name_suffix", PStr "baseline");
     ("mdisk", PStr "0.01*ms");
     ("hrdisk", PFloat 0x1.df3b645a1cac1p-4);
     ("h_spiral_amp", PFloat 0);
     ("sig_spiral_amp", PFloat 0)];
    (* Example 2: With spiral structure *)
    [("name_suffix", PStr "spiral_weak");
     ("mdisk", PStr "0.01*ms");
     ("hrdisk", PFloat 0x1.df3b645a1cac1p-4);
     ("h_spiral_amp", PFloat 0x1.999999999999ap-4);
     ("sig_spiral_amp", PFloat 0x1.999999999999ap-3);
     ("n_arms", PInt 2);
     ("spiral_pitch", PFloat 1)];
    (* Example 3: Stronger spiral *)
    [("name_suffix", PStr "spiral_strong");
     ("mdisk", PStr "0.01*ms");
     ("hrdisk", PFloat 0x1.df3b645a1cac1p-4);
     ("h_spiral_amp", PFloat 0x1.999999999999ap-3);
     ("sig_spiral_amp", PFloat 0.5);
     ("n_arms", PInt 2);
     ("spiral_pitch", PFloat 1)];
    (* Example 4: With vortex *)
    [("name_suffix", PStr "vortex");
     ("mdisk", PStr "0.01*ms");
     ("hrdisk", PFloat 0x1.df3b645a1cac1p-4);
     ("sig_vortex_amp", PList [PFloat 0.5; PFloat 0.5]);
     ("h_vortex_amp",
      PList [PFloat 0x1.999999999999ap-3; PFloat 0x1.999999999999ap-3])];
    (* Example 5: Higher mass disk *)
    [("name_suffix", PStr "highmass");
     ("mdisk", PStr "0.02*ms");
     ("hrdisk", PFloat 0x1.df3b645a1cac1p-4)];
    (* Example 6: Different flaring *)
    [("name_suffix", PStr "flared");
     ("mdisk", PStr "0.01*ms");
     ("hrdisk", PFloat 0x1.3333333333333p-3);
     ("plh", PFloat 0x1.999999999999ap-2)] ].

Definition print (text : string) : M (list output) unit :=
  modifyM (fun out => (out ++ [Stdout text])%list).

(** A call, with the positional arguments [args], of a function that has
    one parameter, which has no default. *)
Definition call_with_one_parameter {S A : Type}
    (body : pyval -> M S A) (args : list pyval) : M S A :=
  match args with
  | [a] => body a
  | _ => raiseM TypeError
  end.

Section Mode.

Context `{RT : PyRuntime}.

(** The body of [get_params_dict] of main.py, which has the one parameter
    [config_module], and the part of [run_batch_mode] that follows the
    reading of the base parameters, with the local variables it uses: the
    loop over the grid and the summary. *)
Variable get_params_dict : pyval -> M (list output) dict.
Variable simulations :
  pyval -> pyval -> pyval -> pyval -> pyval -> string -> dict -> M (list output) unit.

Definition run_batch_mode (user_inputs : dict) (base_timestamp : string)
  : M (list output) unit :=
  base_name <~ liftM (dict_lookup user_inputs "name") ;;
  make_images <~ liftM (dict_lookup user_inputs "make_images") ;;
  wavelength <~ liftM (dict_lookup user_inputs "wavelength") ;;
  reference_sed <~ liftM (dict_lookup user_inputs "reference_sed") ;;
  ui_mode <~ liftM (dict_lookup user_inputs "ui_mode") ;;
  print (SingleRun.newline +:+ SingleRun.rule "=" 60) ;;;
  print ("BATCH MODE: Running " +:+ pretty (Z.of_nat (length param_combinations))
         +:+ " simulations") ;;;
  print ("Naming mode: " +:+ BATCH_NAMING_MODE) ;;;
  print (SingleRun.rule "=" 60 +:+ SingleRun.newline) ;;;
  (* Get base parameters from config *)
  base_params <~ call_with_one_parameter get_params_dict [] ;;
  simulations base_name make_images wavelength reference_sed ui_mode base_timestamp
    base_params.

(** X24: [run_batch_mode] never reaches its first simulation.  It calls
    [get_params_dict], which has one required parameter, without an
    argument: with the five entries it reads present in the user inputs it
    prints its banner, announcing 6 simulations, and raises TypeError;
    with one of them absent it raises the KeyError of the first absent one
    before printing.  Nothing of what follows in the function is run. *)
Theorem batch_mode_stops_before_first_simulation
    (user_inputs : dict) (base_timestamp : string) (out : list output) :
  let run := run_batch_mode user_inputs base_timestamp out in
  let read := ["name"; "make_images"; "wavelength"; "reference_sed"; "ui_mode"] in
  match run.1 with
  | Ok _ => False
  | Raise e =>
      (e = TypeError
       /\ Forall (fun key => key ∈ dict_keys user_inputs) read
       /\ run.2
          = (out ++ [Stdout (SingleRun.newline +:+ SingleRun.rule "=" 60);
                     Stdout "BATCH MODE: Running 6 simulations";
                     Stdout "Naming mode: detailed";
                     Stdout (SingleRun.rule "=" 60 +:+ SingleRun.newline)])%list)
      \/ (exists before key after,
            e = KeyError key
            /\ read = (before ++ key :: after)%list
            /\ Forall (fun key => key ∈ dict_keys user_inputs) before
            /\ (key ∉ dict_keys user_inputs)
            /\ run.2 = out)
  end.
Proof.
  cbv zeta. unfold run_batch_mode.
  pose proof (RunLaws.dict_lookup_spec user_inputs) as Hspec.
  assert (Hstep : forall key (k : pyval -> M (list output) unit),
            ((v <~ liftM (dict_lookup user_inputs key) ;; k v) out
             = (Raise (KeyError key), out)
             /\ key ∉ dict_keys user_inputs)
            \/ (exists v, (v <~ liftM (dict_lookup user_inputs key) ;; k v) out = k v out
                          /\ key ∈ dict_keys user_inputs)).
  { intros key k. specialize (Hspec key). unfold bindM, liftM.
    destruct (dict_lookup user_inputs key) as [v|e].
    - right. exists v. split; [reflexivity|apply Hspec].
    - destruct Hspec as [-> Hnot]. left. now split. }
  match goal with
  | |- context [bindM (liftM (dict_lookup user_inputs "name")) ?k] =>
      destruct (Hstep "name" k) as [[-> H1]|(base_name & -> & H1)]
  end.
  { right. exists [], "name", ["make_images"; "wavelength"; "reference_sed"; "ui_mode"].
    repeat split; [constructor|exact H1]. }
  match goal with
  | |- context [bindM (liftM (dict_lookup user_inputs "make_images")) ?k] =>
      destruct (Hstep "make_images" k) as [[-> H2]|(make_images & -> & H2)]
  end.
  { right. exists ["name"], "make_images", ["wavelength"; "reference_sed"; "ui_mode"].
    repeat split; [repeat constructor; assumption|exact H2]. }
  match goal with
  | |- context [bindM (liftM (dict_lookup user_inputs "wavelength")) ?k] =>
      destruct (Hstep "wavelength" k) as [[-> H3]|(wavelength & -> & H3)]
  end.
  { right. exists ["name"; "make_images"], "wavelength", ["reference_sed"; "ui_mode"].
    repeat split; [repeat constructor; assumption|exact H3]. }
  match goal with
  | |- context [bindM (liftM (dict_lookup user_inputs "reference_sed")) ?k] =>
      destruct (Hstep "reference_sed" k) as [[-> H4]|(reference_sed & -> & H4)]
  end.
  { right. exists ["name"; "make_images"; "wavelength"], "reference_sed", ["ui_mode"].
    repeat split; [repeat constructor; assumption|exact H4]. }
  match goal with
  | |- context [bindM (liftM (dict_lookup user_inputs "ui_mode")) ?k] =>
      destruct (Hstep "ui_mode" k) as [[-> H5]|(ui_mode & -> & H5)]
  end.
  { right. exists ["name"; "make_images"; "wavelength"; "reference_sed"], "ui_mode", [].
    repeat split; [repeat constructor; assumption|exact H5]. }
  left. split; [reflexivity|]. split; [repeat constructor; assumption|].
  cbn [fst snd]. unfold print, bindM, modifyM, call_with_one_parameter, raiseM.
  cbn [fst snd]. rewrite <- !app_assoc. reflexivity.
Qed.

End Mode.

End BatchMode.
